(** * anomalies-detector: outlier detection, report assembly and duration parsing

    A shallow embedding of the Go packages [collector], [config], [analyser]
    and [utils] of ftfmtavares/anomalies-detector, and the properties of the
    3-sigmas detector, of the report assembler and of the duration parser.

    Conventions of the embedding:
    - [float64] is Rocq's primitive binary64 float ([PrimFloat.float]); the
      operators [+ - * /], [math.Sqrt] and [math.Abs] are the IEEE 754
      operations of the same name;
    - [time.Time] is an instant on a linear time line, a [Z];
    - Go's [int] indices are [Z]; [int64] arithmetic is [Z] with the
      wrap-around written out;
    - a Go run-time panic (index out of range) is [None]. *)

From Stdlib Require Import ZArith Lia List Bool String Ascii.
From Stdlib Require Import Sorting.Sorted.
From Stdlib Require Import Floats.
From stdpp Require Import base option list gmap strings.
Import ListNotations.

#[local] Open Scope Z_scope.

(** ** Package time *)

Module time.

(** An instant; only equality and order of instants are used. *)
Definition Time : Type := Z.

End time.

(** ** Go's float64 *)

Module float64.

(** [a > b] on float64: false as soon as one side is NaN. *)
Definition gt (a b : float) : bool := PrimFloat.ltb b a.

(** [float64(n)] for an [int] [n] with [0 <= n < 2^63]. *)
Definition of_int (n : Z) : float := PrimFloat.of_uint63 (Uint63.of_Z n).

(** [math.Pow(x, 2)], after Go's [math.pow]. The special cases come first:
    [x == 1] gives 1, a NaN gives NaN, a zero gives 0 and an infinity gives
    +Inf. Otherwise [x1, xe := Frexp(x)] and the loop over the bits of the
    exponent 2 runs twice: the first pass squares, [x1 *= x1; xe <<= 1;
    if x1 < .5 { x1 += x1; xe-- }], the second multiplies the result
    [a1 = 1, ae = 0] by it, [a1 *= x1; ae += xe]; [Ldexp(a1, ae)] is
    returned. The square is rounded when the mantissa is squared and once
    more by [Ldexp] when the result is subnormal, so that it can differ
    from the product [x * x] in the last bit. *)
Definition pow2 (x : float) : float :=
  if PrimFloat.eqb x 1 then 1%float
  else if PrimFloat.is_nan x then PrimFloat.nan
  else if PrimFloat.eqb x 0 then 0%float
  else if PrimFloat.is_infinity x then PrimFloat.infinity
  else
    let '(x1, xe) := FloatOps.Z.frexp x in
    let x1 := (x1 * x1)%float in
    let xe := 2 * xe in
    let '(x1, xe) :=
      if PrimFloat.ltb x1 0.5 then ((x1 + x1)%float, xe - 1) else (x1, xe) in
    let a1 := (1 * x1)%float in
    let ae := 0 + xe in
    FloatOps.Z.ldexp a1 ae.

End float64.

(** ** Package collector *)

Module collector.

(** TimeStepData represents the data of a single time step. *)
Record TimeStepData : Type := {
  DateStart : time.Time;
  Value : float;
  Samples : Z
}.

(** MetricData contains all collected data for each metric of a site. *)
Record MetricData : Type := {
  Metric : string;
  Unit : string;
  Attributes : list string;
  AttributeData : gmap string (list TimeStepData)
}.

(** SiteData stores all the collected data of a given site. *)
Record SiteData : Type := {
  SiteId : string;
  SiteDateStart : time.Time;
  SiteDateEnd : time.Time;
  Metrics : list MetricData
}.

(** [metricData.AttributeData[attribute]]: a missing key reads as the nil
    slice. *)
Definition attributeData (m : MetricData) (attribute : string)
  : list TimeStepData :=
  default [] (AttributeData m !! attribute).

End collector.

(** ** Package config *)

Module config.

Record ThreeSigmasParams : Type := {
  OutliersMultiplier : float;
  StrongOutliersMultiplier : float
}.

Record DetectionMethodsParams : Type := {
  ThreeSigmas : ThreeSigmasParams
}.

(** The fields of Dataset that the analyser reads. *)
Record Dataset : Type := {
  SiteId : string;
  TimeAgo : string;
  TimeStep : string;
  OutliersDetectionMethod : string;
  MetricesList : list string
}.

End config.

(** ** Package analyser *)

Module analyser.

Import collector.

(** eventPeriod stores a period of time. *)
Record eventPeriod : Type := {
  outlierPeriodStart : time.Time;
  outlierPeriodEnd : time.Time
}.

(** OutlierEvent stores the warning or alarm details. *)
Record OutlierEvent : Type := {
  OutlierPeriodStart : time.Time;
  OutlierPeriodEnd : time.Time;
  EventMetric : string;
  EventAttribute : string
}.

(** OutlierResults holds the list of detected warnings and alarms. *)
Record OutlierResults : Type := {
  Warnings : list OutlierEvent;
  Alarms : list OutlierEvent
}.

(** OutlierReport stores all detected outliers of a given site. *)
Record OutlierReport : Type := {
  SiteId : string;
  OutliersDetectionMethod : string;
  CheckDateStart : time.Time;
  CheckDateEnd : time.Time;
  TimeAgo : string;
  TimeStep : string;
  DateStart : time.Time;
  DateEnd : time.Time;
  Result : OutlierResults
}.

(** [data[i]] on a slice: a panic outside [0 <= i < len(data)]. *)
Definition index (data : list TimeStepData) (i : Z) : option TimeStepData :=
  if i <? 0 then None else data !! Z.to_nat i.

(** *** The two statistics loops of detectOutliers3Sigmas *)

(** 1st loop: [for _, stepData := range data { sum += stepData.Value }]. *)
Fixpoint sumLoop (data : list TimeStepData) (sum : float) : float :=
  match data with
  | [] => sum
  | stepData :: rest => sumLoop rest (sum + collector.Value stepData)%float
  end.

(** 2nd loop:
    [for _, stepData := range data { sd += math.Pow(stepData.Value-mean, 2) }]. *)
Fixpoint sdLoop (mean : float) (data : list TimeStepData) (sd : float)
  : float :=
  match data with
  | [] => sd
  | stepData :: rest =>
      sdLoop mean rest
        (sd + float64.pow2 (collector.Value stepData - mean))%float
  end.

(** The mean and the standard deviation as the function computes them. *)
Definition baseline (data : list TimeStepData) : float * float :=
  let count := Z.of_nat (length data) in
  let sum := sumLoop data 0%float in
  let mean := (sum / float64.of_int count)%float in
  let sd := sdLoop mean data 0%float in
  let sd := PrimFloat.sqrt (sd / float64.of_int count)%float in
  (mean, sd).

(** *** The state of the 3rd loop *)

Record loopState : Type := {
  warnings : list eventPeriod;
  alarms : list eventPeriod;
  beginStep : Z;
  strongEvent : bool
}.

Definition initState : loopState :=
  {| warnings := []; alarms := []; beginStep := -1; strongEvent := false |}.

Section Detection.

Variable data : list TimeStepData.
Variables mean strongLimit weakLimit : float.

(** The event that closes the open period at sample [ind]:
    [eventPeriod{data[beginStep].DateStart, data[ind].DateStart}]. *)
Definition newEventAt (st : loopState) (ind : Z) : option eventPeriod :=
  b ← index data (beginStep st);
  x ← index data ind;
  Some {| outlierPeriodStart := collector.DateStart b;
          outlierPeriodEnd := collector.DateStart x |}.

(** Branch "Z-Score above alarm limit". *)
Definition onStrong (ind : Z) (st : loopState) : option loopState :=
  if beginStep st =? -1 then
    Some {| warnings := warnings st; alarms := alarms st;
            beginStep := ind; strongEvent := true |}
  else if negb (strongEvent st) then
    newEvent ← newEventAt st ind;
    Some {| warnings := warnings st ++ [newEvent]; alarms := alarms st;
            beginStep := ind; strongEvent := true |}
  else Some st.

(** Branch "Z-Score above warning limit". *)
Definition onWeak (ind : Z) (st : loopState) : option loopState :=
  if beginStep st =? -1 then
    Some {| warnings := warnings st; alarms := alarms st;
            beginStep := ind; strongEvent := false |}
  else if strongEvent st then
    newEvent ← newEventAt st ind;
    Some {| warnings := warnings st; alarms := alarms st ++ [newEvent];
            beginStep := ind; strongEvent := false |}
  else Some st.

(** Branch "Z-Score normal". *)
Definition onNormal (ind : Z) (st : loopState) : option loopState :=
  if negb (beginStep st =? -1) then
    newEvent ← newEventAt st ind;
    if strongEvent st then
      Some {| warnings := warnings st; alarms := alarms st ++ [newEvent];
              beginStep := -1; strongEvent := strongEvent st |}
    else
      Some {| warnings := warnings st ++ [newEvent]; alarms := alarms st;
              beginStep := -1; strongEvent := strongEvent st |}
  else Some st.

(** The body of the 3rd loop at index [ind]. *)
Definition body (ind : Z) (st : loopState) : option loopState :=
  x ← index data ind;
  if float64.gt (PrimFloat.abs (collector.Value x - mean)) strongLimit then
    onStrong ind st
  else if float64.gt (PrimFloat.abs (collector.Value x - mean)) weakLimit
  then onWeak ind st
  else onNormal ind st.

(** [n] iterations of [for ...; ind++] from index [ind]. *)
Fixpoint loop (n : nat) (ind : Z) (st : loopState) : option loopState :=
  match n with
  | O => Some st
  | S n' => st' ← body ind st; loop n' (ind + 1) st'
  end.

(** "Closing any detected event still open in the end of the loop". *)
Definition closeOpen (PeriodEnd : time.Time) (st : loopState)
  : option (list eventPeriod * list eventPeriod) :=
  if negb (beginStep st =? -1) then
    b ← index data (beginStep st);
    let newEvent := {| outlierPeriodStart := collector.DateStart b;
                       outlierPeriodEnd := PeriodEnd |} in
    if strongEvent st then Some (warnings st, alarms st ++ [newEvent])
    else Some (warnings st ++ [newEvent], alarms st)
  else Some (warnings st, alarms st).

End Detection.

(** detectOutliers3Sigmas implements the 3-sigmas method: it returns the
    detected warnings and alarms. *)
Definition detectOutliers3Sigmas (data : list TimeStepData)
    (PeriodEnd : time.Time)
    (outliersMultiplier strongOutliersMultiplier : float)
  : option (list eventPeriod * list eventPeriod) :=
  let '(mean, sd) := baseline data in
  let strongLimit := (strongOutliersMultiplier * sd)%float in
  let weakLimit := (outliersMultiplier * sd)%float in
  st ← loop data mean strongLimit weakLimit (length data) 0 initState;
  closeOpen data PeriodEnd st.

(** *** The report assembler *)

Definition newline : string := String (ascii_of_nat 10) EmptyString.

(** The line that [log.Printf("Detection Method %s not implemented\n", ...)]
    writes (the logger's date prefix is left out). *)
Definition notImplemented (method : string) : string :=
  "Detection Method " +:+ method +:+ " not implemented" +:+ newline.

(** A [for _, x := range l] loop over a state [S] whose body may panic. *)
Fixpoint forRange {A S : Type} (f : S -> A -> option S) (l : list A) (s : S)
  : option S :=
  match l with
  | [] => Some s
  | x :: rest => s' ← f s x; forRange f rest s'
  end.

(** [for _, p := range periods { events = append(events, OutlierEvent{...}) }]. *)
Definition appendEvents (metric attribute : string)
    (periods : list eventPeriod) (events : list OutlierEvent)
  : list OutlierEvent :=
  fold_left
    (fun events p =>
       events ++ [ {| OutlierPeriodStart := outlierPeriodStart p;
                      OutlierPeriodEnd := outlierPeriodEnd p;
                      EventMetric := metric;
                      EventAttribute := attribute |} ])
    periods events.

Definition setResult (res : OutlierReport) (r : OutlierResults)
  : OutlierReport :=
  {| SiteId := SiteId res;
     OutliersDetectionMethod := OutliersDetectionMethod res;
     CheckDateStart := CheckDateStart res;
     CheckDateEnd := CheckDateEnd res;
     TimeAgo := TimeAgo res;
     TimeStep := TimeStep res;
     DateStart := DateStart res;
     DateEnd := DateEnd res;
     Result := r |}.

Definition setCheckDateEnd (res : OutlierReport) (t : time.Time)
  : OutlierReport :=
  {| SiteId := SiteId res;
     OutliersDetectionMethod := OutliersDetectionMethod res;
     CheckDateStart := CheckDateStart res;
     CheckDateEnd := t;
     TimeAgo := TimeAgo res;
     TimeStep := TimeStep res;
     DateStart := DateStart res;
     DateEnd := DateEnd res;
     Result := Result res |}.

(** What GetResults threads through its loops: the report under
    construction and the lines written to the log so far. *)
Definition assembly : Type := (OutlierReport * list string)%type.

Section Assembler.

Variable siteData : collector.SiteData.
Variable methodParams : config.DetectionMethodsParams.

(** The body of the inner loop, for one attribute of [metricData]. *)
Definition perAttribute (metricData : MetricData) (acc : assembly)
    (attribute : string) : option assembly :=
  let '(res, logged) := acc in
  '(warnings, alarms, logged) ←
    (if String.eqb (OutliersDetectionMethod res) "3-sigmas" then
       '(warnings, alarms) ←
         detectOutliers3Sigmas
           (attributeData metricData attribute)
           (collector.SiteDateEnd siteData)
           (config.OutliersMultiplier (config.ThreeSigmas methodParams))
           (config.StrongOutliersMultiplier (config.ThreeSigmas methodParams));
       Some (warnings, alarms, logged)
     else
       Some ([], [],
             logged ++ [notImplemented (OutliersDetectionMethod res)]));
  Some (setResult res
          {| Warnings :=
               appendEvents (collector.Metric metricData) attribute warnings
                 (Warnings (Result res));
             Alarms :=
               appendEvents (collector.Metric metricData) attribute alarms
                 (Alarms (Result res)) |},
        logged).

(** The body of the outer loop, for one metric. *)
Definition perMetric (acc : assembly) (metricData : MetricData)
  : option assembly :=
  forRange (perAttribute metricData) (collector.Attributes metricData) acc.

End Assembler.

(** GetResults looks for outliers in the data of a site and returns the
    OutlierReport. [checkStart] and [checkEnd] are the two readings of
    [time.Now()]; the second component of the result is what was logged. *)
Definition GetResults (checkStart checkEnd : time.Time)
    (siteData : collector.SiteData) (dataConf : config.Dataset)
    (methodParams : config.DetectionMethodsParams) : option assembly :=
  let res :=
    {| SiteId := collector.SiteId siteData;
       OutliersDetectionMethod := config.OutliersDetectionMethod dataConf;
       CheckDateStart := checkStart;
       CheckDateEnd := 0;
       TimeAgo := config.TimeAgo dataConf;
       TimeStep := config.TimeStep dataConf;
       DateStart := collector.SiteDateStart siteData;
       DateEnd := collector.SiteDateEnd siteData;
       Result := {| Warnings := []; Alarms := [] |} |} in
  '(res, logged) ←
    forRange (perMetric siteData methodParams) (collector.Metrics siteData)
      (res, []);
  Some (setCheckDateEnd res checkEnd, logged).

End analyser.

(** ** Package encoding/json, on the types of the report *)

Module json.

#[local] Set Warnings "-register-all".

(** A JSON document; [Time t] is the quoted RFC 3339 text of [t]. *)
Inductive Value : Type :=
| Str (s : string)
| Time (t : time.Time)
| Arr (items : list Value)
| Obj (members : list (string * Value)).

(** The member names of an object, in the order they are written. *)
Definition names (v : Value) : list string :=
  match v with
  | Obj members => map fst members
  | _ => []
  end.

(** The member [name] of an object. *)
Definition member (name : string) (v : Value) : option Value :=
  match v with
  | Obj members =>
      snd <$> List.find (fun m => String.eqb (fst m) name) members
  | _ => None
  end.

(** [json.Marshal] of an OutlierEvent, by its struct tags. *)
Definition marshalOutlierEvent (e : analyser.OutlierEvent) : Value :=
  Obj [ ("outlierPeriodStart", Time (analyser.OutlierPeriodStart e));
        ("outlierPeriodEnd", Time (analyser.OutlierPeriodEnd e));
        ("metric", Str (analyser.EventMetric e));
        ("attribute", Str (analyser.EventAttribute e)) ].

(** [json.Marshal] of an OutlierResults, by its struct tags. *)
Definition marshalOutlierResults (r : analyser.OutlierResults) : Value :=
  Obj [ ("warnings", Arr (map marshalOutlierEvent (analyser.Warnings r)));
        ("alarms", Arr (map marshalOutlierEvent (analyser.Alarms r))) ].

(** [json.Marshal] of an OutlierReport, by its struct tags. *)
Definition marshalOutlierReport (r : analyser.OutlierReport) : Value :=
  Obj [ ("siteId", Str (analyser.SiteId r));
        ("outliersDetectionMethod", Str (analyser.OutliersDetectionMethod r));
        ("checkTimeStart", Time (analyser.CheckDateStart r));
        ("checkTimeEnd", Time (analyser.CheckDateEnd r));
        ("timeAgo", Str (analyser.TimeAgo r));
        ("timeStep", Str (analyser.TimeStep r));
        ("dateStart", Time (analyser.DateStart r));
        ("dateEnd", Time (analyser.DateEnd r));
        ("result", marshalOutlierResults (analyser.Result r)) ].

End json.

(** ** Package strconv *)

Module strconv.

Definition isDigit (c : ascii) : bool :=
  (48 <=? Z.of_nat (nat_of_ascii c)) && (Z.of_nat (nat_of_ascii c) <=? 57).

(** The value of a run of decimal digits; [None] on any other byte. *)
Fixpoint digits (s : string) (acc : Z) : option Z :=
  match s with
  | EmptyString => Some acc
  | String c rest =>
      if isDigit c then digits rest (10 * acc + (Z.of_nat (nat_of_ascii c) - 48))
      else None
  end.

(** [strconv.ParseInt(s, 10, 64)]: an optional sign and at least one
    decimal digit, the value within the int64 range; [None] is a non-nil
    error. *)
Definition ParseInt (s : string) : option Z :=
  let '(neg, body) :=
    match s with
    | String "+" rest => (false, rest)
    | String "-" rest => (true, rest)
    | _ => (false, s)
    end in
  match body with
  | EmptyString => None
  | _ =>
      v ← digits body 0;
      let v := if neg then - v else v in
      if (- 2 ^ 63 <=? v) && (v <? 2 ^ 63) then Some v else None
  end.

End strconv.

(** ** Package utils *)

Module utils.

(** The result of a call: a value with a nil error, a non-nil error, a
    run-time panic, or a loop cut short by the bound given to it. *)
Inductive outcome (A : Type) : Type :=
| Ret (a : A)
| Err (msg : string)
| Panic
| Cut.
Arguments Ret {A} a.
Arguments Err {A} msg.
Arguments Panic {A}.
Arguments Cut {A}.

#[local] Instance outcome_ret : MRet outcome := fun A a => Ret a.
#[local] Instance outcome_bind : MBind outcome := fun A B f m =>
  match m with
  | Ret a => f a
  | Err msg => Err msg
  | Panic => Panic
  | Cut => Cut
  end.

(** int64 arithmetic wraps around. *)
Definition wrap64 (z : Z) : Z := (z + 2 ^ 63) mod 2 ^ 64 - 2 ^ 63.

Definition Nanosecond : Z := 1.
Definition Microsecond : Z := 1000 * Nanosecond.
Definition Millisecond : Z := 1000 * Microsecond.
Definition Second : Z := 1000 * Millisecond.
Definition Minute : Z := 60 * Second.
Definition Hour : Z := 60 * Minute.

(** Duration values for each unit. *)
Definition unitMap : gmap string Z :=
  list_to_map
    [ ("ns", Nanosecond); ("us", Microsecond); ("ms", Millisecond);
      ("s", Second); ("m", Minute); ("h", Hour);
      ("d", wrap64 (Hour * 24)); ("w", wrap64 (Hour * 168)) ].

(** [v, ok := m[k]]: the zero value when the key is missing. *)
Definition lookup2 (m : gmap string Z) (k : string) : Z * bool :=
  match m !! k with
  | Some v => (v, true)
  | None => (0, false)
  end.

(** [s[i]] on a string: a panic outside [0 <= i < len(s)]. *)
Definition byteAt (s : string) (i : nat) : outcome ascii :=
  match String.get i s with
  | Some c => Ret c
  | None => Panic
  end.

(** [s[lo:hi]] on a string: a panic unless [lo <= hi <= len(s)]. *)
Definition slice (s : string) (lo hi : nat) : outcome string :=
  if (lo <=? hi)%nat && (hi <=? String.length s)%nat
  then Ret (String.substring lo (hi - lo) s)
  else Panic.

Definition quote : string := String (ascii_of_nat 34) EmptyString.

(** [fmt.Errorf("time: invalid duration \"%s\"", timeStep)]. *)
Definition invalidDuration (timeStep : string) : string :=
  "time: invalid duration " +:+ quote +:+ timeStep +:+ quote.

Section StrToDuration.

Variable timeStep : string.

(** "Starts a 2nd loop while digits are detected": from index [i], at most
    [fuel] iterations. *)
Fixpoint scanDigits (fuel : nat) (i : nat) : outcome nat :=
  match fuel with
  | O => Cut
  | S fuel' =>
      c ← byteAt timeStep i;
      if strconv.isDigit c then
        let i := S i in
        if (i =? String.length timeStep)%nat
        then Err (invalidDuration timeStep)
        else scanDigits fuel' i
      else Ret i
  end.

(** The outer loop [for index < len(timeStep)], at most [fuel] iterations. *)
Fixpoint parseLoop (fuel : nat) (index : nat) (res : Z) : outcome Z :=
  match fuel with
  | O => Cut
  | S fuel' =>
      if (index <? String.length timeStep)%nat then
        i ← scanDigits (String.length timeStep) index;
        numStr ← slice timeStep index i;
        match strconv.ParseInt numStr with
        | None => Err (invalidDuration timeStep)
        | Some num =>
            unit1 ← slice timeStep i (i + 1);
            let '(multiplier, present) := lookup2 unitMap unit1 in
            let i := S i in
            '(multiplier, present, i) ←
              (if negb present && (i <? String.length timeStep)%nat then
                 unit2 ← slice timeStep (i - 1) (i + 1);
                 let '(multiplier, present) := lookup2 unitMap unit2 in
                 Ret (multiplier, present, S i)
               else Ret (multiplier, present, i));
            if negb present then Err (invalidDuration timeStep)
            else parseLoop fuel' i (wrap64 (res + wrap64 (num * multiplier)))
        end
      else Ret res
  end.

End StrToDuration.

(** StrToDuration is similar to time.ParseDuration() but also supports days
    "d" and weeks "w". Every pass of the outer loop moves [index] forward,
    so [len(timeStep)] passes and the last test are enough. *)
Definition StrToDuration (timeStep : string) : outcome Z :=
  if (String.length timeStep =? 0)%nat then Err (invalidDuration timeStep)
  else parseLoop timeStep (S (String.length timeStep)) 0 0.

End utils.

(** ** The detector as the specification words it

    Sections 4.2 and 4.3 of the specification: the threshold classifier and
    the transition table of the event-period state machine. These
    definitions follow the specification; the theorems below compare them
    with [analyser.detectOutliers3Sigmas]. *)

Module spec.

Import analyser.

Inductive Class : Type := NORMAL | WEAK | STRONG.

Inductive Severity : Type := Warning | Alarm.

(** The state of the machine: no period open, or a weak or a strong period
    open since index [i]. *)
Inductive Open : Type :=
| NoneOpen
| WeakOpen (i : Z)
| StrongOpen (i : Z).

(** Section 4.2: STRONG is tested first, both tests are strict. *)
Definition classify (mean strongLimit weakLimit v : float) : Class :=
  if float64.gt (PrimFloat.abs (v - mean)) strongLimit then STRONG
  else if float64.gt (PrimFloat.abs (v - mean)) weakLimit then WEAK
  else NORMAL.

(** Section 4.3, the transition table: for the current state and the
    classification of the sample at index [i], the period that is closed
    (its severity and the index it was opened at) and the next state. *)
Definition table (s : Open) (c : Class) (i : Z)
  : option (Severity * Z) * Open :=
  match s, c with
  | NoneOpen, NORMAL => (None, NoneOpen)
  | NoneOpen, WEAK => (None, WeakOpen i)
  | NoneOpen, STRONG => (None, StrongOpen i)
  | WeakOpen b, WEAK => (None, WeakOpen b)
  | WeakOpen b, STRONG => (Some (Warning, b), StrongOpen i)
  | WeakOpen b, NORMAL => (Some (Warning, b), NoneOpen)
  | StrongOpen b, STRONG => (None, StrongOpen b)
  | StrongOpen b, WEAK => (Some (Alarm, b), WeakOpen i)
  | StrongOpen b, NORMAL => (Some (Alarm, b), NoneOpen)
  end.

(** The machine with the two lists of closed periods. *)
Record machine : Type := {
  open : Open;
  closedWarnings : list eventPeriod;
  closedAlarms : list eventPeriod
}.

Definition start : machine :=
  {| open := NoneOpen; closedWarnings := []; closedAlarms := [] |}.

Section Machine.

Variable data : list collector.TimeStepData.
Variables mean strongLimit weakLimit : float.

(** The timestamp [t_i] of the sample at index [i]. *)
Definition tsAt (i : Z) : time.Time :=
  from_option collector.DateStart 0 (index data i).

(** The classification of the sample at index [i]. *)
Definition classAt (i : Z) : Class :=
  from_option
    (fun x => classify mean strongLimit weakLimit (collector.Value x))
    NORMAL (index data i).

(** Close the period opened at [b] with the given end, as a warning or as
    an alarm. *)
Definition close (m : machine) (sev : Severity) (b : Z) (endT : time.Time)
    (next : Open) : machine :=
  let p := {| outlierPeriodStart := tsAt b; outlierPeriodEnd := endT |} in
  match sev with
  | Warning => {| open := next; closedWarnings := closedWarnings m ++ [p];
                  closedAlarms := closedAlarms m |}
  | Alarm => {| open := next; closedWarnings := closedWarnings m;
                closedAlarms := closedAlarms m ++ [p] |}
  end.

(** One row of the table, applied at index [i]. *)
Definition step (i : Z) (m : machine) : machine :=
  match table (open m) (classAt i) i with
  | (None, next) =>
      {| open := next; closedWarnings := closedWarnings m;
         closedAlarms := closedAlarms m |}
  | (Some (sev, b), next) => close m sev b (tsAt i) next
  end.

(** The pass over the samples [i, i + n). *)
Fixpoint run (n : nat) (i : Z) (m : machine) : machine :=
  match n with
  | O => m
  | S n' => run n' (i + 1) (step i m)
  end.

(** After the pass, a period still open is closed at the boundary. *)
Definition finish (seriesEndBoundary : time.Time) (m : machine)
  : list eventPeriod * list eventPeriod :=
  match open m with
  | NoneOpen => (closedWarnings m, closedAlarms m)
  | WeakOpen b =>
      let m' := close m Warning b seriesEndBoundary NoneOpen in
      (closedWarnings m', closedAlarms m')
  | StrongOpen b =>
      let m' := close m Alarm b seriesEndBoundary NoneOpen in
      (closedWarnings m', closedAlarms m')
  end.

(** *** Runs of equally classified samples *)

(** Every sample of [b, i) is classified [c]. *)
Definition runOf (c : Class) (b i : Z) : Prop :=
  forall j, b <= j < i -> classAt j = c.

(** A run of class [c] starts at [b]: the sample at [b] is an outlier of
    class [c] and the sample before it, if any, is not. *)
Definition opensAt (c : Class) (b : Z) : Prop :=
  c <> NORMAL /\ classAt b = c /\ (b = 0 \/ classAt (b - 1) <> c).

(** [p] is the period of a run of class [c] that the sample at a later
    index [i] ended: it starts at the timestamp of the first sample of the
    run and ends at the timestamp of the sample at [i]. *)
Definition interiorClose (c : Class) (p : eventPeriod) : Prop :=
  exists b i xb xi,
    index data b = Some xb /\ index data i = Some xi /\ b < i /\
    opensAt c b /\ runOf c b i /\ classAt i <> c /\
    p = {| outlierPeriodStart := collector.DateStart xb;
           outlierPeriodEnd := collector.DateStart xi |}.

(** [p] is the period of a run of class [c] that reaches the last sample:
    it ends at the boundary. *)
Definition finalClose (PeriodEnd : time.Time) (c : Class) (p : eventPeriod)
  : Prop :=
  exists b xb,
    index data b = Some xb /\ opensAt c b /\
    runOf c b (Z.of_nat (length data)) /\
    p = {| outlierPeriodStart := collector.DateStart xb;
           outlierPeriodEnd := PeriodEnd |}.

End Machine.

(** The specification's detector: the baseline, the limits, the pass and
    the final close. *)
Definition detect (data : list collector.TimeStepData)
    (seriesEndBoundary : time.Time) (weakMultiplier strongMultiplier : float)
  : list eventPeriod * list eventPeriod :=
  let '(mean, stddev) := baseline data in
  let strongLimit := (strongMultiplier * stddev)%float in
  let weakLimit := (weakMultiplier * stddev)%float in
  finish data seriesEndBoundary
    (run data mean strongLimit weakLimit (length data) 0 start).

(** *** The baseline, section 4.1 *)

(** The sum of the terms, taken in series order from 0. *)
Definition Sigma (terms : list float) : float :=
  fold_left PrimFloat.add terms 0%float.

(** [mean = Σvalue / N]. *)
Definition mean (data : list collector.TimeStepData) : float :=
  (Sigma (map collector.Value data)
   / float64.of_int (Z.of_nat (length data)))%float.

(** [stddev = sqrt(Σ(value-mean)² / N)], the divisor is [N]. *)
Definition stddev (data : list collector.TimeStepData) : float :=
  PrimFloat.sqrt
    (Sigma (map (fun x => float64.pow2 (collector.Value x - mean data))
              data)
     / float64.of_int (Z.of_nat (length data)))%float.

(** The same with the divisor [N - 1] of the sample standard deviation. *)
Definition sampleStddev (data : list collector.TimeStepData) : float :=
  PrimFloat.sqrt
    (Sigma (map (fun x => float64.pow2 (collector.Value x - mean data))
              data)
     / float64.of_int (Z.of_nat (length data) - 1))%float.

(** *** Periods as intervals *)

(** The ranges [start, end) of [p] and [q] do not meet. *)
Definition disjoint (p q : eventPeriod) : Prop :=
  outlierPeriodEnd p <= outlierPeriodStart q \/
  outlierPeriodEnd q <= outlierPeriodStart p.

Definition startsBefore (p q : eventPeriod) : Prop :=
  outlierPeriodStart p <= outlierPeriodStart q.

Definition wellFormed (p : eventPeriod) : Prop :=
  outlierPeriodStart p <= outlierPeriodEnd p.

Definition within (lo hi : time.Time) (p : eventPeriod) : Prop :=
  lo <= outlierPeriodStart p /\ outlierPeriodEnd p <= hi.

(** The sample timestamps are strictly increasing. *)
Definition increasing (data : list collector.TimeStepData) : Prop :=
  forall i j x y,
    i < j -> index data i = Some x -> index data j = Some y ->
    collector.DateStart x < collector.DateStart y.

(** Every sample timestamp lies in [lo, hi]. *)
Definition samplesWithin (lo hi : time.Time)
    (data : list collector.TimeStepData) : Prop :=
  forall i x, index data i = Some x ->
    lo <= collector.DateStart x <= hi.

(** Any two periods at different positions of [l] are disjoint. *)
Definition pairwiseDisjoint (l : list eventPeriod) : Prop :=
  forall i j p q,
    i <> j -> l !! i = Some p -> l !! j = Some q -> disjoint p q.

End spec.

(** ** The data of TestDetectOutliers3Sigmas *)

Module testdata.

Definition values : list float :=
  [221; 254; 270; 264; 244; 241; 238; 243; 277; 237; 254; 289; 278; 264; 265;
   243; 284; 244; 212; 242; 271; 243; 252; 230; 238; 214; 234; 1027; 1057;
   911]%float.

(** The series the test builds from [values]: sample [i] starts at
    [dateStart i] and counts 100 visits. *)
Definition series (dateStart : nat -> time.Time) (values : list float)
  : list collector.TimeStepData :=
  imap (fun i val => {| collector.DateStart := dateStart i;
                        collector.Value := val;
                        collector.Samples := 100 |}) values.

End testdata.

(** ** The report as the specification's data model words it *)

Module datamodel.

(** Section 3, OutlierReport: the field names of the specification. *)
Definition reportFieldNames : list string :=
  [ "siteId"; "methodName"; "checkStart"; "checkEnd"; "timeAgo"; "timeStep";
    "seriesStart"; "seriesEnd"; "warnings"; "alarms" ].

(** The report of a site without metrics. *)
Definition emptySite : collector.SiteData :=
  {| collector.SiteId := "site-1";
     collector.SiteDateStart := 0;
     collector.SiteDateEnd := 30;
     collector.Metrics := [] |}.

(** A site with one metric and its "Total" series, the reference data. *)
Definition site : collector.SiteData :=
  {| collector.SiteId := "site-1";
     collector.SiteDateStart := 0;
     collector.SiteDateEnd := 30;
     collector.Metrics :=
       [ {| collector.Metric := "visits"; collector.Unit := "count";
            collector.Attributes := ["Total"];
            collector.AttributeData :=
              {[ "Total" := testdata.series Z.of_nat testdata.values ]} |} ]
  |}.

Definition dataset (method : string) : config.Dataset :=
  {| config.SiteId := "site-1";
     config.TimeAgo := "30d";
     config.TimeStep := "1d";
     config.OutliersDetectionMethod := method;
     config.MetricesList := [] |}.

Definition params : config.DetectionMethodsParams :=
  {| config.ThreeSigmas :=
       {| config.OutliersMultiplier := 2;
          config.StrongOutliersMultiplier := 3 |} |}.

End datamodel.

(** ** How the loop state of the code relates to the machine *)

Module sim.

Import analyser.

(** The machine state that a loop state stands for: [strongEvent] only
    matters while a period is open. *)
Definition abstract (st : loopState) : spec.Open :=
  if beginStep st =? -1 then spec.NoneOpen
  else if strongEvent st then spec.StrongOpen (beginStep st)
  else spec.WeakOpen (beginStep st).

Definition refines (st : loopState) (m : spec.machine) : Prop :=
  warnings st = spec.closedWarnings m /\
  alarms st = spec.closedAlarms m /\
  abstract st = spec.open m.

(** The open index, if any, is an index below [bound]. *)
Definition openBelow (bound : Z) (s : spec.Open) : Prop :=
  match s with
  | spec.NoneOpen => True
  | spec.WeakOpen b | spec.StrongOpen b => 0 <= b < bound
  end.

End sim.

(** ** Invariants of the pass *)

Module inv.

Import analyser.

Section Runs.

Variable data : list collector.TimeStepData.
Variables mean strongLimit weakLimit : float.

(** Before the sample at [ind]: every closed warning (alarm) is the period
    of a weak (strong) run ended by a later sample, and the open period, if
    any, is a run that started at its recorded index and reaches [ind]. *)
Definition runs (ind : Z) (m : spec.machine) : Prop :=
  Forall (spec.interiorClose data mean strongLimit weakLimit spec.WEAK)
    (spec.closedWarnings m) /\
  Forall (spec.interiorClose data mean strongLimit weakLimit spec.STRONG)
    (spec.closedAlarms m) /\
  match spec.open m with
  | spec.NoneOpen =>
      ind = 0 \/
      spec.classAt data mean strongLimit weakLimit (ind - 1) = spec.NORMAL
  | spec.WeakOpen b =>
      0 <= b < ind /\
      spec.opensAt data mean strongLimit weakLimit spec.WEAK b /\
      spec.runOf data mean strongLimit weakLimit spec.WEAK b ind
  | spec.StrongOpen b =>
      0 <= b < ind /\
      spec.opensAt data mean strongLimit weakLimit spec.STRONG b /\
      spec.runOf data mean strongLimit weakLimit spec.STRONG b ind
  end.

(** The list that the periods of class [c] are closed into. *)
Definition closedOf (c : spec.Class) (m : spec.machine) : list eventPeriod :=
  match c with
  | spec.WEAK => spec.closedWarnings m
  | spec.STRONG => spec.closedAlarms m
  | spec.NORMAL => []
  end.

(** Before the sample at [ind]: every run of equally classified outliers
    that an earlier sample ended has its period in the list of its
    class. *)
Definition closes (ind : Z) (m : spec.machine) : Prop :=
  forall c b i,
    0 <= b < i -> i < ind ->
    spec.opensAt data mean strongLimit weakLimit c b ->
    spec.runOf data mean strongLimit weakLimit c b i ->
    spec.classAt data mean strongLimit weakLimit i <> c ->
    {| outlierPeriodStart := spec.tsAt data b;
       outlierPeriodEnd := spec.tsAt data i |} ∈ closedOf c m.

End Runs.

(** Each period of [l] ends before the later ones start. *)
Definition chained (l : list eventPeriod) : Prop :=
  forall i j p q,
    (i < j)%nat -> l !! i = Some p -> l !! j = Some q ->
    outlierPeriodEnd p <= outlierPeriodStart q.

(** Every warning is disjoint from every alarm. *)
Definition apart (ws als : list eventPeriod) : Prop :=
  forall p q, p ∈ ws -> q ∈ als -> spec.disjoint p q.

(** The index from which the samples are not yet covered by a closed
    period. *)
Definition uncovered (ind : Z) (s : spec.Open) : Z :=
  match s with
  | spec.NoneOpen => ind
  | spec.WeakOpen b | spec.StrongOpen b => b
  end.

(** Before the sample at [ind], with the frontier [F]: the closed periods
    are non-empty ranges within [lo, hi] that end at or before [F], each
    list is chained, warnings and alarms are apart, and no uncovered sample
    is earlier than [F]. *)
Definition ordered (data : list collector.TimeStepData)
    (lo hi : time.Time) (ind : Z) (m : spec.machine) : Prop :=
  exists F : time.Time,
    Forall (fun p => lo <= outlierPeriodStart p /\
                     outlierPeriodStart p < outlierPeriodEnd p /\
                     outlierPeriodEnd p <= F /\
                     outlierPeriodEnd p <= hi)
      (spec.closedWarnings m ++ spec.closedAlarms m) /\
    chained (spec.closedWarnings m) /\
    chained (spec.closedAlarms m) /\
    apart (spec.closedWarnings m) (spec.closedAlarms m) /\
    (forall j x,
       uncovered ind (spec.open m) <= j -> index data j = Some x ->
       F <= collector.DateStart x) /\
    sim.openBelow ind (spec.open m).

End inv.

(** ** The report of the 3-sigmas method as a function of the site data *)

Module report.

Import analyser.

(** The two lists that detectOutliers3Sigmas returns; the two empty lists
    stand for a panic. *)
Definition periods (data : list collector.TimeStepData)
    (PeriodEnd : time.Time)
    (outliersMultiplier strongOutliersMultiplier : float)
  : list eventPeriod * list eventPeriod :=
  default ([], [])
    (detectOutliers3Sigmas data PeriodEnd outliersMultiplier
       strongOutliersMultiplier).

(** The event that GetResults makes of a period. *)
Definition label (metric attribute : string) (p : eventPeriod)
  : OutlierEvent :=
  {| OutlierPeriodStart := outlierPeriodStart p;
     OutlierPeriodEnd := outlierPeriodEnd p;
     EventMetric := metric;
     EventAttribute := attribute |}.

(** The labelled periods of every attribute of every metric, in the order
    of the site data; [pick] selects the warnings or the alarms. *)
Definition events
    (pick : list eventPeriod * list eventPeriod -> list eventPeriod)
    (siteData : collector.SiteData)
    (methodParams : config.DetectionMethodsParams) : list OutlierEvent :=
  flat_map
    (fun metricData =>
       flat_map
         (fun attribute =>
            map (label (collector.Metric metricData) attribute)
              (pick
                 (periods (collector.attributeData metricData attribute)
                    (collector.SiteDateEnd siteData)
                    (config.OutliersMultiplier
                       (config.ThreeSigmas methodParams))
                    (config.StrongOutliersMultiplier
                       (config.ThreeSigmas methodParams)))))
         (collector.Attributes metricData))
    (collector.Metrics siteData).

(** Every series that the site lists is in time order and inside the
    collection window of the site. *)
Definition wellTimed (siteData : collector.SiteData) : Prop :=
  forall metricData attribute,
    metricData ∈ collector.Metrics siteData ->
    attribute ∈ collector.Attributes metricData ->
    spec.increasing (collector.attributeData metricData attribute) /\
    spec.samplesWithin (collector.SiteDateStart siteData)
      (collector.SiteDateEnd siteData)
      (collector.attributeData metricData attribute).

(** The event lies in the window and names a metric and an attribute of
    the site. *)
Definition eventOf (siteData : collector.SiteData) (e : OutlierEvent)
  : Prop :=
  collector.SiteDateStart siteData <= OutlierPeriodStart e /\
  OutlierPeriodStart e <= OutlierPeriodEnd e /\
  OutlierPeriodEnd e <= collector.SiteDateEnd siteData /\
  exists metricData,
    metricData ∈ collector.Metrics siteData /\
    EventMetric e = collector.Metric metricData /\
    EventAttribute e ∈ collector.Attributes metricData.

(** The report under construction with more events at the end of its two
    lists. *)
Definition withEvents (res : OutlierReport) (ws als : list OutlierEvent)
  : OutlierReport :=
  setResult res
    {| Warnings := Warnings (Result res) ++ ws;
       Alarms := Alarms (Result res) ++ als |}.

End report.

(** ** Which period an outlier sample belongs to *)

Module cover.

Import analyser.

Section Cover.

Variable data : list collector.TimeStepData.
Variables mean strongLimit weakLimit : float.

(** The sample at [i] lies in the run of class [c] that [p] was closed
    for during the pass: the run starts at an index [b <= i], where [p]
    starts, and the first sample after it, at an index [e > i], is where
    [p] ends. *)
Definition inClosed (c : spec.Class) (i : Z) (p : eventPeriod) : Prop :=
  exists b e xb xe,
    index data b = Some xb /\ index data e = Some xe /\ b <= i < e /\
    spec.runOf data mean strongLimit weakLimit c b e /\
    p = {| outlierPeriodStart := collector.DateStart xb;
           outlierPeriodEnd := collector.DateStart xe |}.

(** The sample at [i] lies in the run of class [c] that reaches the last
    sample, and [p] is the period of that run, closed at the boundary. *)
Definition inLast (PeriodEnd : time.Time) (c : spec.Class) (i : Z)
    (p : eventPeriod) : Prop :=
  exists b xb,
    index data b = Some xb /\ b <= i /\
    spec.runOf data mean strongLimit weakLimit c b
      (Z.of_nat (length data)) /\
    p = {| outlierPeriodStart := collector.DateStart xb;
           outlierPeriodEnd := PeriodEnd |}.

(** The list that periods of class [c] are closed into. *)
Definition listOf (c : spec.Class) (ws als : list eventPeriod)
  : list eventPeriod :=
  match c with
  | spec.WEAK => ws
  | spec.STRONG => als
  | spec.NORMAL => []
  end.

(** The index since which a period of class [c] is open. *)
Definition openFrom (c : spec.Class) (s : spec.Open) : option Z :=
  match c, s with
  | spec.WEAK, spec.WeakOpen b => Some b
  | spec.STRONG, spec.StrongOpen b => Some b
  | _, _ => None
  end.

(** Before the sample at [ind], every outlier sample seen so far lies in
    a closed period of its class or in the open period. *)
Definition complete (ind : Z) (m : spec.machine) : Prop :=
  forall i,
    0 <= i < ind ->
    spec.classAt data mean strongLimit weakLimit i <> spec.NORMAL ->
    (exists p,
       p ∈ listOf (spec.classAt data mean strongLimit weakLimit i)
             (spec.closedWarnings m) (spec.closedAlarms m) /\
       inClosed (spec.classAt data mean strongLimit weakLimit i) i p) \/
    (exists b,
       openFrom (spec.classAt data mean strongLimit weakLimit i)
         (spec.open m) = Some b /\ b <= i).

End Cover.

End cover.

(** ** The duration strings that StrToDuration accepts *)

Module duration.

(** The units that can be reached in [utils.unitMap]. *)
Inductive Unit : Type := Uns | Uus | Us | Um | Uh | Ud | Uw.

Definition unitName (u : Unit) : string :=
  match u with
  | Uns => "ns" | Uus => "us" | Us => "s" | Um => "m"
  | Uh => "h" | Ud => "d" | Uw => "w"
  end.

Definition unitValue (u : Unit) : Z :=
  match u with
  | Uns => utils.Nanosecond
  | Uus => utils.Microsecond
  | Us => utils.Second
  | Um => utils.Minute
  | Uh => utils.Hour
  | Ud => utils.Hour * 24
  | Uw => utils.Hour * 168
  end.

Fixpoint allDigits (s : string) : bool :=
  match s with
  | EmptyString => true
  | String c rest => strconv.isDigit c && allDigits rest
  end.

(** The value of a string of decimal digits. *)
Definition number (n : string) : Z := default 0 (strconv.digits n 0).

(** A number and its unit: at least one digit, only digits, and a value
    that fits an int64. *)
Definition wellFormed (p : string * Unit) : Prop :=
  p.1 <> EmptyString /\ allDigits p.1 = true /\ number p.1 < 2 ^ 63.

(** The text of a sequence of <number><unit> pairs. *)
Fixpoint render (ps : list (string * Unit)) : string :=
  match ps with
  | [] => EmptyString
  | (n, u) :: rest => n +:+ unitName u +:+ render rest
  end.

(** The sum of number times unit over the pairs, from [res], in int64
    arithmetic. *)
Fixpoint total (ps : list (string * Unit)) (res : Z) : Z :=
  match ps with
  | [] => res
  | (n, u) :: rest =>
      total rest (utils.wrap64 (res + utils.wrap64 (number n * unitValue u)))
  end.

End duration.

(** ** The unit that StrToDuration reads at a position *)

Module unitscan.

(** The unit whose name is found at index [i] of [s]: a one-byte name, or
    else one of the two-byte names "ns" and "us". *)
Definition unitAt (s : string) (i : nat) : option duration.Unit :=
  let k1 := String.substring i 1 s in
  let k2 := String.substring i 2 s in
  if String.eqb k1 "s" then Some duration.Us
  else if String.eqb k1 "m" then Some duration.Um
  else if String.eqb k1 "h" then Some duration.Uh
  else if String.eqb k1 "d" then Some duration.Ud
  else if String.eqb k1 "w" then Some duration.Uw
  else if String.eqb k2 "ns" then Some duration.Uns
  else if String.eqb k2 "us" then Some duration.Uus
  else None.

(** What one pass of the outer loop does once the digits from [index] to
    [i] are scanned: the number must be non-empty and fit an int64, a unit
    must follow, and the loop goes on after the unit. *)
Definition pass (s : string) (index i : nat) (res : Z)
    (continue : nat -> Z -> utils.outcome Z) : utils.outcome Z :=
  let n := String.substring index (i - index) s in
  match n with
  | EmptyString => utils.Err (utils.invalidDuration s)
  | _ =>
      if duration.number n <? 2 ^ 63 then
        match unitAt s i with
        | Some u =>
            continue (i + String.length (duration.unitName u))%nat
              (utils.wrap64
                 (res + utils.wrap64 (duration.number n * duration.unitValue u)))
        | None => utils.Err (utils.invalidDuration s)
        end
      else utils.Err (utils.invalidDuration s)
  end.

End unitscan.

(** ** Package strings of Go, for a separator of one byte *)

From stdpp Require Import pretty.

#[local] Open Scope Z_scope.

Module gostrings.

(** [strings.Count(s, sep)]: the number of bytes of [s] equal to [sep]. *)
Fixpoint Count (s : string) (sep : ascii) : Z :=
  match s with
  | EmptyString => 0
  | String c rest => (if Ascii.eqb c sep then 1 else 0) + Count rest sep
  end.

(** [strings.Split(s, sep)]: the pieces of [s] between the bytes equal to
    [sep]; one piece, [s] itself, when there is none. *)
Fixpoint Split (s : string) (sep : ascii) : list string :=
  match s with
  | EmptyString => [EmptyString]
  | String c rest =>
      if Ascii.eqb c sep then EmptyString :: Split rest sep
      else match Split rest sep with
           | piece :: pieces => String c piece :: pieces
           | [] => [String c EmptyString]
           end
  end.

(** [strings.Join(parts, sep)]. *)
Fixpoint Join (parts : list string) (sep : string) : string :=
  match parts with
  | [] => EmptyString
  | [part] => part
  | part :: rest => part +:+ sep +:+ Join rest sep
  end.

(** [strings.HasPrefix(s, prefix)]. *)
Definition HasPrefix (s prefix : string) : bool := String.prefix prefix s.

End gostrings.

(** ** Package config: the collection filters *)

Module filters.

(** FilterParams: the maximum depth of an attribute (0 for all) and the
    number of top sub-attributes to keep (0 for all). *)
Record FilterParams : Type := {
  Level : Z;
  Top : Z
}.

Record CollectFilters : Type := {
  MinVisitorsPerTimeStep : Z;
  AttributesFilterParams : gmap string FilterParams
}.

(** [collectFilters.AttributesFilterParams[name]]: a missing key reads as
    the zero FilterParams. *)
Definition paramsOf (collectFilters : CollectFilters) (name : string)
  : FilterParams :=
  default {| Level := 0; Top := 0 |}
    (AttributesFilterParams collectFilters !! name).

End filters.

(** ** Package collector: sample counts, levels, ranks and the filter *)

Module collecting.

Import collector.

(** 1st loop of GetSamplesCount, on [int] of 64 bits. *)
Fixpoint samplesLoop (data : list TimeStepData) (sum : Z) : Z :=
  match data with
  | [] => sum
  | stepData :: rest =>
      samplesLoop rest (utils.wrap64 (sum + Samples stepData))
  end.

(** GetSamplesCount returns the total samples count of an attribute. *)
Definition GetSamplesCount (metricData : MetricData) (attribute : string)
  : Z :=
  samplesLoop (attributeData metricData attribute) 0.

(** GetLevel returns the depth of an attribute. *)
Definition GetLevel (attribute : string) : Z :=
  gostrings.Count attribute ">".

(** The path of the parent of an attribute:
    [strings.Join(pathParts[:len(pathParts)-1], ">")]. *)
Definition parentPath (attribute : string) : string :=
  let pathParts := gostrings.Split attribute ">" in
  if (0 <? length pathParts)%nat
  then gostrings.Join (take (length pathParts - 1) pathParts) ">"
  else EmptyString.

(** The test of the loop of GetRank: [compareAttribute] counts against
    [attribute]. *)
Definition outranks (metricData : MetricData) (attribute : string)
    (compareAttribute : string) : bool :=
  let prefix := parentPath attribute in
  let attributeSamples := GetSamplesCount metricData attribute in
  let compareAttributeSamples :=
    GetSamplesCount metricData compareAttribute in
  negb (String.eqb compareAttribute attribute) &&
  negb (String.eqb compareAttribute prefix) &&
  gostrings.HasPrefix compareAttribute prefix &&
  ((attributeSamples <? compareAttributeSamples) ||
   ((compareAttributeSamples =? attributeSamples) &&
    String.ltb compareAttribute attribute)).

(** GetRank returns the rank of an attribute among its peers, from the
    higher to the lower number of samples and by name for equal numbers. *)
Definition GetRank (metricData : MetricData) (attribute : string) : Z :=
  fold_left
    (fun rank compareAttribute =>
       if outranks metricData attribute compareAttribute then rank + 1
       else rank)
    (Attributes metricData) 1.

(** The lines that filterData logs. *)
Definition logLevel (attribute : string) (level limit : Z) : string :=
  "Filtering " +:+ attribute +:+ " - Level " +:+ pretty level +:+
  " higher than limit " +:+ pretty limit +:+ analyser.newline.

Definition logRank (attribute : string) (rank top : Z) : string :=
  "Filtering " +:+ attribute +:+ " - Rank " +:+ pretty rank +:+
  " not in top " +:+ pretty top +:+ analyser.newline.

Definition logSamples (attribute : string) (samples minSamples : Z)
  : string :=
  "Filtering " +:+ attribute +:+ " - Samples " +:+ pretty samples +:+
  " less than min " +:+ pretty minSamples +:+ analyser.newline.

(** [log.Printf(line); toRemove[ind] = true], a panic when [ind] is out of
    range. *)
Definition mark (ind : nat) (line : string)
    (st : list bool * list string) : option (list bool * list string) :=
  if (ind <? length st.1)%nat
  then Some (<[ind := true]> st.1, st.2 ++ [line])
  else None.

Section FilterData.

Variable metricData : MetricData.
Variable collectFilters : filters.CollectFilters.

(** "Calculating total minimum samples for the given period". *)
Definition minSamples : Z :=
  utils.wrap64
    (filters.MinVisitorsPerTimeStep collectFilters *
     Z.of_nat (length (attributeData metricData "Total"))).

(** The body of the 1st loop of filterData. *)
Definition check (ind : nat) (attribute : string)
    (st : list bool * list string) : option (list bool * list string) :=
  let samples := GetSamplesCount metricData attribute in
  let level := GetLevel attribute in
  let rank := GetRank metricData attribute in
  let pathParts := gostrings.Split attribute ">" in
  name ← pathParts !! 0%nat;
  let params := filters.paramsOf collectFilters name in
  st ← (if negb (filters.Level params =? 0) &&
           (filters.Level params <? level)
        then mark ind (logLevel attribute level (filters.Level params)) st
        else Some st);
  st ← (if negb (filters.Level params =? 0) &&
           (filters.Level params =? level) &&
           negb (filters.Top params =? 0) &&
           (filters.Top params <? rank)
        then mark ind (logRank attribute rank (filters.Top params)) st
        else Some st);
  if samples <? minSamples
  then mark ind (logSamples attribute samples minSamples) st
  else Some st.

(** The 1st loop, [for ind, attribute := range metricData.Attributes]. *)
Fixpoint checkLoop (attributes : list string) (ind : nat)
    (st : list bool * list string) : option (list bool * list string) :=
  match attributes with
  | [] => Some st
  | attribute :: rest =>
      st' ← check ind attribute st; checkLoop rest (S ind) st'
  end.

Variable toRemove : list bool.

(** The body of the 2nd loop, on the attribute list and the data map. *)
Definition remove (ind : nat)
    (st : list string * gmap string (list TimeStepData))
  : option (list string * gmap string (list TimeStepData)) :=
  flag ← toRemove !! ind;
  if flag : bool then
    attribute ← st.1 !! ind;
    let data := delete attribute st.2 in
    if (ind =? length st.1 - 1)%nat
    then Some (take ind st.1, data)
    else Some (take ind st.1 ++ drop (ind + 1) st.1, data)
  else Some st.

(** The 2nd loop, [for ind := n - 1; ind >= 0; ind--]. *)
Fixpoint removeLoop (n : nat)
    (st : list string * gmap string (list TimeStepData))
  : option (list string * gmap string (list TimeStepData)) :=
  match n with
  | O => Some st
  | S ind => st' ← remove ind st; removeLoop ind st'
  end.

End FilterData.

(** filterData removes the attributes that do not meet the configured
    filters; the second component is what was logged. The result is the
    returned MetricData; the slice and the map of the argument, which the
    code updates in place, are not followed. *)
Definition filterData (metricData : MetricData)
    (collectFilters : filters.CollectFilters)
  : option (MetricData * list string) :=
  '(toRemove, logged) ←
    checkLoop metricData collectFilters (Attributes metricData) 0
      (replicate (length (Attributes metricData)) false, []);
  '(attributes, data) ←
    removeLoop toRemove (length (Attributes metricData))
      (Attributes metricData, AttributeData metricData);
  Some ({| Metric := Metric metricData;
           Unit := Unit metricData;
           Attributes := attributes;
           AttributeData := data |},
        logged).

(** The attribute is removed: one of the three tests of the 1st loop
    holds for it. *)
Definition filtered (metricData : MetricData)
    (collectFilters : filters.CollectFilters) (attribute : string) : bool :=
  let params :=
    filters.paramsOf collectFilters
      (default EmptyString (gostrings.Split attribute ">" !! 0%nat)) in
  (negb (filters.Level params =? 0) &&
   (filters.Level params <? GetLevel attribute)) ||
  (negb (filters.Level params =? 0) &&
   (filters.Level params =? GetLevel attribute) &&
   negb (filters.Top params =? 0) &&
   (filters.Top params <? GetRank metricData attribute)) ||
  (GetSamplesCount metricData attribute <?
   minSamples metricData collectFilters).

(** The data of Test_filterData. *)
Definition testMetric : MetricData :=
  let one (samples : Z) : list TimeStepData :=
    [ {| DateStart := 0; Value := 10; Samples := samples |} ] in
  {| Metric := "metric";
     Unit := "unit";
     Attributes :=
       [ "Total"; "Attribute1>Sub1"; "Attribute1>Sub1>Sub1";
         "Attribute1>Sub1>Sub2"; "Attribute1>Sub2"; "Attribute2>Sub1";
         "Attribute2>Sub2" ];
     AttributeData :=
       list_to_map
         [ ("Total", one 100); ("Attribute1>Sub1", one 80);
           ("Attribute1>Sub1>Sub1", one 50);
           ("Attribute1>Sub1>Sub2", one 30); ("Attribute1>Sub2", one 20);
           ("Attribute2>Sub1", one 60); ("Attribute2>Sub2", one 40) ] |}.

End collecting.

(** ** The order behind the ranks *)

Module ranking.

(** [compareAttribute] comes before [attribute]: more samples, or as many
    and a smaller name. *)
Definition before (metricData : collector.MetricData)
    (compareAttribute attribute : string) : bool :=
  (collecting.GetSamplesCount metricData attribute <?
   collecting.GetSamplesCount metricData compareAttribute) ||
  ((collecting.GetSamplesCount metricData compareAttribute =?
    collecting.GetSamplesCount metricData attribute) &&
   String.ltb compareAttribute attribute).

End ranking.

(** ** What filterData logs for one attribute *)

Module filtering.

Import collector.

(** The lines of the 1st loop of filterData for [attribute], in the order
    of its three tests. *)
Definition lines (metricData : MetricData)
    (collectFilters : filters.CollectFilters) (attribute : string)
  : list string :=
  let params :=
    filters.paramsOf collectFilters
      (default EmptyString (gostrings.Split attribute ">" !! 0%nat)) in
  let level := collecting.GetLevel attribute in
  let rank := collecting.GetRank metricData attribute in
  let samples := collecting.GetSamplesCount metricData attribute in
  (if negb (filters.Level params =? 0) && (filters.Level params <? level)
   then [collecting.logLevel attribute level (filters.Level params)]
   else []) ++
  (if negb (filters.Level params =? 0) && (filters.Level params =? level) &&
      negb (filters.Top params =? 0) && (filters.Top params <? rank)
   then [collecting.logRank attribute rank (filters.Top params)]
   else []) ++
  (if samples <? collecting.minSamples metricData collectFilters
   then [collecting.logSamples attribute samples
           (collecting.minSamples metricData collectFilters)]
   else []).

(** The attributes of [attributes] that are not flagged, in their order. *)
Fixpoint kept (attributes : list string) (flags : list bool) : list string :=
  match attributes, flags with
  | a :: attributes', flag :: flags' =>
      if flag then kept attributes' flags' else a :: kept attributes' flags'
  | _, _ => []
  end.

(** The attributes of [attributes] that are flagged. *)
Fixpoint dropped (attributes : list string) (flags : list bool)
  : list string :=
  match attributes, flags with
  | a :: attributes', flag :: flags' =>
      if flag then a :: dropped attributes' flags'
      else dropped attributes' flags'
  | _, _ => []
  end.

End filtering.

(** ** Package collector: the time steps that the generator allocates *)

Module generator.

Import collector.

#[local] Set Warnings "-register-all".

(** sampleCreationAttributeNode holds the attributes parameters. *)
Inductive sampleCreationAttributeNode : Type :=
| Node (name : string) (weight : float)
       (subAttributes : list sampleCreationAttributeNode).

Definition name (node : sampleCreationAttributeNode) : string :=
  match node with Node n _ _ => n end.

Definition weight (node : sampleCreationAttributeNode) : float :=
  match node with Node _ w _ => w end.

Definition subAttributes (node : sampleCreationAttributeNode)
  : list sampleCreationAttributeNode :=
  match node with Node _ _ subs => subs end.

(** [TimeStepData{DateStart: dateStep}]: the other fields are zero. *)
Definition newTimeStepData (dateStep : time.Time) : TimeStepData :=
  {| DateStart := dateStep; Value := 0; Samples := 0 |}.

(** The loop [for dateStep.Before(dateEnd)] of allocMasterData and of
    allocAttributesData, at most [fuel] tests of its condition; [None]
    when it has not ended by then. *)
Fixpoint timeSteps (fuel : nat) (dateStep dateEnd : time.Time)
    (stepDuration : Z) (newData : list TimeStepData)
  : option (list TimeStepData) :=
  match fuel with
  | O => None
  | S fuel' =>
      if dateStep <? dateEnd then
        timeSteps fuel' (dateStep + stepDuration) dateEnd stepDuration
          (newData ++ [newTimeStepData dateStep])
      else Some newData
  end.

(** [metricData.Attributes = append(metricData.Attributes, path);
    metricData.AttributeData[path] = newData]. *)
Definition store (metricData : MetricData) (path : string)
    (newData : list TimeStepData) : MetricData :=
  {| Metric := Metric metricData;
     Unit := Unit metricData;
     Attributes := Attributes metricData ++ [path];
     AttributeData := <[path := newData]> (AttributeData metricData) |}.

(** allocMasterData allocates the time steps for an isolated attribute. *)
Definition allocMasterData (fuel : nat) (metricData : MetricData)
    (path : string) (dateStart dateEnd : time.Time) (stepDuration : Z)
  : option MetricData :=
  newData ← timeSteps fuel dateStart dateEnd stepDuration [];
  Some (store metricData path newData).

(** [fmt.Sprintf("%s>%s", path, name)]. *)
Definition subPath (path name : string) : string := path +:+ ">" +:+ name.



(** [n] empty time steps from [dateStart], [stepDuration] apart. *)
Definition grid (dateStart : time.Time) (stepDuration : Z) (n : nat)
  : list TimeStepData :=
  map (fun j => newTimeStepData (dateStart + Z.of_nat j * stepDuration))
    (seq 0 n).

(** The paths of the attributes of the tree under [node], parents before
    their children. *)
Fixpoint paths (node : sampleCreationAttributeNode) (path : string)
    {struct node} : list string :=
  match node with
  | Node _ _ subs =>
      flat_map
        (fun attribute =>
           subPath path (name attribute)
           :: paths attribute (subPath path (name attribute)))
        subs
  end.

(** The tree of attributes of the data simulation. *)
Definition sampleCreationAttributesTree : list sampleCreationAttributeNode :=
  [ Node "DeviceType" 0
      [ Node "Desktop" 50 []; Node "Tablet" 10 []; Node "Mobile" 40 [] ];
    Node "Browser" 0
      [ Node "Chrome" 50
          [ Node "v1" 5 []; Node "v2" 15 []; Node "v3" 80 [] ];
        Node "Edge" 20 []; Node "Firefox" 10 []; Node "Safari" 20 [] ] ].

End generator.

(** ** Slices that share their arrays *)

Module memory.

(** A slice: the address of its first element and its length. *)
Record slice : Type := {
  base : nat;
  len : nat
}.

(** The nil slice, which a map returns for a missing key. *)
Definition nilSlice : slice := {| base := 0; len := 0 |}.

(** The memory: the time step stored at each address. *)
Definition heap : Type := nat -> collector.TimeStepData.

(** [s[i]], a panic for an index out of range. *)
Definition read (h : heap) (s : slice) (i : nat)
  : option collector.TimeStepData :=
  if (i <? len s)%nat then Some (h (base s + i)%nat) else None.

(** [s[i].Samples = v], a panic for an index out of range. *)
Definition writeSamples (h : heap) (s : slice) (i : nat) (v : Z)
  : option heap :=
  if (i <? len s)%nat then
    Some (fun a =>
            if (a =? base s + i)%nat
            then {| collector.DateStart := collector.DateStart (h a);
                    collector.Value := collector.Value (h a);
                    collector.Samples := v |}
            else h a)
  else None.

(** Two slices share no element. *)
Definition disjoint (s t : slice) : bool :=
  (len s =? 0)%nat || (len t =? 0)%nat ||
  (base s + len s <=? base t)%nat || (base t + len t <=? base s)%nat.

(** No two slices of the list share an element. *)
Fixpoint separate (l : list slice) : bool :=
  match l with
  | [] => true
  | s :: rest => forallb (disjoint s) rest && separate rest
  end.

End memory.

(** ** Package collector: the split of the samples of the simulation *)

Module simulation.

Import generator memory.

(** splitSamples writes through the slices that the map of a MetricData
    holds, and a write through one slice is seen through every slice that
    shares the element. Here MetricData has its slices as Go has them, as
    views of the memory. *)
Record MetricData : Type := {
  Metric : string;
  Unit : string;
  Attributes : list string;
  AttributeData : gmap string slice
}.

(** [metricData.AttributeData[attribute]]. *)
Definition attributeData (metricData : MetricData) (attribute : string)
  : slice :=
  default nilSlice (AttributeData metricData !! attribute).

(** The memory and the number of values drawn from the random generators
    so far. *)
Record state : Type := {
  cells : heap;
  drawn : nat
}.

(** The constant 0.2, as the float64 nearest to it; its half is the
    float64 nearest to 0.1. *)
Definition attributeDivisionSampleDeviation : float := 0x1.999999999999ap-3.

(** [float64(n)] for an [int] [n]. *)
Definition float64 (n : Z) : float :=
  if 0 <=? n then float64.of_int n
  else if n =? - 2 ^ 63 then (- (float64.of_int (2 ^ 62) * 2))%float
  else (- float64.of_int (- n))%float.

Section Random.

(** [randGen.Float64()]: the values that the generators return, in the
    order in which they are drawn. *)
Variable Float64 : nat -> float.

(** [int(math.Round(x))], whatever [int] the conversion gives. *)
Variable roundInt : float -> Z.

(** [totalWeight += subAttribute.weight] over the sub-attributes. *)
Definition totalWeight (subs : list sampleCreationAttributeNode) : float :=
  fold_left (fun total subAttribute => (total + weight subAttribute)%float)
    subs 0%float.

(** The loop over [i] of splitSamples, for the sub-attributes but the
    last one: the share of each is stored and taken off [remain]. *)
Fixpoint shares (metricData : MetricData)
    (subs : list sampleCreationAttributeNode) (total : float)
    (masterData : slice) (path : string) (step : nat) (remain : Z)
    (st : state) : option (Z * state) :=
  match subs with
  | [] => Some (remain, st)
  | subAttribute :: rest =>
      let data :=
        attributeData metricData (subPath path (name subAttribute)) in
      let w :=
        (weight subAttribute / total *
         (1 + Float64 (drawn st) * attributeDivisionSampleDeviation -
          attributeDivisionSampleDeviation / 2))%float in
      master ← read (cells st) masterData step;
      h ← writeSamples (cells st) data step
             (roundInt (w * float64 (collector.Samples master))%float);
      written ← read h data step;
      shares metricData rest total masterData path step
        (utils.wrap64 (remain - collector.Samples written))
        {| cells := h; drawn := S (drawn st) |}
  end.

(** The body of the loop over [step]: the last sub-attribute gets what
    remains. *)
Definition splitStep (metricData : MetricData)
    (subs : list sampleCreationAttributeNode) (total : float)
    (masterData : slice) (path : string) (st : state) (step : nat)
  : option state :=
  master ← read (cells st) masterData step;
  '(remain, st) ←
    shares metricData (take (length subs - 1) subs) total masterData path
      step (collector.Samples master) st;
  lastAttribute ← last subs;
  h ← writeSamples (cells st)
         (attributeData metricData (subPath path (name lastAttribute)))
         step remain;
  Some {| cells := h; drawn := drawn st |}.

(** splitSamples distributes the samples of [masterData] over the
    attributes of the tree under [node], recursively. *)
Fixpoint splitSamples (metricData : MetricData)
    (node : sampleCreationAttributeNode) (masterData : slice)
    (path : string) (st : state) {struct node}
  : option (MetricData * state) :=
  match node with
  | Node _ _ subs =>
      st ←
        analyser.forRange
          (splitStep metricData subs (totalWeight subs) masterData path)
          (seq 0 (len masterData)) st;
      analyser.forRange
        (fun '(metricData, st) subAttribute =>
           if (0 <? length (subAttributes subAttribute))%nat then
             splitSamples metricData subAttribute
               (attributeData metricData
                  (subPath path (name subAttribute)))
               (subPath path (name subAttribute)) st
           else Some (metricData, st))
        subs (metricData, st)
  end.

End Random.

(** The samples at [step] of the sub-attributes, added up. *)
Definition levelSum (h : heap) (metricData : MetricData)
    (subs : list sampleCreationAttributeNode) (path : string) (step : nat)
  : Z :=
  foldr
    (fun subAttribute sum =>
       collector.Samples
         (h (base (attributeData metricData
                     (subPath path (name subAttribute))) + step)%nat)
       + sum)
    0 subs.

(** At every step the samples of the sub-attributes add up to the samples
    of [masterData], as 64-bit integers. *)
Definition level (h : heap) (metricData : MetricData)
    (subs : list sampleCreationAttributeNode) (masterData : slice)
    (path : string) : Prop :=
  forall step,
    (step < len masterData)%nat ->
    utils.wrap64 (levelSum h metricData subs path step) =
    utils.wrap64 (collector.Samples (h (base masterData + step)%nat)).

(** The same at every attribute of the tree that has sub-attributes. *)
Fixpoint conserved (h : heap) (metricData : MetricData)
    (node : sampleCreationAttributeNode) (masterData : slice)
    (path : string) {struct node} : Prop :=
  match node with
  | Node _ _ subs =>
      level h metricData subs masterData path /\
      foldr
        (fun subAttribute rest =>
           (subAttributes subAttribute <> [] ->
            conserved h metricData subAttribute
              (attributeData metricData (subPath path (name subAttribute)))
              (subPath path (name subAttribute))) /\ rest)
        True subs
  end.

(** The slices of the attributes of the tree under [node]. *)
Definition slices (metricData : MetricData)
    (node : sampleCreationAttributeNode) (path : string) : list slice :=
  map (attributeData metricData) (paths node path).

(** [a] is the address of an element of one of the slices. *)
Definition inside (l : list slice) (a : nat) : Prop :=
  exists s, s ∈ l /\ (base s <= a < base s + len s)%nat.

(** The slice of a sub-attribute and the address of its element at
    [step]. *)
Definition sliceOf (metricData : MetricData) (path : string)
    (subAttribute : sampleCreationAttributeNode) : slice :=
  attributeData metricData (subPath path (name subAttribute)).

Definition addressOf (metricData : MetricData) (path : string) (step : nat)
    (subAttribute : sampleCreationAttributeNode) : nat :=
  (base (sliceOf metricData path subAttribute) + step)%nat.

(** Only the samples differ between [h] and [h']. *)
Definition sameTimes (h h' : heap) : Prop :=
  forall a,
    collector.DateStart (h' a) = collector.DateStart (h a) /\
    collector.Value (h' a) = collector.Value (h a).

(** The slices of the sub-attributes, each followed by the slices of its
    own tree; and the slices of their trees alone. *)
Definition blocks (metricData : MetricData) (path : string)
    (subs : list sampleCreationAttributeNode) : list slice :=
  flat_map
    (fun c =>
       sliceOf metricData path c
       :: slices metricData c (subPath path (name c)))
    subs.

Definition deep (metricData : MetricData) (path : string)
    (subs : list sampleCreationAttributeNode) : list slice :=
  flat_map (fun c => slices metricData c (subPath path (name c))) subs.

(** The second part of [conserved]: the trees of the sub-attributes. *)
Definition children (metricData : MetricData) (h : heap) (path : string)
    (subs : list sampleCreationAttributeNode) : Prop :=
  foldr
    (fun subAttribute rest =>
       (subAttributes subAttribute <> [] ->
        conserved h metricData subAttribute
          (sliceOf metricData path subAttribute)
          (subPath path (name subAttribute))) /\ rest)
    True subs.

(** What splitSamples does for the tree under [node], when the slices of
    the tree are as long as [masterData] and no two of them, nor one of
    them and [masterData], share an element. *)
Definition splits (Float64 : nat -> float) (roundInt : float -> Z)
    (metricData : MetricData) (node : sampleCreationAttributeNode) : Prop :=
  forall (masterData : slice) (path : string) (st : state),
    subAttributes node <> [] ->
    separate (masterData :: slices metricData node path) = true ->
    (forall s, s ∈ slices metricData node path ->
               len s = len masterData) ->
    exists st',
      splitSamples Float64 roundInt metricData node masterData path st =
        Some (metricData, st') /\
      conserved (cells st') metricData node masterData path /\
      (forall a, ~ inside (slices metricData node path) a ->
                 cells st' a = cells st a) /\
      sameTimes (cells st) (cells st').

End simulation.

(** ** A layout of the "Browser" tree in memory *)

Module simdata.

Import generator memory.

Definition browser : sampleCreationAttributeNode :=
  Node "Browser" 0
    [ Node "Chrome" 50
        [ Node "v1" 5 []; Node "v2" 15 []; Node "v3" 80 [] ];
      Node "Edge" 20 []; Node "Firefox" 10 []; Node "Safari" 20 [] ].

(** Two time steps for "Total" and for every attribute of the tree, one
    slice after the other. *)
Definition metric : simulation.MetricData :=
  {| simulation.Metric := "Visits";
     simulation.Unit := "Number of Sessions";
     simulation.Attributes := "Total" :: paths browser "Browser";
     simulation.AttributeData :=
       list_to_map
         [ ("Total", {| base := 0; len := 2 |});
           ("Browser>Chrome", {| base := 2; len := 2 |});
           ("Browser>Chrome>v1", {| base := 4; len := 2 |});
           ("Browser>Chrome>v2", {| base := 6; len := 2 |});
           ("Browser>Chrome>v3", {| base := 8; len := 2 |});
           ("Browser>Edge", {| base := 10; len := 2 |});
           ("Browser>Firefox", {| base := 12; len := 2 |});
           ("Browser>Safari", {| base := 14; len := 2 |}) ] |}.

(** 1000 and 2000 samples in the two steps of "Total", none elsewhere. *)
Definition initial : simulation.state :=
  {| simulation.cells :=
       fun a =>
         {| collector.DateStart := Z.of_nat (a mod 2) * utils.Hour;
            collector.Value := 0;
            collector.Samples :=
              if (a =? 0)%nat then 1000
              else if (a =? 1)%nat then 2000 else 0 |};
     simulation.drawn := 0 |}.

End simdata.


(** * Properties *)

Import analyser.

(** ** Slices *)

Lemma index_Some (data : list collector.TimeStepData) (i : Z)
    (x : collector.TimeStepData) :
  index data i = Some x -> 0 <= i < Z.of_nat (length data).
Proof.
  unfold index. destruct (Z.ltb_spec i 0) as [|Hi]; [discriminate|].
  intros Hx. apply lookup_lt_Some in Hx. lia.
Qed.

Lemma index_lt (data : list collector.TimeStepData) (i : Z) :
  0 <= i < Z.of_nat (length data) -> exists x, index data i = Some x.
Proof.
  intros [Hlo Hhi]. unfold index.
  destruct (Z.ltb_spec i 0) as [|_]; [lia|].
  destruct (lookup_lt_is_Some_2 data (Z.to_nat i)) as [x Hx]; [lia|].
  exists x. exact Hx.
Qed.

Lemma tsAt_index (data : list collector.TimeStepData) (i : Z)
    (x : collector.TimeStepData) :
  index data i = Some x -> spec.tsAt data i = collector.DateStart x.
Proof. unfold spec.tsAt. intros ->. reflexivity. Qed.

(** ** The loop of the code simulates the machine *)

Section Simulation.

Variable data : list collector.TimeStepData.
Variables mean strongLimit weakLimit : float.

Lemma newEventAt_tsAt (st : loopState) (ind : Z) :
  0 <= ind < Z.of_nat (length data) ->
  0 <= beginStep st < Z.of_nat (length data) ->
  newEventAt data st ind =
  Some {| outlierPeriodStart := spec.tsAt data (beginStep st);
          outlierPeriodEnd := spec.tsAt data ind |}.
Proof.
  intros Hind Hb.
  destruct (index_lt data _ Hind) as [x Hx].
  destruct (index_lt data _ Hb) as [b Hxb].
  unfold newEventAt. rewrite Hxb, Hx. simpl.
  rewrite (tsAt_index _ _ _ Hx), (tsAt_index _ _ _ Hxb). reflexivity.
Qed.

Lemma body_refines (ind : Z) (st : loopState) (m : spec.machine) :
  0 <= ind < Z.of_nat (length data) ->
  sim.refines st m ->
  sim.openBelow ind (spec.open m) ->
  exists st',
    body data mean strongLimit weakLimit ind st = Some st' /\
    sim.refines st' (spec.step data mean strongLimit weakLimit ind m) /\
    sim.openBelow (ind + 1)
      (spec.open (spec.step data mean strongLimit weakLimit ind m)).
Proof.
  intros Hind (Hw & Ha & Ho) Hopen.
  destruct (index_lt data _ Hind) as [x Hx].
  unfold body, spec.step, spec.classAt, spec.classify. rewrite Hx. simpl.
  assert (Hnew : beginStep st <> -1 ->
                 newEventAt data st ind =
                 Some {| outlierPeriodStart := spec.tsAt data (beginStep st);
                         outlierPeriodEnd := spec.tsAt data ind |}).
  { intros Hb. apply newEventAt_tsAt; [exact Hind|].
    unfold sim.abstract in Ho. rewrite <- Ho in Hopen.
    destruct (Z.eqb_spec (beginStep st) (-1)); [contradiction|].
    destruct (strongEvent st); simpl in Hopen; lia. }
  unfold sim.abstract in Ho.
  destruct (float64.gt _ strongLimit); [|destruct (float64.gt _ weakLimit)];
    unfold onStrong, onWeak, onNormal;
    destruct (Z.eqb_spec (beginStep st) (-1)) as [Hb|Hb];
    destruct (strongEvent st) eqn:Hse; simpl;
    rewrite <- Ho; simpl; try rewrite (Hnew Hb); simpl;
    eexists; (split; [reflexivity|]);
    unfold sim.refines, sim.abstract, spec.close; simpl;
    rewrite ?Hw, ?Ha, ?Hse; simpl;
    repeat match goal with
           | |- context [Z.eqb ?a ?b] => destruct (Z.eqb_spec a b); try lia
           end;
    rewrite <- ?Ho in Hopen; simpl in Hopen;
    repeat split; auto; try lia.
Qed.

Lemma loop_refines (n : nat) (ind : Z) (st : loopState) (m : spec.machine) :
  0 <= ind ->
  ind + Z.of_nat n <= Z.of_nat (length data) ->
  sim.refines st m ->
  sim.openBelow ind (spec.open m) ->
  exists st',
    loop data mean strongLimit weakLimit n ind st = Some st' /\
    sim.refines st' (spec.run data mean strongLimit weakLimit n ind m) /\
    sim.openBelow (ind + Z.of_nat n)
      (spec.open (spec.run data mean strongLimit weakLimit n ind m)).
Proof.
  revert ind st m. induction n as [|n IH]; intros ind st m Hlo Hhi Href Hopen.
  - exists st. simpl. rewrite Z.add_0_r. auto.
  - destruct (body_refines ind st m) as (st1 & Hbody & Href1 & Hopen1);
      [lia|assumption|assumption|].
    destruct (IH (ind + 1) st1
                (spec.step data mean strongLimit weakLimit ind m)) as (st' & Hloop & Href' & Hopen');
      [lia|lia|assumption|assumption|].
    exists st'. simpl. rewrite Hbody. simpl.
    replace (ind + Z.of_nat (S n)) with (ind + 1 + Z.of_nat n) by lia.
    auto.
Qed.

Lemma closeOpen_refines (PeriodEnd : time.Time) (st : loopState)
    (m : spec.machine) :
  sim.refines st m ->
  sim.openBelow (Z.of_nat (length data)) (spec.open m) ->
  closeOpen data PeriodEnd st = Some (spec.finish data PeriodEnd m).
Proof.
  intros (Hw & Ha & Ho) Hopen.
  unfold closeOpen, spec.finish, sim.abstract in *.
  rewrite <- Ho in *.
  destruct (Z.eqb_spec (beginStep st) (-1)) as [Hb|Hb]; simpl.
  - rewrite Hw, Ha. reflexivity.
  - assert (Hin : 0 <= beginStep st < Z.of_nat (length data))
      by (destruct (strongEvent st); simpl in Hopen; lia).
    destruct (index_lt data _ Hin) as [b Hxb]. rewrite Hxb. simpl.
    destruct (strongEvent st); simpl;
      rewrite (tsAt_index _ _ _ Hxb), Hw, Ha; reflexivity.
Qed.

End Simulation.

Lemma start_refines : sim.refines initState spec.start.
Proof. repeat split. Qed.

(** The whole call as the machine's pass from index 0 and its final close;
    in particular the call never panics. *)
Lemma detect_run (data : list collector.TimeStepData) (PeriodEnd : time.Time)
    (outliersMultiplier strongOutliersMultiplier : float) :
  detectOutliers3Sigmas data PeriodEnd outliersMultiplier
    strongOutliersMultiplier =
  Some (spec.finish data PeriodEnd
          (spec.run data (baseline data).1
             (strongOutliersMultiplier * (baseline data).2)%float
             (outliersMultiplier * (baseline data).2)%float
             (length data) 0 spec.start)).
Proof.
  unfold detectOutliers3Sigmas.
  destruct (baseline data) as [mean sd]. simpl.
  destruct (loop_refines data mean (strongOutliersMultiplier * sd)%float
              (outliersMultiplier * sd)%float (length data) 0
              initState spec.start) as (st & Hloop & Href & Hopen);
    [lia|lia|exact start_refines|exact I|].
  rewrite Hloop. simpl.
  apply closeOpen_refines; assumption.
Qed.

(** ** The state machine *)

(** C2: for every input series, detectOutliers3Sigmas returns, without a
    panic, the two lists that the transition table of the specification
    produces: from no period open a NORMAL sample changes nothing and a
    WEAK or STRONG sample opens a weak or strong period at its index; a
    weak period is continued by WEAK and closed as a warning, ending at the
    current sample's timestamp, by STRONG (which opens a strong period at
    the current index) and by NORMAL (which clears the state); a strong
    period is continued by STRONG and closed as an alarm by WEAK (which
    opens a weak period) and by NORMAL. *)
Theorem C2_follows_transition_table (data : list collector.TimeStepData)
    (PeriodEnd : time.Time)
    (outliersMultiplier strongOutliersMultiplier : float) :
  detectOutliers3Sigmas data PeriodEnd outliersMultiplier
    strongOutliersMultiplier =
  Some (spec.detect data PeriodEnd outliersMultiplier
          strongOutliersMultiplier).
Proof.
  unfold detectOutliers3Sigmas, spec.detect.
  destruct (baseline data) as [mean sd].
  set (strongLimit := (strongOutliersMultiplier * sd)%float).
  set (weakLimit := (outliersMultiplier * sd)%float).
  destruct (loop_refines data mean strongLimit weakLimit (length data) 0
              initState spec.start) as (st & Hloop & Href & Hopen).
  - lia.
  - lia.
  - exact start_refines.
  - exact I.
  - rewrite Hloop. simpl.
    rewrite (closeOpen_refines data PeriodEnd st _ Href Hopen).
    reflexivity.
Qed.

(** ** The reference scenario *)

(** C3: on the 30 reference samples with weak multiplier 2 and strong
    multiplier 3, whatever the timestamps and the boundary are, the result
    is exactly one warning, from the timestamp of sample 29 to the
    boundary, and exactly one alarm, from the timestamp of sample 27 to the
    timestamp of sample 29. *)
Theorem C3_reference_scenario (dateStart : nat -> time.Time)
    (PeriodEnd : time.Time) :
  detectOutliers3Sigmas (testdata.series dateStart testdata.values)
    PeriodEnd 2 3 =
  Some ([ {| outlierPeriodStart := dateStart 29%nat;
             outlierPeriodEnd := PeriodEnd |} ],
        [ {| outlierPeriodStart := dateStart 27%nat;
             outlierPeriodEnd := dateStart 29%nat |} ]).
Proof. vm_compute. reflexivity. Qed.

(** The second case of the test: with multipliers 3 and 4 there is no
    alarm and one warning, closed by sample 29. *)
Example reference_scenario_3_4 (dateStart : nat -> time.Time)
    (PeriodEnd : time.Time) :
  detectOutliers3Sigmas (testdata.series dateStart testdata.values)
    PeriodEnd 3 4 =
  Some ([ {| outlierPeriodStart := dateStart 27%nat;
             outlierPeriodEnd := dateStart 29%nat |} ],
        []).
Proof. vm_compute. reflexivity. Qed.

(** ** The empty series *)

(** C10: on the empty series the mean and the standard deviation are NaN
    (0/0), the loop runs no iteration, and the result is two empty lists
    for every boundary and every pair of multipliers. *)
Theorem C10_empty_series (PeriodEnd : time.Time)
    (outliersMultiplier strongOutliersMultiplier : float) :
  baseline [] = (PrimFloat.nan, PrimFloat.nan) /\
  loop [] PrimFloat.nan (strongOutliersMultiplier * PrimFloat.nan)%float
    (outliersMultiplier * PrimFloat.nan)%float (length ([] : list collector.TimeStepData)) 0 initState =
  Some initState /\
  detectOutliers3Sigmas [] PeriodEnd outliersMultiplier
    strongOutliersMultiplier = Some ([], []).
Proof.
  assert (Hb : baseline [] = (PrimFloat.nan, PrimFloat.nan))
    by (vm_compute; reflexivity).
  split; [exact Hb|]. split; [reflexivity|].
  unfold detectOutliers3Sigmas. rewrite Hb. reflexivity.
Qed.

(** ** The threshold tests *)

Lemma SFcompare_Eq_sym (a b : spec_float) :
  SFcompare a b = Some Eq -> SFcompare b a = Some Eq.
Proof.
  destruct a as [sa|sa| |sa ma ea], b as [sb|sb| |sb mb eb]; simpl;
    try discriminate; try reflexivity;
    try (destruct sa, sb; simpl; congruence).
  rewrite (Z.compare_antisym ea eb).
  pose proof (Pos.compare_cont_antisym ma mb Eq) as Hm. simpl in Hm.
  rewrite <- Hm.
  destruct sa, sb, (ea ?= eb)%Z, (Pos.compare_cont Eq ma mb); simpl;
    congruence.
Qed.

(** A value equal to a limit (IEEE [==]) is not above it. *)
Lemma eqb_not_gt (a b : float) :
  PrimFloat.eqb a b = true -> float64.gt a b = false.
Proof.
  unfold float64.gt. rewrite FloatAxioms.eqb_spec, FloatAxioms.ltb_spec. unfold SFeqb, SFltb.
  destruct (SFcompare (Prim2SF a) (Prim2SF b)) as [[| |]|] eqn:Hab;
    try discriminate.
  intros _. rewrite (SFcompare_Eq_sym _ _ Hab). reflexivity.
Qed.

(** C4: at a sample [x] of the series, with the limits
    [strongLimit = strongOutliersMultiplier * sd] and
    [weakLimit = outliersMultiplier * sd] and the deviation
    [d = |x.Value - mean|]: when [d] equals the strong limit the loop body
    does not take the alarm branch, when [d] equals the weak limit it does
    not take the warning branch, and when [d] is above the strong limit it
    takes the alarm branch whatever the weak limit is, so also when
    [strongLimit <= weakLimit] and [d] is above both. *)
Theorem C4_strict_thresholds (data : list collector.TimeStepData)
    (mean sd outliersMultiplier strongOutliersMultiplier : float)
    (ind : Z) (st : loopState) (x : collector.TimeStepData) :
  index data ind = Some x ->
  let strongLimit := (strongOutliersMultiplier * sd)%float in
  let weakLimit := (outliersMultiplier * sd)%float in
  let d := PrimFloat.abs (collector.Value x - mean) in
  let next := body data mean strongLimit weakLimit ind st in
  (PrimFloat.eqb d strongLimit = true ->
   next = if float64.gt d weakLimit then onWeak data ind st
          else onNormal data ind st) /\
  (PrimFloat.eqb d weakLimit = true ->
   next = if float64.gt d strongLimit then onStrong data ind st
          else onNormal data ind st) /\
  (float64.gt d strongLimit = true -> next = onStrong data ind st).
Proof.
  intros Hx strongLimit weakLimit d next.
  subst next. unfold body. rewrite Hx. simpl. fold d.
  split; [|split].
  - intros Heq. rewrite (eqb_not_gt _ _ Heq). reflexivity.
  - intros Heq. rewrite (eqb_not_gt _ _ Heq).
    destruct (float64.gt d strongLimit); reflexivity.
  - intros Hgt. rewrite Hgt. reflexivity.
Qed.

(** At deviation 3 with limits 3 and 2 the sample is a weak outlier; at
    deviation 2 with the same limits it is normal; at deviation 4 with the
    limits swapped (strong 2, weak 3) it is a strong outlier. *)
Lemma C4_strict_thresholds_witness :
  let sample v := {| collector.DateStart := 0; collector.Value := v;
                     collector.Samples := 100 |} in
  body [sample 5%float] 2 (3 * 1) (2 * 1) 0 initState =
    onWeak [sample 5%float] 0 initState /\
  body [sample 4%float] 2 (3 * 1) (2 * 1) 0 initState =
    onNormal [sample 4%float] 0 initState /\
  body [sample 6%float] 2 (2 * 1) (3 * 1) 0 initState =
    onStrong [sample 6%float] 0 initState.
Proof.
  intros sample. split; [|split].
  - apply (proj1 (C4_strict_thresholds [sample 5%float] 2 1 2 3 0 initState
                    (sample 5%float) eq_refl)).
    vm_compute. reflexivity.
  - apply (proj1 (proj2 (C4_strict_thresholds [sample 4%float] 2 1 2 3 0
                           initState (sample 4%float) eq_refl))).
    vm_compute. reflexivity.
  - apply (proj2 (proj2 (C4_strict_thresholds [sample 6%float] 2 1 3 2 0
                           initState (sample 6%float) eq_refl))).
    vm_compute. reflexivity.
Defined.

(** ** The baseline *)

Lemma sumLoop_Sigma (data : list collector.TimeStepData) (sum : float) :
  sumLoop data sum = fold_left PrimFloat.add (map collector.Value data) sum.
Proof.
  revert sum. induction data as [|x rest IH]; intros sum; simpl.
  - reflexivity.
  - apply IH.
Qed.

Lemma sdLoop_Sigma (mean : float) (data : list collector.TimeStepData)
    (sd : float) :
  sdLoop mean data sd =
  fold_left PrimFloat.add
    (map (fun x => float64.pow2 (collector.Value x - mean)) data) sd.
Proof.
  revert sd. induction data as [|x rest IH]; intros sd; simpl.
  - reflexivity.
  - apply IH.
Qed.

(** C5: the statistics that detectOutliers3Sigmas computes are
    [mean = Σvalue / N] and [stddev = sqrt(Σ(value-mean)² / N)] in float64
    arithmetic, the sums taken in series order. The divisor is [N]: on the
    series 2, 4, 4, 4, 5, 5, 7, 9 the result is mean 5 and deviation 2,
    which the divisor [N - 1] does not give. No series is rejected: the
    function has no error result, and on the empty series the two
    equations still hold, between NaNs. *)
Theorem C5_population_statistics :
  (forall data : list collector.TimeStepData,
     baseline data = (spec.mean data, spec.stddev data)) /\
  (let data :=
     testdata.series (fun _ => 0) [2; 4; 4; 4; 5; 5; 7; 9]%float in
   baseline data = (5, 2)%float /\
   PrimFloat.eqb (spec.sampleStddev data) 2 = false) /\
  baseline [] = (PrimFloat.nan, PrimFloat.nan).
Proof.
  split; [|split].
  - intros data. unfold baseline, spec.mean, spec.stddev, spec.Sigma.
    rewrite sdLoop_Sigma, sumLoop_Sigma. reflexivity.
  - split; vm_compute; reflexivity.
  - vm_compute. reflexivity.
Qed.

(** ** The report assembler *)

Lemma forRange_app {A S : Type} (f : S -> A -> option S) (l1 l2 : list A)
    (s : S) :
  forRange f (l1 ++ l2) s = s1 ← forRange f l1 s; forRange f l2 s1.
Proof.
  revert s. induction l1 as [|x l1 IH]; intros s; simpl.
  - reflexivity.
  - destruct (f s x) as [s'|]; simpl; [apply IH|reflexivity].
Qed.

Lemma setResult_same (res : OutlierReport) :
  setResult res (Result res) = res.
Proof. destruct res. reflexivity. Qed.

(** With an unknown method one attribute leaves the report as it is and
    logs one line. *)
Lemma perAttribute_unknown (siteData : collector.SiteData)
    (methodParams : config.DetectionMethodsParams)
    (metricData : collector.MetricData) (res : OutlierReport)
    (logged : list string) (attribute : string) :
  OutliersDetectionMethod res <> "3-sigmas" ->
  perAttribute siteData methodParams metricData (res, logged) attribute =
  Some (res, logged ++ [notImplemented (OutliersDetectionMethod res)]).
Proof.
  intros Hm. unfold perAttribute.
  apply String.eqb_neq in Hm. rewrite Hm. simpl.
  destruct res as [? ? ? ? ? ? ? ? [ws als]]. reflexivity.
Qed.

Lemma perMetric_unknown (siteData : collector.SiteData)
    (methodParams : config.DetectionMethodsParams)
    (metricData : collector.MetricData) (res : OutlierReport)
    (logged : list string) :
  OutliersDetectionMethod res <> "3-sigmas" ->
  perMetric siteData methodParams (res, logged) metricData =
  Some (res,
        logged ++ map (fun _ => notImplemented (OutliersDetectionMethod res))
                    (collector.Attributes metricData)).
Proof.
  intros Hm. unfold perMetric.
  generalize (collector.Attributes metricData) as attributes.
  intros attributes. revert logged.
  induction attributes as [|a rest IH]; intros logged;
    cbn [forRange map].
  - rewrite app_nil_r. reflexivity.
  - rewrite (perAttribute_unknown _ _ _ _ _ _ Hm). cbn [mbind option_bind].
    rewrite IH, <- app_assoc. reflexivity.
Qed.

(** C6: when the configured method name is not "3-sigmas", GetResults
    returns a report (no panic, and the function has no error result): its
    warnings and alarms are empty, its other fields are filled from the
    inputs and from the two clock readings as for a known method, and one
    diagnostic line is logged for every attribute of every metric, so every
    metric and attribute is visited and none aborts the assembly. *)
Theorem C6_unknown_method (checkStart checkEnd : time.Time)
    (siteData : collector.SiteData) (dataConf : config.Dataset)
    (methodParams : config.DetectionMethodsParams) :
  config.OutliersDetectionMethod dataConf <> "3-sigmas" ->
  GetResults checkStart checkEnd siteData dataConf methodParams =
  Some ({| SiteId := collector.SiteId siteData;
           OutliersDetectionMethod := config.OutliersDetectionMethod dataConf;
           CheckDateStart := checkStart;
           CheckDateEnd := checkEnd;
           TimeAgo := config.TimeAgo dataConf;
           TimeStep := config.TimeStep dataConf;
           DateStart := collector.SiteDateStart siteData;
           DateEnd := collector.SiteDateEnd siteData;
           Result := {| Warnings := []; Alarms := [] |} |},
        flat_map
          (fun metricData =>
             map (fun _ =>
                    notImplemented (config.OutliersDetectionMethod dataConf))
               (collector.Attributes metricData))
          (collector.Metrics siteData)).
Proof.
  intros Hm. unfold GetResults.
  set (res := {| SiteId := collector.SiteId siteData;
                 CheckDateEnd := 0; Result := _ |}).
  assert (Hres : OutliersDetectionMethod res <> "3-sigmas") by exact Hm.
  assert (Hloop : forall metrics logged,
             forRange (perMetric siteData methodParams) metrics (res, logged)
             = Some (res,
                     logged ++
                     flat_map
                       (fun metricData =>
                          map (fun _ =>
                                 notImplemented (OutliersDetectionMethod res))
                            (collector.Attributes metricData)) metrics)).
  { induction metrics as [|m rest IH]; intros logged;
      cbn [forRange flat_map].
    - rewrite app_nil_r. reflexivity.
    - rewrite (perMetric_unknown _ _ _ _ _ Hres). cbn [mbind option_bind].
      rewrite IH, <- app_assoc. reflexivity. }
  rewrite Hloop. reflexivity.
Qed.

Lemma C6_unknown_method_witness :
  GetResults 7 9
    datamodel.site
    (datamodel.dataset "iqr") datamodel.params =
  Some ({| SiteId := "site-1"; OutliersDetectionMethod := "iqr";
           CheckDateStart := 7; CheckDateEnd := 9;
           TimeAgo := "30d"; TimeStep := "1d";
           DateStart := 0; DateEnd := 30;
           Result := {| Warnings := []; Alarms := [] |} |},
        [ notImplemented "iqr" ]).
Proof.
  refine (C6_unknown_method 7 9 datamodel.site (datamodel.dataset "iqr")
            datamodel.params _).
  simpl. discriminate.
Defined.

(** The same site with the method "3-sigmas": one warning and one alarm,
    labelled with the metric and the attribute, and nothing logged. *)
Example GetResults_3_sigmas :
  GetResults 7 9
    datamodel.site
    (datamodel.dataset "3-sigmas") datamodel.params =
  Some ({| SiteId := "site-1"; OutliersDetectionMethod := "3-sigmas";
           CheckDateStart := 7; CheckDateEnd := 9;
           TimeAgo := "30d"; TimeStep := "1d";
           DateStart := 0; DateEnd := 30;
           Result :=
             {| Warnings :=
                  [ {| OutlierPeriodStart := 29; OutlierPeriodEnd := 30;
                       EventMetric := "visits"; EventAttribute := "Total" |} ];
                Alarms :=
                  [ {| OutlierPeriodStart := 27; OutlierPeriodEnd := 29;
                       EventMetric := "visits"; EventAttribute := "Total" |} ]
             |} |},
        []).
Proof. vm_compute. reflexivity. Qed.

(** ** The JSON form of the report *)

(** C9, as the code has it: every OutlierReport is written as an object
    with the members siteId, outliersDetectionMethod, checkTimeStart,
    checkTimeEnd, timeAgo, timeStep, dateStart, dateEnd and result, in this
    order, and result is an object with the members warnings and alarms. *)
Theorem C9_report_field_names (r : OutlierReport) :
  json.names (json.marshalOutlierReport r) =
  [ "siteId"; "outliersDetectionMethod"; "checkTimeStart"; "checkTimeEnd";
    "timeAgo"; "timeStep"; "dateStart"; "dateEnd"; "result" ] /\
  json.names <$> json.member "result" (json.marshalOutlierReport r) =
  Some [ "warnings"; "alarms" ].
Proof. split; reflexivity. Qed.

(** The report that GetResults builds for a site without metrics is not
    written with the field names of the specification's data model. *)
Lemma C9_report_field_names_counterexample :
  exists res logged,
    GetResults 7 9 datamodel.emptySite (datamodel.dataset "3-sigmas")
      datamodel.params = Some (res, logged) /\
    json.names (json.marshalOutlierReport res) <> datamodel.reportFieldNames.
Proof.
  eexists. eexists. split.
  - reflexivity.
  - simpl. discriminate.
Qed.

(** ** Duration strings *)

(** C8: the parser accepts "1d12h", "90m", "250us" and "15ns" with the sum
    of number times unit, and rejects the empty string, a number without
    unit and a unit without number. It also rejects "5ms", though "ms" is a
    key of [unitMap]: the one-byte key "m" is looked up first and matches,
    and the "s" left over is not a number. *)
Theorem C8_milliseconds_rejected :
  utils.unitMap !! "ms" = Some utils.Millisecond /\
  utils.StrToDuration "5ms" = utils.Err (utils.invalidDuration "5ms") /\
  utils.StrToDuration "1d12h" = utils.Ret (36 * utils.Hour) /\
  utils.StrToDuration "90m" = utils.Ret (90 * utils.Minute) /\
  utils.StrToDuration "250us" = utils.Ret (250 * utils.Microsecond) /\
  utils.StrToDuration "15ns" = utils.Ret 15 /\
  utils.StrToDuration EmptyString =
    utils.Err (utils.invalidDuration EmptyString) /\
  utils.StrToDuration "12" = utils.Err (utils.invalidDuration "12") /\
  utils.StrToDuration "h" = utils.Err (utils.invalidDuration "h").
Proof. repeat split; vm_compute; reflexivity. Qed.

(** ** Periods are runs of equally classified samples *)

Section RunsOfSamples.

Variable data : list collector.TimeStepData.
Variables mean strongLimit weakLimit : float.

#[local] Abbreviation classAt :=
  (spec.classAt data mean strongLimit weakLimit).
#[local] Abbreviation opensAt :=
  (spec.opensAt data mean strongLimit weakLimit).
#[local] Abbreviation runOf := (spec.runOf data mean strongLimit weakLimit).
#[local] Abbreviation interiorClose :=
  (spec.interiorClose data mean strongLimit weakLimit).

Lemma runOf_one (c : spec.Class) (i : Z) : classAt i = c -> runOf c i (i + 1).
Proof. intros Hc j Hj. replace j with i by lia. exact Hc. Qed.

Lemma runOf_extend (c : spec.Class) (b i : Z) :
  runOf c b i -> classAt i = c -> runOf c b (i + 1).
Proof.
  intros Hrun Hc j Hj. destruct (Z.eq_dec j i) as [->|Hne].
  - exact Hc.
  - apply Hrun. lia.
Qed.

(** A run that reaches [i] and a sample of another class at [i] make a
    closed period. *)
Lemma interiorClose_intro (c : spec.Class) (b i : Z) :
  0 <= b < i -> i < Z.of_nat (length data) ->
  opensAt c b -> runOf c b i -> classAt i <> c ->
  interiorClose c {| outlierPeriodStart := spec.tsAt data b;
                     outlierPeriodEnd := spec.tsAt data i |}.
Proof.
  intros Hb Hi Hopen Hrun Hc.
  destruct (index_lt data b) as [xb Hxb]; [lia|].
  destruct (index_lt data i) as [xi Hxi]; [lia|].
  exists b, i, xb, xi.
  rewrite (tsAt_index _ _ _ Hxb), (tsAt_index _ _ _ Hxi).
  repeat split; try assumption; try lia; apply Hopen.
Qed.

(** A period opens at [i] after a sample of another class. *)
Lemma opensAt_after (c : spec.Class) (i : Z) :
  c <> spec.NORMAL -> classAt i = c ->
  (i = 0 \/ classAt (i - 1) <> c) -> opensAt c i.
Proof. intros. repeat split; assumption. Qed.

Lemma runs_step (ind : Z) (m : spec.machine) :
  0 <= ind < Z.of_nat (length data) ->
  inv.runs data mean strongLimit weakLimit ind m ->
  inv.runs data mean strongLimit weakLimit (ind + 1)
    (spec.step data mean strongLimit weakLimit ind m).
Proof.
  intros Hind (Hws & Has & Hopen).
  destruct m as [o ws als]. unfold spec.step, inv.runs in *. simpl in *.
  assert (Hprev : forall b c, 0 <= b < ind -> runOf c b ind ->
                              classAt (ind - 1) = c).
  { intros b c Hb Hrun. apply Hrun. lia. }
  destruct o as [|b|b]; destruct (classAt ind) eqn:Hc; simpl;
    replace (ind + 1 - 1) with ind by lia;
    try destruct Hopen as (Hb & Hob & Hrun);
    try pose proof (Hprev _ _ Hb Hrun) as Hlast.
  - auto.
  - repeat split; try assumption; try lia; try discriminate.
    + destruct Hopen as [->|Hn]; [left; reflexivity|right].
      rewrite Hn. discriminate.
    + apply runOf_one. exact Hc.
  - repeat split; try assumption; try lia; try discriminate.
    + destruct Hopen as [->|Hn]; [left; reflexivity|right].
      rewrite Hn. discriminate.
    + apply runOf_one. exact Hc.
  - repeat split; try assumption; auto.
    apply Forall_app. split; [assumption|]. constructor; [|constructor].
    apply interiorClose_intro; try assumption; try lia.
    rewrite Hc. discriminate.
  - repeat split; try assumption; try lia; try apply Hob.
    apply runOf_extend; assumption.
  - repeat split; try assumption; try lia; try discriminate.
    + apply Forall_app. split; [assumption|]. constructor; [|constructor].
      apply interiorClose_intro; try assumption; try lia.
      rewrite Hc. discriminate.
    + right. rewrite Hlast. discriminate.
    + apply runOf_one. exact Hc.
  - repeat split; try assumption; auto.
    apply Forall_app. split; [assumption|]. constructor; [|constructor].
    apply interiorClose_intro; try assumption; try lia.
    rewrite Hc. discriminate.
  - repeat split; try assumption; try lia; try discriminate.
    + apply Forall_app. split; [assumption|]. constructor; [|constructor].
      apply interiorClose_intro; try assumption; try lia.
      rewrite Hc. discriminate.
    + right. rewrite Hlast. discriminate.
    + apply runOf_one. exact Hc.
  - repeat split; try assumption; try lia; try apply Hob.
    apply runOf_extend; assumption.
Qed.

Lemma runs_run (n : nat) (ind : Z) (m : spec.machine) :
  0 <= ind -> ind + Z.of_nat n <= Z.of_nat (length data) ->
  inv.runs data mean strongLimit weakLimit ind m ->
  inv.runs data mean strongLimit weakLimit (ind + Z.of_nat n)
    (spec.run data mean strongLimit weakLimit n ind m).
Proof.
  revert ind m. induction n as [|n IH]; intros ind m Hlo Hhi Hinv.
  - simpl. rewrite Z.add_0_r. exact Hinv.
  - simpl spec.run.
    replace (ind + Z.of_nat (S n)) with (ind + 1 + Z.of_nat n) by lia.
    apply IH; [lia|lia|]. apply runs_step; [lia|exact Hinv].
Qed.

(** The run that reaches [ind] is the one recorded as open. *)
Lemma runs_open (ind : Z) (m : spec.machine) (c : spec.Class) (b : Z) :
  inv.runs data mean strongLimit weakLimit ind m ->
  0 <= b < ind -> opensAt c b -> runOf c b ind ->
  spec.open m =
  match c with
  | spec.WEAK => spec.WeakOpen b
  | spec.STRONG => spec.StrongOpen b
  | spec.NORMAL => spec.NoneOpen
  end.
Proof.
  intros (_ & _ & Hopen) Hb (Hc & Hcb & Hfirst) Hrun.
  assert (Hlast : classAt (ind - 1) = c) by (apply Hrun; lia).
  assert (Hsame : forall b', 0 <= b' < ind -> opensAt c b' ->
                             runOf c b' ind -> b' = b).
  { intros b' Hb' (_ & _ & Hfirst') Hrun'.
    destruct (Z.lt_trichotomy b' b) as [Hlt|[Heq|Hgt]]; [|exact Heq|].
    - destruct Hfirst as [->|Hne]; [lia|].
      exfalso. apply Hne. apply Hrun'. lia.
    - destruct Hfirst' as [->|Hne]; [lia|].
      exfalso. apply Hne. apply Hrun. lia. }
  destruct (spec.open m) as [|b'|b'].
  - destruct Hopen as [->|Hn]; [lia|]. congruence.
  - destruct Hopen as (Hb' & Hob' & Hrun').
    assert (c = spec.WEAK) as -> by (rewrite <- Hlast; apply Hrun'; lia).
    rewrite (Hsame b' Hb' Hob' Hrun'). reflexivity.
  - destruct Hopen as (Hb' & Hob' & Hrun').
    assert (c = spec.STRONG) as -> by (rewrite <- Hlast; apply Hrun'; lia).
    rewrite (Hsame b' Hb' Hob' Hrun'). reflexivity.
Qed.

(** A step keeps the closed periods. *)
Lemma closedOf_step (ind : Z) (m : spec.machine) (c : spec.Class)
    (p : eventPeriod) :
  p ∈ inv.closedOf c m ->
  p ∈ inv.closedOf c (spec.step data mean strongLimit weakLimit ind m).
Proof.
  intros Hp. unfold spec.step.
  destruct (spec.table (spec.open m) (classAt ind) ind)
    as [[[[|] b]|] next]; destruct c; simpl in *;
    try exact Hp; apply elem_of_app; left; exact Hp.
Qed.

Lemma closes_step (ind : Z) (m : spec.machine) :
  0 <= ind < Z.of_nat (length data) ->
  inv.runs data mean strongLimit weakLimit ind m ->
  inv.closes data mean strongLimit weakLimit ind m ->
  inv.closes data mean strongLimit weakLimit (ind + 1)
    (spec.step data mean strongLimit weakLimit ind m).
Proof.
  intros Hind Hruns Hcloses c b i Hb Hi Hob Hrun Hc.
  destruct (Z.eq_dec i ind) as [->|Hne].
  - pose proof (runs_open ind m c b Hruns Hb Hob Hrun) as Hopen.
    destruct Hob as (Hn & _ & _).
    unfold spec.step. rewrite Hopen.
    destruct c; [contradiction| |];
      destruct (classAt ind); try contradiction; simpl;
      apply elem_of_app; right; apply list_elem_of_singleton; reflexivity.
  - apply closedOf_step. apply (Hcloses c b i); try assumption. lia.
Qed.

Lemma closes_run (n : nat) (ind : Z) (m : spec.machine) :
  0 <= ind -> ind + Z.of_nat n <= Z.of_nat (length data) ->
  inv.runs data mean strongLimit weakLimit ind m ->
  inv.closes data mean strongLimit weakLimit ind m ->
  inv.closes data mean strongLimit weakLimit (ind + Z.of_nat n)
    (spec.run data mean strongLimit weakLimit n ind m).
Proof.
  revert ind m. induction n as [|n IH]; intros ind m Hlo Hhi Hruns Hcloses.
  - simpl. rewrite Z.add_0_r. exact Hcloses.
  - simpl spec.run.
    replace (ind + Z.of_nat (S n)) with (ind + 1 + Z.of_nat n) by lia.
    apply IH; [lia|lia| |].
    + apply runs_step; [lia|exact Hruns].
    + apply closes_step; [lia|exact Hruns|exact Hcloses].
Qed.

End RunsOfSamples.

(** A run that a later sample ended has its period among the closed
    ones. *)
Lemma interiorClose_closed (data : list collector.TimeStepData)
    (mean strongLimit weakLimit : float) (m : spec.machine)
    (c : spec.Class) (p : eventPeriod) :
  inv.closes data mean strongLimit weakLimit (Z.of_nat (length data)) m ->
  spec.interiorClose data mean strongLimit weakLimit c p ->
  p ∈ inv.closedOf c m.
Proof.
  intros Hcloses (b & i & xb & xi & Hxb & Hxi & Hlt & Hob & Hrun & Hc & ->).
  pose proof (index_Some _ _ _ Hxb) as Hb.
  pose proof (index_Some _ _ _ Hxi) as Hi.
  rewrite <- (tsAt_index _ _ _ Hxb), <- (tsAt_index _ _ _ Hxi).
  apply Hcloses; try assumption; lia.
Qed.

(** A run that reaches the last sample is the open one. *)
Lemma finalClose_open (data : list collector.TimeStepData)
    (mean strongLimit weakLimit : float) (PeriodEnd : time.Time)
    (m : spec.machine) (c : spec.Class) (p : eventPeriod) :
  inv.runs data mean strongLimit weakLimit (Z.of_nat (length data)) m ->
  spec.finalClose data mean strongLimit weakLimit PeriodEnd c p ->
  exists b,
    spec.open m =
    match c with
    | spec.WEAK => spec.WeakOpen b
    | spec.STRONG => spec.StrongOpen b
    | spec.NORMAL => spec.NoneOpen
    end /\
    p = {| outlierPeriodStart := spec.tsAt data b;
           outlierPeriodEnd := PeriodEnd |}.
Proof.
  intros Hruns (b & xb & Hxb & Hob & Hrun & ->).
  pose proof (index_Some _ _ _ Hxb) as Hb.
  exists b. rewrite (tsAt_index _ _ _ Hxb). split; [|reflexivity].
  apply (runs_open data mean strongLimit weakLimit _ m c b Hruns Hb Hob Hrun).
Qed.

(** C1: the call returns two lists in which every period closed during the
    pass is the period of a run of equally classified outliers: it starts
    at the timestamp of the sample at the index where the run opened and
    ends at the timestamp of the first sample after the run, the one that
    closed it. At most one period, the last of its list, was still open
    after the last sample: it starts at the timestamp of the sample where
    its run opened and ends at [PeriodEnd], whatever instant that is.
    Nothing is left out: every run of weak (strong) outliers that a later
    sample ended has its period among the warnings (alarms), and a run of
    weak (strong) outliers that reaches the last sample has its period,
    which ends at [PeriodEnd], as the last warning (alarm). *)
Theorem C1_period_bounds (data : list collector.TimeStepData)
    (PeriodEnd : time.Time)
    (outliersMultiplier strongOutliersMultiplier : float) :
  let mean := (baseline data).1 in
  let strongLimit := (strongOutliersMultiplier * (baseline data).2)%float in
  let weakLimit := (outliersMultiplier * (baseline data).2)%float in
  let interior := spec.interiorClose data mean strongLimit weakLimit in
  let final := spec.finalClose data mean strongLimit weakLimit PeriodEnd in
  exists ws als,
    detectOutliers3Sigmas data PeriodEnd outliersMultiplier
      strongOutliersMultiplier = Some (ws, als) /\
    ((Forall (interior spec.WEAK) ws /\ Forall (interior spec.STRONG) als) \/
     (exists ws' p,
        ws = ws' ++ [p] /\ final spec.WEAK p /\
        Forall (interior spec.WEAK) ws' /\
        Forall (interior spec.STRONG) als) \/
     (exists als' p,
        als = als' ++ [p] /\ final spec.STRONG p /\
        Forall (interior spec.WEAK) ws /\
        Forall (interior spec.STRONG) als')) /\
    (forall p, interior spec.WEAK p -> p ∈ ws) /\
    (forall p, interior spec.STRONG p -> p ∈ als) /\
    (forall p, final spec.WEAK p -> last ws = Some p) /\
    (forall p, final spec.STRONG p -> last als = Some p).
Proof.
  intros mean strongLimit weakLimit interior final.
  rewrite detect_run. fold mean strongLimit weakLimit.
  assert (Hstart : inv.runs data mean strongLimit weakLimit 0 spec.start)
    by (repeat split; try constructor; reflexivity).
  pose proof (runs_run data mean strongLimit weakLimit (length data) 0
                spec.start ltac:(lia) ltac:(lia) Hstart) as Hinv.
  pose proof (closes_run data mean strongLimit weakLimit (length data) 0
                spec.start ltac:(lia) ltac:(lia) Hstart
                ltac:(intros c b i Hb Hi; lia)) as Hcloses.
  rewrite Z.add_0_l in Hinv, Hcloses.
  set (m := spec.run data mean strongLimit weakLimit (length data) 0
              spec.start) in *.
  pose proof (fun c p =>
                interiorClose_closed data mean strongLimit weakLimit m c p
                  Hcloses) as Hinterior.
  pose proof (fun c p =>
                finalClose_open data mean strongLimit weakLimit PeriodEnd m
                  c p Hinv) as Hfinal.
  destruct Hinv as (Hws & Has & Hopen).
  unfold spec.finish, spec.close.
  destruct (spec.open m) as [|b|b]; simpl.
  - exists (spec.closedWarnings m), (spec.closedAlarms m).
    split; [reflexivity|]. split; [left; split; assumption|].
    split; [exact (Hinterior spec.WEAK)|].
    split; [exact (Hinterior spec.STRONG)|].
    split; intros p Hp; apply Hfinal in Hp; destruct Hp as (b & Hb & _);
      discriminate.
  - destruct Hopen as (Hb & Hob & Hrun).
    destruct (index_lt data b) as [xb Hxb]; [lia|].
    eexists. exists (spec.closedAlarms m). split; [reflexivity|].
    split; [|split; [|split; [|split]]].
    + right. left. eexists. eexists. split; [reflexivity|].
      split; [|split; assumption].
      exists b, xb. rewrite (tsAt_index _ _ _ Hxb). auto.
    + intros p Hp. apply elem_of_app. left.
      exact (Hinterior spec.WEAK p Hp).
    + exact (Hinterior spec.STRONG).
    + intros p Hp. apply Hfinal in Hp. destruct Hp as (b' & Hb' & ->).
      injection Hb' as <-. apply last_snoc.
    + intros p Hp. apply Hfinal in Hp. destruct Hp as (b' & Hb' & _).
      discriminate.
  - destruct Hopen as (Hb & Hob & Hrun).
    destruct (index_lt data b) as [xb Hxb]; [lia|].
    exists (spec.closedWarnings m). eexists. split; [reflexivity|].
    split; [|split; [|split; [|split]]].
    + right. right. eexists. eexists. split; [reflexivity|].
      split; [|split; assumption].
      exists b, xb. rewrite (tsAt_index _ _ _ Hxb). auto.
    + exact (Hinterior spec.WEAK).
    + intros p Hp. apply elem_of_app. left.
      exact (Hinterior spec.STRONG p Hp).
    + intros p Hp. apply Hfinal in Hp. destruct Hp as (b' & Hb' & _).
      discriminate.
    + intros p Hp. apply Hfinal in Hp. destruct Hp as (b' & Hb' & ->).
      injection Hb' as <-. apply last_snoc.
Qed.

(** ** Order and disjointness of the periods *)

Lemma chained_nil : inv.chained [].
Proof. intros i j p q _ Hp. rewrite lookup_nil in Hp. discriminate. Qed.

Lemma chained_snoc (l : list eventPeriod) (p : eventPeriod) :
  inv.chained l ->
  (forall q, q ∈ l -> outlierPeriodEnd q <= outlierPeriodStart p) ->
  inv.chained (l ++ [p]).
Proof.
  intros Hl Hp i j a b Hij Ha Hb.
  apply lookup_app_Some in Ha. apply lookup_app_Some in Hb.
  destruct Hb as [Hb|[Hlen Hb]].
  - destruct Ha as [Ha|[Hlen' Ha]].
    + exact (Hl i j a b Hij Ha Hb).
    + apply lookup_lt_Some in Hb. lia.
  - destruct Ha as [Ha|[Hlen' Ha]].
    + apply list_lookup_singleton_Some in Hb. destruct Hb as [_ <-].
      apply Hp. exact (list_elem_of_lookup_2 _ _ _ Ha).
    + apply list_lookup_singleton_Some in Ha.
      apply list_lookup_singleton_Some in Hb. lia.
Qed.

Lemma chained_sorted (l : list eventPeriod) :
  inv.chained l -> Forall spec.wellFormed l ->
  StronglySorted spec.startsBefore l.
Proof.
  induction l as [|a l IH]; intros Hl Hwf.
  - constructor.
  - apply Forall_cons in Hwf. destruct Hwf as [Ha Hwf]. constructor.
    + apply IH; [|exact Hwf].
      intros i j p q Hij Hp Hq. exact (Hl (S i) (S j) p q ltac:(lia) Hp Hq).
    + apply Forall_lookup. intros k q Hq.
      unfold spec.startsBefore, spec.wellFormed in *.
      pose proof (Hl 0%nat (S k) a q ltac:(lia) eq_refl Hq). lia.
Qed.

Lemma chained_disjoint (l : list eventPeriod) (i j : nat)
    (p q : eventPeriod) :
  inv.chained l -> i <> j -> l !! i = Some p -> l !! j = Some q ->
  spec.disjoint p q.
Proof.
  intros Hl Hij Hp Hq. unfold spec.disjoint.
  destruct (Nat.lt_ge_cases i j) as [Hlt|Hge].
  - left. exact (Hl i j p q Hlt Hp Hq).
  - right. exact (Hl j i q p ltac:(lia) Hq Hp).
Qed.

Lemma disjoint_sym (p q : eventPeriod) :
  spec.disjoint p q -> spec.disjoint q p.
Proof. unfold spec.disjoint. tauto. Qed.

Lemma apart_pairwiseDisjoint (ws als : list eventPeriod) :
  inv.chained ws -> inv.chained als -> inv.apart ws als ->
  spec.pairwiseDisjoint (ws ++ als).
Proof.
  intros Hws Hals Hap i j p q Hij Hp Hq.
  apply lookup_app_Some in Hp. apply lookup_app_Some in Hq.
  destruct Hp as [Hp|[Hi Hp]], Hq as [Hq|[Hj Hq]].
  - exact (chained_disjoint ws i j p q Hws Hij Hp Hq).
  - apply Hap; eapply list_elem_of_lookup_2; eassumption.
  - apply disjoint_sym.
    apply Hap; eapply list_elem_of_lookup_2; eassumption.
  - apply (chained_disjoint als (i - length ws) (j - length ws) p q Hals);
      [lia|assumption|assumption].
Qed.

Section OrderOfPeriods.

Variable data : list collector.TimeStepData.
Variables mean strongLimit weakLimit : float.
Variables lo hi : time.Time.

Hypothesis Hinc : spec.increasing data.
Hypothesis Hin : spec.samplesWithin lo hi data.

(** A row of the table that closes nothing. *)
Lemma ordered_keep (ind : Z) (o next : spec.Open)
    (ws als : list eventPeriod) :
  inv.ordered data lo hi ind
    {| spec.open := o; spec.closedWarnings := ws;
       spec.closedAlarms := als |} ->
  inv.uncovered ind o <= inv.uncovered (ind + 1) next ->
  sim.openBelow (ind + 1) next ->
  inv.ordered data lo hi (ind + 1)
    {| spec.open := next; spec.closedWarnings := ws;
       spec.closedAlarms := als |}.
Proof using Type.
  intros (F & Hall & Hws & Hals & Hap & Hfront & _) Hun Hbelow.
  exists F. simpl in *. repeat split; try assumption.
  intros j x Hj Hx. apply (Hfront j x); [lia|exact Hx].
Qed.

(** A row of the table that closes the period opened at [b]. *)
Lemma ordered_close (ind b : Z) (o next : spec.Open) (sev : spec.Severity)
    (ws als : list eventPeriod) :
  0 <= ind < Z.of_nat (length data) ->
  inv.ordered data lo hi ind
    {| spec.open := o; spec.closedWarnings := ws;
       spec.closedAlarms := als |} ->
  inv.uncovered ind o = b -> 0 <= b < ind ->
  ind <= inv.uncovered (ind + 1) next ->
  sim.openBelow (ind + 1) next ->
  inv.ordered data lo hi (ind + 1)
    (spec.close data
       {| spec.open := o; spec.closedWarnings := ws;
          spec.closedAlarms := als |} sev b (spec.tsAt data ind) next).
Proof using Hinc Hin.
  intros Hind (F & Hall & Hws & Hals & Hap & Hfront & _) Hun Hb Hnext Hbelow.
  simpl in *.
  destruct (index_lt data ind) as [x Hx]; [lia|].
  destruct (index_lt data b) as [xb Hxb]; [lia|].
  rewrite (tsAt_index _ _ _ Hx).
  assert (HF : F <= collector.DateStart xb)
    by (apply (Hfront b xb); [lia|exact Hxb]).
  assert (Hlt : collector.DateStart xb < collector.DateStart x)
    by (apply (Hinc b ind xb x); [lia|exact Hxb|exact Hx]).
  pose proof (Hin b xb Hxb) as Hinb. pose proof (Hin ind x Hx) as Hinx.
  rewrite Forall_forall in Hall.
  assert (Hold : forall q, q ∈ ws ++ als ->
                           outlierPeriodEnd q <= collector.DateStart xb).
  { intros q Hq. destruct (Hall q Hq) as (_ & _ & HqF & _). lia. }
  assert (Hfront' : forall j y,
             inv.uncovered (ind + 1) next <= j -> index data j = Some y ->
             collector.DateStart x <= collector.DateStart y).
  { intros j y Hj Hy. destruct (Z.eq_dec j ind) as [->|Hne].
    - rewrite Hx in Hy. injection Hy as <-. lia.
    - pose proof (Hinc ind j x y ltac:(lia) Hx Hy). lia. }
  exists (collector.DateStart x).
  destruct sev; unfold spec.close; simpl;
    rewrite (tsAt_index _ _ _ Hxb).
  - split; [|split; [|split; [|split; [|split]]]];
      try assumption.
    + rewrite Forall_forall. intros q Hq.
      rewrite <- app_assoc in Hq. apply elem_of_app in Hq.
      destruct Hq as [Hq|Hq]; [|apply elem_of_app in Hq; destruct Hq as [Hq|Hq]].
      * destruct (Hall q) as (? & ? & ? & ?);
          [apply elem_of_app; left; exact Hq|]. lia.
      * apply list_elem_of_singleton in Hq. subst q. simpl. lia.
      * destruct (Hall q) as (? & ? & ? & ?);
          [apply elem_of_app; right; exact Hq|]. lia.
    + apply chained_snoc; [exact Hws|]. intros q Hq. simpl.
      apply Hold. apply elem_of_app. left. exact Hq.
    + intros p q Hp Hq. apply elem_of_app in Hp.
      destruct Hp as [Hp|Hp]; [exact (Hap p q Hp Hq)|].
      apply list_elem_of_singleton in Hp. subst p.
      right. simpl. apply Hold. apply elem_of_app. right. exact Hq.
  - split; [|split; [|split; [|split; [|split]]]];
      try assumption.
    + rewrite Forall_forall. intros q Hq.
      rewrite app_assoc in Hq. apply elem_of_app in Hq.
      destruct Hq as [Hq|Hq].
      * destruct (Hall q Hq) as (? & ? & ? & ?). lia.
      * apply list_elem_of_singleton in Hq. subst q. simpl. lia.
    + apply chained_snoc; [exact Hals|]. intros q Hq. simpl.
      apply Hold. apply elem_of_app. right. exact Hq.
    + intros p q Hp Hq. apply elem_of_app in Hq.
      destruct Hq as [Hq|Hq]; [exact (Hap p q Hp Hq)|].
      apply list_elem_of_singleton in Hq. subst q.
      left. simpl. apply Hold. apply elem_of_app. left. exact Hp.
Qed.

Lemma ordered_step (ind : Z) (m : spec.machine) :
  0 <= ind < Z.of_nat (length data) ->
  inv.ordered data lo hi ind m ->
  inv.ordered data lo hi (ind + 1)
    (spec.step data mean strongLimit weakLimit ind m).
Proof using Hinc Hin.
  intros Hind Hord. destruct m as [o ws als].
  assert (Hbelow : sim.openBelow ind o)
    by (destruct Hord as (F & _ & _ & _ & _ & _ & Hb); exact Hb).
  unfold spec.step. simpl spec.open.
  destruct o as [|b|b];
    destruct (spec.classAt data mean strongLimit weakLimit ind);
    simpl spec.table; cbv iota beta;
    first [ apply (ordered_keep ind _ _ ws als Hord); simpl in *; lia
          | apply (ordered_close ind b _ _ _ ws als Hind Hord);
            simpl in *; (reflexivity || lia || exact I) ].
Qed.

Lemma ordered_run (n : nat) (ind : Z) (m : spec.machine) :
  0 <= ind -> ind + Z.of_nat n <= Z.of_nat (length data) ->
  inv.ordered data lo hi ind m ->
  inv.ordered data lo hi (ind + Z.of_nat n)
    (spec.run data mean strongLimit weakLimit n ind m).
Proof using Hinc Hin.
  revert ind m. induction n as [|n IH]; intros ind m Hlo Hhi Hord.
  - simpl. rewrite Z.add_0_r. exact Hord.
  - simpl spec.run.
    replace (ind + Z.of_nat (S n)) with (ind + 1 + Z.of_nat n) by lia.
    apply IH; [lia|lia|]. apply ordered_step; [lia|exact Hord].
Qed.

Lemma ordered_start : inv.ordered data lo hi 0 spec.start.
Proof using Hin.
  exists lo. simpl. repeat split.
  - constructor.
  - exact chained_nil.
  - exact chained_nil.
  - intros p q Hp. apply elem_of_nil in Hp. contradiction.
  - intros j x _ Hx. apply (Hin j x Hx).
Qed.

End OrderOfPeriods.

(** The sample at index [i] of a test series starts at [dateStart i]. *)
Lemma series_index (dateStart : nat -> time.Time) (values : list float)
    (i : Z) (x : collector.TimeStepData) :
  index (testdata.series dateStart values) i = Some x ->
  0 <= i < Z.of_nat (length values) /\
  collector.DateStart x = dateStart (Z.to_nat i).
Proof.
  intros Hx. pose proof (index_Some _ _ _ Hx) as Hi.
  unfold testdata.series in *. rewrite length_imap in Hi.
  split; [exact Hi|].
  unfold index in Hx. destruct (Z.ltb_spec i 0); [discriminate|].
  rewrite list_lookup_imap in Hx.
  destruct (values !! Z.to_nat i); [|discriminate].
  injection Hx as <-. reflexivity.
Qed.

(** C7: when the sample timestamps are strictly increasing and lie within
    [seriesStart, seriesEnd], and the boundary is [seriesEnd], the call
    returns two lists such that any two periods of the two lists together
    have disjoint ranges [start, end) (those closed during the pass and the
    one closed at the boundary alike), each list is in non-decreasing start
    order, every period has start <= end, and every period lies within
    [seriesStart, seriesEnd]. *)
Theorem C7_period_invariants (data : list collector.TimeStepData)
    (seriesStart seriesEnd : time.Time)
    (outliersMultiplier strongOutliersMultiplier : float) :
  spec.increasing data ->
  spec.samplesWithin seriesStart seriesEnd data ->
  exists ws als,
    detectOutliers3Sigmas data seriesEnd outliersMultiplier
      strongOutliersMultiplier = Some (ws, als) /\
    spec.pairwiseDisjoint (ws ++ als) /\
    StronglySorted spec.startsBefore ws /\
    StronglySorted spec.startsBefore als /\
    Forall spec.wellFormed (ws ++ als) /\
    Forall (spec.within seriesStart seriesEnd) (ws ++ als).
Proof.
  intros Hinc Hin. rewrite detect_run.
  set (mean := (baseline data).1).
  set (strongLimit := (strongOutliersMultiplier * (baseline data).2)%float).
  set (weakLimit := (outliersMultiplier * (baseline data).2)%float).
  pose proof (ordered_run data mean strongLimit weakLimit seriesStart
                seriesEnd Hinc Hin (length data) 0 spec.start
                ltac:(lia) ltac:(lia) (ordered_start data _ _ Hin)) as Hord.
  rewrite Z.add_0_l in Hord.
  set (m := spec.run data mean strongLimit weakLimit (length data) 0
              spec.start) in *.
  destruct Hord as (F & Hall & Hws & Hals & Hap & Hfront & Hbelow).
  assert (Hpost : forall ws als,
             inv.chained ws -> inv.chained als -> inv.apart ws als ->
             Forall (fun p => seriesStart <= outlierPeriodStart p /\
                              outlierPeriodStart p <= outlierPeriodEnd p /\
                              outlierPeriodEnd p <= seriesEnd) (ws ++ als) ->
             spec.pairwiseDisjoint (ws ++ als) /\
             StronglySorted spec.startsBefore ws /\
             StronglySorted spec.startsBefore als /\
             Forall spec.wellFormed (ws ++ als) /\
             Forall (spec.within seriesStart seriesEnd) (ws ++ als)).
  { intros ws als Cws Cals Cap Call.
    assert (Hwf : Forall spec.wellFormed (ws ++ als))
      by (eapply Forall_impl; [exact Call|];
          unfold spec.wellFormed; simpl; intros p Hp; lia).
    split; [exact (apart_pairwiseDisjoint ws als Cws Cals Cap)|].
    apply Forall_app in Hwf as Hwf2. destruct Hwf2 as [Hwfw Hwfa].
    split; [exact (chained_sorted ws Cws Hwfw)|].
    split; [exact (chained_sorted als Cals Hwfa)|].
    split; [exact Hwf|].
    eapply Forall_impl; [exact Call|].
    unfold spec.within; simpl; intros p Hp; lia. }
  assert (Hweak : Forall (fun p => seriesStart <= outlierPeriodStart p /\
                                   outlierPeriodStart p <= outlierPeriodEnd p /\
                                   outlierPeriodEnd p <= seriesEnd)
                    (spec.closedWarnings m ++ spec.closedAlarms m))
    by (eapply Forall_impl; [exact Hall|]; simpl; intros p Hp; lia).
  rewrite Forall_forall in Hall.
  assert (Hlast : forall b, inv.uncovered (Z.of_nat (length data))
                              (spec.open m) = b ->
                            0 <= b < Z.of_nat (length data) ->
             (forall q, q ∈ spec.closedWarnings m ++ spec.closedAlarms m ->
                        outlierPeriodEnd q <= spec.tsAt data b) /\
             seriesStart <= spec.tsAt data b <= seriesEnd).
  { intros b Hun Hb. destruct (index_lt data b Hb) as [xb Hxb].
    rewrite (tsAt_index _ _ _ Hxb). split; [|exact (Hin b xb Hxb)].
    intros q Hq. destruct (Hall q Hq) as (_ & _ & HqF & _).
    pose proof (Hfront b xb ltac:(lia) Hxb). lia. }
  unfold spec.finish, spec.close.
  destruct (spec.open m) as [|b|b]; simpl in *.
  - eexists. eexists. split; [reflexivity|].
    apply Hpost; assumption.
  - destruct (Hlast b eq_refl Hbelow) as [Hold Hb].
    eexists. eexists. split; [reflexivity|]. apply Hpost.
    + apply chained_snoc; [exact Hws|]. intros q Hq. simpl.
      apply Hold. apply elem_of_app. left. exact Hq.
    + exact Hals.
    + intros p q Hp Hq. apply elem_of_app in Hp.
      destruct Hp as [Hp|Hp]; [exact (Hap p q Hp Hq)|].
      apply list_elem_of_singleton in Hp. subst p.
      right. simpl. apply Hold. apply elem_of_app. right. exact Hq.
    + rewrite <- app_assoc. apply Forall_app in Hweak.
      destruct Hweak as [Hw1 Hw2]. apply Forall_app. split; [exact Hw1|].
      constructor; [simpl; lia|exact Hw2].
  - destruct (Hlast b eq_refl Hbelow) as [Hold Hb].
    eexists. eexists. split; [reflexivity|]. apply Hpost.
    + exact Hws.
    + apply chained_snoc; [exact Hals|]. intros q Hq. simpl.
      apply Hold. apply elem_of_app. right. exact Hq.
    + intros p q Hp Hq. apply elem_of_app in Hq.
      destruct Hq as [Hq|Hq]; [exact (Hap p q Hp Hq)|].
      apply list_elem_of_singleton in Hq. subst q.
      left. simpl. apply Hold. apply elem_of_app. left. exact Hp.
    + rewrite app_assoc. apply Forall_app. split; [exact Hweak|].
      constructor; [simpl; lia|constructor].
Qed.

(** The reference series with sample [i] at instant [i], in the window
    [0, 30]. *)
Lemma C7_period_invariants_witness :
  exists ws als,
    detectOutliers3Sigmas (testdata.series Z.of_nat testdata.values) 30 2 3 =
      Some (ws, als) /\
    spec.pairwiseDisjoint (ws ++ als) /\
    StronglySorted spec.startsBefore ws /\
    StronglySorted spec.startsBefore als /\
    Forall spec.wellFormed (ws ++ als) /\
    Forall (spec.within 0 30) (ws ++ als).
Proof.
  apply (C7_period_invariants (testdata.series Z.of_nat testdata.values)
           0 30 2 3).
  - intros i j x y Hij Hx Hy.
    destruct (series_index _ _ _ _ Hx) as [Hi ->].
    destruct (series_index _ _ _ _ Hy) as [Hj ->]. lia.
  - intros i x Hx.
    destruct (series_index _ _ _ _ Hx) as [Hi ->].
    simpl length in Hi. lia.
Defined.

(** * Further properties *)

(** ** The report of the 3-sigmas method *)

Lemma appendEvents_map (metric attribute : string)
    (periods : list eventPeriod) (events : list OutlierEvent) :
  appendEvents metric attribute periods events =
  events ++ map (report.label metric attribute) periods.
Proof.
  unfold appendEvents. revert events.
  induction periods as [|p rest IH]; intros events; simpl.
  - rewrite app_nil_r. reflexivity.
  - rewrite IH, <- app_assoc. reflexivity.
Qed.

Lemma detect_periods (data : list collector.TimeStepData)
    (PeriodEnd : time.Time)
    (outliersMultiplier strongOutliersMultiplier : float) :
  detectOutliers3Sigmas data PeriodEnd outliersMultiplier
    strongOutliersMultiplier =
  Some (report.periods data PeriodEnd outliersMultiplier
          strongOutliersMultiplier).
Proof. unfold report.periods. rewrite detect_run. reflexivity. Qed.

Lemma withEvents_nil (res : OutlierReport) : report.withEvents res [] [] = res.
Proof.
  unfold report.withEvents. rewrite !app_nil_r.
  destruct res as [? ? ? ? ? ? ? ? [ws als]]. reflexivity.
Qed.

Lemma withEvents_app (res : OutlierReport) (w1 a1 w2 a2 : list OutlierEvent) :
  report.withEvents (report.withEvents res w1 a1) w2 a2 =
  report.withEvents res (w1 ++ w2) (a1 ++ a2).
Proof.
  unfold report.withEvents, setResult. simpl. rewrite !app_assoc.
  reflexivity.
Qed.

Section ThreeSigmasReport.

Variable siteData : collector.SiteData.
Variable methodParams : config.DetectionMethodsParams.

#[local] Abbreviation periodsOf metricData attribute :=
  (report.periods (collector.attributeData metricData attribute)
     (collector.SiteDateEnd siteData)
     (config.OutliersMultiplier (config.ThreeSigmas methodParams))
     (config.StrongOutliersMultiplier (config.ThreeSigmas methodParams))).

Lemma perAttribute_3sigmas (metricData : collector.MetricData)
    (res : OutlierReport) (logged : list string) (attribute : string) :
  OutliersDetectionMethod res = "3-sigmas" ->
  perAttribute siteData methodParams metricData (res, logged) attribute =
  Some (report.withEvents res
          (map (report.label (collector.Metric metricData) attribute)
             (periodsOf metricData attribute).1)
          (map (report.label (collector.Metric metricData) attribute)
             (periodsOf metricData attribute).2),
        logged).
Proof.
  intros Hm. unfold perAttribute. rewrite Hm. simpl String.eqb. cbv iota.
  rewrite detect_periods.
  destruct (periodsOf metricData attribute) as [ws als]. simpl.
  rewrite !appendEvents_map. reflexivity.
Qed.

Lemma perMetric_3sigmas (metricData : collector.MetricData)
    (res : OutlierReport) (logged : list string) :
  OutliersDetectionMethod res = "3-sigmas" ->
  perMetric siteData methodParams (res, logged) metricData =
  Some (report.withEvents res
          (flat_map
             (fun attribute =>
                map (report.label (collector.Metric metricData) attribute)
                  (periodsOf metricData attribute).1)
             (collector.Attributes metricData))
          (flat_map
             (fun attribute =>
                map (report.label (collector.Metric metricData) attribute)
                  (periodsOf metricData attribute).2)
             (collector.Attributes metricData)),
        logged).
Proof.
  unfold perMetric.
  generalize (collector.Attributes metricData) as attributes.
  intros attributes. revert res.
  induction attributes as [|a rest IH]; intros res Hm;
    cbn [forRange flat_map].
  - rewrite withEvents_nil. reflexivity.
  - rewrite (perAttribute_3sigmas _ _ _ _ Hm). cbn [mbind option_bind].
    rewrite IH by exact Hm. rewrite withEvents_app. reflexivity.
Qed.

Lemma metrics_3sigmas (metrics : list collector.MetricData)
    (res : OutlierReport) (logged : list string) :
  OutliersDetectionMethod res = "3-sigmas" ->
  forRange (perMetric siteData methodParams) metrics (res, logged) =
  Some (report.withEvents res
          (flat_map
             (fun metricData =>
                flat_map
                  (fun attribute =>
                     map (report.label (collector.Metric metricData)
                            attribute)
                       (periodsOf metricData attribute).1)
                  (collector.Attributes metricData)) metrics)
          (flat_map
             (fun metricData =>
                flat_map
                  (fun attribute =>
                     map (report.label (collector.Metric metricData)
                            attribute)
                       (periodsOf metricData attribute).2)
                  (collector.Attributes metricData)) metrics),
        logged).
Proof.
  revert res. induction metrics as [|m rest IH]; intros res Hm;
    cbn [forRange flat_map].
  - rewrite withEvents_nil. reflexivity.
  - rewrite (perMetric_3sigmas _ _ _ Hm). cbn [mbind option_bind].
    rewrite IH by exact Hm. rewrite withEvents_app. reflexivity.
Qed.

End ThreeSigmasReport.

(** X1: with the method "3-sigmas" GetResults returns a report for every
    site (no series makes it panic) and logs nothing; the warnings of the
    report are the warnings of every attribute of every metric, labelled
    with the metric and the attribute, in the order in which the site data
    lists the metrics and their attributes, and so are the alarms. *)
Theorem GetResults_3sigmas_report (checkStart checkEnd : time.Time)
    (siteData : collector.SiteData) (dataConf : config.Dataset)
    (methodParams : config.DetectionMethodsParams) :
  config.OutliersDetectionMethod dataConf = "3-sigmas" ->
  GetResults checkStart checkEnd siteData dataConf methodParams =
  Some ({| SiteId := collector.SiteId siteData;
           OutliersDetectionMethod := "3-sigmas";
           CheckDateStart := checkStart;
           CheckDateEnd := checkEnd;
           TimeAgo := config.TimeAgo dataConf;
           TimeStep := config.TimeStep dataConf;
           DateStart := collector.SiteDateStart siteData;
           DateEnd := collector.SiteDateEnd siteData;
           Result :=
             {| Warnings := report.events fst siteData methodParams;
                Alarms := report.events snd siteData methodParams |} |},
        []).
Proof.
  intros Hm. unfold GetResults. rewrite Hm.
  rewrite metrics_3sigmas by reflexivity.
  cbn [mbind option_bind]. unfold report.withEvents, setResult,
    setCheckDateEnd, report.events. simpl. reflexivity.
Qed.

Lemma GetResults_3sigmas_report_witness :
  GetResults 7 9 datamodel.site (datamodel.dataset "3-sigmas")
    datamodel.params =
  Some ({| SiteId := "site-1"; OutliersDetectionMethod := "3-sigmas";
           CheckDateStart := 7; CheckDateEnd := 9;
           TimeAgo := "30d"; TimeStep := "1d";
           DateStart := 0; DateEnd := 30;
           Result :=
             {| Warnings := report.events fst datamodel.site datamodel.params;
                Alarms := report.events snd datamodel.site datamodel.params
             |} |},
        []).
Proof.
  refine (GetResults_3sigmas_report 7 9 datamodel.site
            (datamodel.dataset "3-sigmas") datamodel.params _).
  reflexivity.
Defined.

(** The periods of a series in time order lie in the window that its
    samples lie in, when the boundary is the end of the window. *)
Lemma periods_within (data : list collector.TimeStepData)
    (lo hi : time.Time)
    (outliersMultiplier strongOutliersMultiplier : float) :
  spec.increasing data -> spec.samplesWithin lo hi data ->
  Forall (fun p => lo <= outlierPeriodStart p /\
                   outlierPeriodStart p <= outlierPeriodEnd p /\
                   outlierPeriodEnd p <= hi)
    ((report.periods data hi outliersMultiplier strongOutliersMultiplier).1
     ++
     (report.periods data hi outliersMultiplier strongOutliersMultiplier).2).
Proof.
  intros Hinc Hin. unfold report.periods. rewrite detect_run.
  cbn [default from_option id].
  set (mean := (baseline data).1).
  set (strongLimit := (strongOutliersMultiplier * (baseline data).2)%float).
  set (weakLimit := (outliersMultiplier * (baseline data).2)%float).
  pose proof (ordered_run data mean strongLimit weakLimit lo hi Hinc Hin
                (length data) 0 spec.start ltac:(lia) ltac:(lia)
                (ordered_start data _ _ Hin)) as Hord.
  rewrite Z.add_0_l in Hord.
  set (m := spec.run data mean strongLimit weakLimit (length data) 0
              spec.start) in *.
  destruct Hord as (F & Hall & _ & _ & _ & _ & Hbelow).
  assert (Hclosed : Forall (fun p => lo <= outlierPeriodStart p /\
                                     outlierPeriodStart p <= outlierPeriodEnd p /\
                                     outlierPeriodEnd p <= hi)
                      (spec.closedWarnings m ++ spec.closedAlarms m))
    by (eapply Forall_impl; [exact Hall|]; simpl; intros p Hp; lia).
  assert (Hlast : forall b, 0 <= b < Z.of_nat (length data) ->
                            lo <= spec.tsAt data b <= hi).
  { intros b Hb. destruct (index_lt data b Hb) as [xb Hxb].
    rewrite (tsAt_index _ _ _ Hxb). exact (Hin b xb Hxb). }
  unfold spec.finish, spec.close.
  destruct (spec.open m) as [|b|b]; simpl in *.
  - exact Hclosed.
  - pose proof (Hlast b Hbelow). rewrite <- app_assoc.
    apply Forall_app in Hclosed. destruct Hclosed as [H1 H2].
    apply Forall_app. split; [exact H1|].
    constructor; [simpl; lia|exact H2].
  - pose proof (Hlast b Hbelow). rewrite app_assoc.
    apply Forall_app. split; [exact Hclosed|].
    constructor; [simpl; lia|constructor].
Qed.

(** X2: with the method "3-sigmas", when every series that the site lists
    has strictly increasing timestamps within the collection window
    [DateStart, DateEnd] of the site, every warning and every alarm of the
    report satisfies DateStart <= start <= end <= DateEnd and carries the
    name of a metric of the site and one of that metric's attributes. *)
Theorem GetResults_3sigmas_events_in_window
    (checkStart checkEnd : time.Time)
    (siteData : collector.SiteData) (dataConf : config.Dataset)
    (methodParams : config.DetectionMethodsParams) :
  config.OutliersDetectionMethod dataConf = "3-sigmas" ->
  report.wellTimed siteData ->
  exists res,
    GetResults checkStart checkEnd siteData dataConf methodParams =
      Some (res, []) /\
    Forall (report.eventOf siteData)
      (Warnings (Result res) ++ Alarms (Result res)).
Proof.
  intros Hm Htimed. unfold GetResults. rewrite Hm.
  rewrite metrics_3sigmas by reflexivity.
  cbn [mbind option_bind]. eexists. split; [reflexivity|].
  cbn [setCheckDateEnd report.withEvents setResult Result Warnings Alarms
       app].
  assert (Hev : forall pick : list eventPeriod * list eventPeriod ->
                              list eventPeriod,
             (forall ps p, p ∈ pick ps -> p ∈ ps.1 ++ ps.2) ->
             Forall (report.eventOf siteData)
               (report.events pick siteData methodParams)).
  { intros pick Hpick. apply Forall_forall. intros e He.
    unfold report.events in He.
    apply list_elem_of_In, in_flat_map in He.
    destruct He as (metricData & HmIn & He).
    apply in_flat_map in He. destruct He as (attribute & HaIn & He).
    apply in_map_iff in He. destruct He as (p & <- & Hp).
    apply list_elem_of_In in HmIn, HaIn, Hp.
    destruct (Htimed metricData attribute HmIn HaIn) as [Hinc Hin].
    pose proof (periods_within _ _ _
                  (config.OutliersMultiplier
                     (config.ThreeSigmas methodParams))
                  (config.StrongOutliersMultiplier
                     (config.ThreeSigmas methodParams)) Hinc Hin) as Hall.
    rewrite Forall_forall in Hall.
    destruct (Hall p (Hpick _ _ Hp)) as (H1 & H2 & H3).
    unfold report.eventOf. simpl.
    repeat split; try assumption.
    exists metricData. auto. }
  apply Forall_app. split.
  - apply (Hev fst). intros ps p Hp. apply elem_of_app. left. exact Hp.
  - apply (Hev snd). intros ps p Hp. apply elem_of_app. right. exact Hp.
Qed.

Lemma site_wellTimed : report.wellTimed datamodel.site.
Proof.
  intros metricData attribute Hm Ha.
  apply list_elem_of_singleton in Hm. subst metricData.
  apply list_elem_of_singleton in Ha. subst attribute.
  assert (Hdata : collector.attributeData
                    {| collector.Metric := "visits";
                       collector.Unit := "count";
                       collector.Attributes := ["Total"];
                       collector.AttributeData :=
                         {[ "Total" :=
                              testdata.series Z.of_nat testdata.values ]} |}
                    "Total" = testdata.series Z.of_nat testdata.values).
  { unfold collector.attributeData. simpl.
    rewrite lookup_singleton_eq. reflexivity. }
  rewrite Hdata. split.
  - intros i j x y Hij Hx Hy.
    destruct (series_index _ _ _ _ Hx) as [Hi ->].
    destruct (series_index _ _ _ _ Hy) as [Hj ->]. lia.
  - intros i x Hx.
    destruct (series_index _ _ _ _ Hx) as [Hi ->].
    simpl length in Hi. simpl. lia.
Qed.

Lemma GetResults_3sigmas_events_in_window_witness :
  exists res,
    GetResults 7 9 datamodel.site (datamodel.dataset "3-sigmas")
      datamodel.params = Some (res, []) /\
    Forall (report.eventOf datamodel.site)
      (Warnings (Result res) ++ Alarms (Result res)).
Proof.
  exact (GetResults_3sigmas_events_in_window 7 9 datamodel.site
           (datamodel.dataset "3-sigmas") datamodel.params eq_refl
           site_wellTimed).
Defined.

(** ** No outlier sample is left out *)

Section Completeness.

Variable data : list collector.TimeStepData.
Variables mean strongLimit weakLimit : float.

#[local] Abbreviation classAt' :=
  (spec.classAt data mean strongLimit weakLimit).
#[local] Abbreviation step' := (spec.step data mean strongLimit weakLimit).

(** The closed lists only grow. *)
Lemma listOf_step (c : spec.Class) (ind : Z) (m : spec.machine)
    (p : eventPeriod) :
  p ∈ cover.listOf c (spec.closedWarnings m) (spec.closedAlarms m) ->
  p ∈ cover.listOf c (spec.closedWarnings (step' ind m))
        (spec.closedAlarms (step' ind m)).
Proof.
  unfold spec.step.
  destruct (spec.table (spec.open m) (classAt' ind) ind)
    as [[[[|] b]|] next]; destruct c; simpl; intros Hp;
    try exact Hp; apply elem_of_app; left; exact Hp.
Qed.

Lemma complete_step (ind : Z) (m : spec.machine) :
  0 <= ind < Z.of_nat (length data) ->
  inv.runs data mean strongLimit weakLimit ind m ->
  cover.complete data mean strongLimit weakLimit ind m ->
  cover.complete data mean strongLimit weakLimit (ind + 1) (step' ind m).
Proof.
  intros Hind (_ & _ & Hopen) Hcomp i Hi Hc.
  destruct (Z.eq_dec i ind) as [->|Hne].
  - (* the sample just read opens or continues a period of its class *)
    right. unfold spec.step.
    destruct (spec.open m) as [|b|b];
      destruct (classAt' ind); try contradiction; simpl;
      try destruct Hopen as (Hb & _ & _);
      eexists; (split; [reflexivity|lia]).
  - destruct (Hcomp i ltac:(lia) Hc) as [(p & Hp & Hin)|(b & Hb & Hbi)].
    + left. exists p. split; [apply listOf_step; exact Hp|exact Hin].
    + (* [i] lies in the open period: it goes on or it is closed here *)
      assert (Hrun : spec.runOf data mean strongLimit weakLimit
                       (classAt' i) b ind /\ 0 <= b < ind).
      { destruct (spec.open m) as [|b'|b']; destruct (classAt' i);
          simpl in Hb; try discriminate; injection Hb as ->;
          destruct Hopen as (Hb' & _ & Hrun); auto. }
      destruct Hrun as [Hrun Hb'].
      destruct (index_lt data b) as [xb Hxb]; [lia|].
      destruct (index_lt data ind Hind) as [x Hx].
      assert (Hclosed : cover.inClosed data mean strongLimit weakLimit
                          (classAt' i) i
                          {| outlierPeriodStart := spec.tsAt data b;
                             outlierPeriodEnd := spec.tsAt data ind |}).
      { exists b, ind, xb, x.
        rewrite (tsAt_index _ _ _ Hxb), (tsAt_index _ _ _ Hx).
        repeat split; try assumption; lia. }
      unfold spec.step.
      destruct (spec.open m) as [|b'|b']; destruct (classAt' i);
        simpl in Hb; try discriminate; injection Hb as ->;
        destruct (classAt' ind); simpl;
        first [ right; eexists; split; [reflexivity|lia]
              | left; eexists; split; [|exact Hclosed];
                apply elem_of_app; right; apply list_elem_of_singleton;
                reflexivity ].
Qed.

Lemma complete_run (n : nat) (ind : Z) (m : spec.machine) :
  0 <= ind -> ind + Z.of_nat n <= Z.of_nat (length data) ->
  inv.runs data mean strongLimit weakLimit ind m ->
  cover.complete data mean strongLimit weakLimit ind m ->
  cover.complete data mean strongLimit weakLimit (ind + Z.of_nat n)
    (spec.run data mean strongLimit weakLimit n ind m).
Proof.
  revert ind m. induction n as [|n IH]; intros ind m Hlo Hhi Hruns Hcomp.
  - simpl. rewrite Z.add_0_r. exact Hcomp.
  - simpl spec.run.
    replace (ind + Z.of_nat (S n)) with (ind + 1 + Z.of_nat n) by lia.
    apply IH; [lia|lia| |].
    + apply runs_step; [lia|exact Hruns].
    + apply complete_step; [lia|exact Hruns|exact Hcomp].
Qed.

End Completeness.

(** Every outlier sample lies in a period of the final lists. *)
Lemma finish_covers (data : list collector.TimeStepData)
    (mean strongLimit weakLimit : float) (PeriodEnd : time.Time)
    (i : Z) (c : spec.Class) :
  0 <= i < Z.of_nat (length data) ->
  spec.classAt data mean strongLimit weakLimit i = c ->
  c <> spec.NORMAL ->
  let result :=
    spec.finish data PeriodEnd
      (spec.run data mean strongLimit weakLimit (length data) 0
         spec.start) in
  exists p,
    p ∈ cover.listOf c result.1 result.2 /\
    (cover.inClosed data mean strongLimit weakLimit c i p \/
     cover.inLast data mean strongLimit weakLimit PeriodEnd c i p).
Proof.
  intros Hi Hclass Hc.
  assert (Hstart : inv.runs data mean strongLimit weakLimit 0 spec.start)
    by (repeat split; try constructor; reflexivity).
  pose proof (runs_run data mean strongLimit weakLimit (length data) 0
                spec.start ltac:(lia) ltac:(lia) Hstart) as Hruns.
  pose proof (complete_run data mean strongLimit weakLimit (length data) 0
                spec.start ltac:(lia) ltac:(lia) Hstart) as Hcomp.
  rewrite Z.add_0_l in Hruns, Hcomp.
  set (m := spec.run data mean strongLimit weakLimit (length data) 0
              spec.start) in *.
  destruct (Hcomp ltac:(intros j Hj; lia) i Hi ltac:(rewrite Hclass; exact Hc))
    as [(p & Hp & Hin)|(b & Hb & Hbi)]; rewrite Hclass in *.
  - (* closed during the pass: the final close keeps it *)
    unfold spec.finish, spec.close.
    destruct (spec.open m) as [|b|b]; simpl;
      exists p;
      (split; [|left; exact Hin]);
      destruct c; simpl in *; try exact Hp;
      apply elem_of_app; left; exact Hp.
  - (* still open after the last sample: closed at the boundary *)
    destruct Hruns as (_ & _ & Hopen).
    unfold spec.finish, spec.close.
    destruct (spec.open m) as [|b'|b']; destruct c; simpl in Hb;
      try discriminate; injection Hb as ->;
      destruct Hopen as (Hb' & _ & Hrun);
      destruct (index_lt data b) as [xb Hxb]; try lia;
      simpl; eexists;
      (split; [apply elem_of_app; right; apply list_elem_of_singleton;
               reflexivity|]);
      right; exists b, xb; rewrite (tsAt_index _ _ _ Hxb); auto.
Qed.

(** X3: no outlier sample is left out. When the sample at index [i] is
    classified WEAK (STRONG), the returned warnings (alarms) contain a
    period whose run of WEAK (STRONG) samples contains [i]: either a period
    closed during the pass, which starts at the timestamp of an index
    [b <= i] and ends at the timestamp of an index [e > i], or the period
    closed at the boundary, which starts at the timestamp of an index
    [b <= i] and ends at [PeriodEnd]. *)
Theorem detect_covers_outliers (data : list collector.TimeStepData)
    (PeriodEnd : time.Time)
    (outliersMultiplier strongOutliersMultiplier : float)
    (i : Z) (x : collector.TimeStepData) :
  let mean := (baseline data).1 in
  let strongLimit := (strongOutliersMultiplier * (baseline data).2)%float in
  let weakLimit := (outliersMultiplier * (baseline data).2)%float in
  let c := spec.classify mean strongLimit weakLimit (collector.Value x) in
  index data i = Some x ->
  c <> spec.NORMAL ->
  exists ws als p,
    detectOutliers3Sigmas data PeriodEnd outliersMultiplier
      strongOutliersMultiplier = Some (ws, als) /\
    p ∈ cover.listOf c ws als /\
    (cover.inClosed data mean strongLimit weakLimit c i p \/
     cover.inLast data mean strongLimit weakLimit PeriodEnd c i p).
Proof.
  intros mean strongLimit weakLimit c Hx Hc.
  rewrite detect_run. fold mean strongLimit weakLimit.
  pose proof (index_Some _ _ _ Hx) as Hi.
  assert (Hclass : spec.classAt data mean strongLimit weakLimit i = c)
    by (unfold spec.classAt; rewrite Hx; reflexivity).
  destruct (finish_covers data mean strongLimit weakLimit PeriodEnd i c
              Hi Hclass Hc) as (p & Hp & Hin).
  destruct (spec.finish data PeriodEnd
              (spec.run data mean strongLimit weakLimit (length data) 0
                 spec.start)) as [ws als].
  exists ws, als, p. split; [reflexivity|]. split; [exact Hp|exact Hin].
Qed.

(** Sample 27 of the reference series is a strong outlier. *)
Lemma detect_covers_outliers_witness :
  let data := testdata.series Z.of_nat testdata.values in
  let x := {| collector.DateStart := 27; collector.Value := 1027;
              collector.Samples := 100 |} in
  let mean := (baseline data).1 in
  let strongLimit := (3 * (baseline data).2)%float in
  let weakLimit := (2 * (baseline data).2)%float in
  exists ws als p,
    detectOutliers3Sigmas data 30 2 3 = Some (ws, als) /\
    p ∈ cover.listOf spec.STRONG ws als /\
    (cover.inClosed data mean strongLimit weakLimit spec.STRONG 27 p \/
     cover.inLast data mean strongLimit weakLimit 30 spec.STRONG 27 p).
Proof.
  intros data x mean strongLimit weakLimit.
  assert (Hc : spec.classify mean strongLimit weakLimit (collector.Value x)
               = spec.STRONG) by (vm_compute; reflexivity).
  pose proof (detect_covers_outliers data 30 2 3 27 x eq_refl) as H.
  cbv zeta in H. fold data mean strongLimit weakLimit in H.
  rewrite Hc in H. apply H. discriminate.
Defined.

(** ** A NaN among the values *)

Lemma spec_nan (x : float) : Prim2SF x = S754_nan -> x = PrimFloat.nan.
Proof.
  intros H. rewrite <- (SF2Prim_Prim2SF x), H. reflexivity.
Qed.

Lemma SFcompare_refl (s : spec_float) :
  s <> S754_nan -> SFcompare s s = Some Eq.
Proof.
  destruct s as [sa|sa| |sa ma ea]; simpl; intros Hs;
    try contradiction; try (destruct sa; reflexivity).
  rewrite Z.compare_refl, Pos.compare_cont_refl.
  destruct sa; reflexivity.
Qed.

Lemma is_nan_eq (x : float) : PrimFloat.is_nan x = true -> x = PrimFloat.nan.
Proof.
  unfold PrimFloat.is_nan. rewrite FloatAxioms.eqb_spec. unfold SFeqb.
  intros H. apply spec_nan.
  destruct (Prim2SF x) as [s|s| |s m e] eqn:Hx; try reflexivity;
    rewrite SFcompare_refl in H by discriminate; discriminate.
Qed.

Lemma add_nan_l (y : float) : (PrimFloat.nan + y)%float = PrimFloat.nan.
Proof.
  apply spec_nan. rewrite add_spec. reflexivity.
Qed.

Lemma add_nan_r (x : float) : (x + PrimFloat.nan)%float = PrimFloat.nan.
Proof.
  apply spec_nan. rewrite add_spec.
  change (Prim2SF PrimFloat.nan) with S754_nan.
  unfold SF64add, SFadd. destruct (Prim2SF x); reflexivity.
Qed.

Lemma div_nan_l (y : float) : (PrimFloat.nan / y)%float = PrimFloat.nan.
Proof.
  apply spec_nan. rewrite div_spec. reflexivity.
Qed.

Lemma sub_nan_r (x : float) : (x - PrimFloat.nan)%float = PrimFloat.nan.
Proof.
  apply spec_nan. rewrite sub_spec.
  change (Prim2SF PrimFloat.nan) with S754_nan.
  unfold SF64sub, SFsub. destruct (Prim2SF x); reflexivity.
Qed.

(** NaN is above no limit. *)
Lemma nan_not_gt (limit : float) : float64.gt PrimFloat.nan limit = false.
Proof.
  unfold float64.gt. rewrite FloatAxioms.ltb_spec.
  change (Prim2SF PrimFloat.nan) with S754_nan.
  unfold SFltb, SFcompare. destruct (Prim2SF limit) as [s|s| |s m e];
    reflexivity.
Qed.

Lemma sumLoop_nan (data : list collector.TimeStepData) :
  sumLoop data PrimFloat.nan = PrimFloat.nan.
Proof.
  induction data as [|x rest IH]; simpl.
  - reflexivity.
  - rewrite add_nan_l. exact IH.
Qed.

Lemma sumLoop_has_nan (data : list collector.TimeStepData) (sum : float)
    (x : collector.TimeStepData) :
  x ∈ data -> collector.Value x = PrimFloat.nan ->
  sumLoop data sum = PrimFloat.nan.
Proof.
  intros Hx Hv. revert sum.
  induction Hx as [x rest|x y rest Hx IH]; intros sum; simpl.
  - rewrite Hv, add_nan_r. apply sumLoop_nan.
  - apply IH. exact Hv.
Qed.

(** With a NaN mean the loop leaves the initial state as it is. *)
Lemma loop_nan_mean (data : list collector.TimeStepData)
    (strongLimit weakLimit : float) (n : nat) (ind : Z) :
  0 <= ind -> ind + Z.of_nat n <= Z.of_nat (length data) ->
  loop data PrimFloat.nan strongLimit weakLimit n ind initState =
  Some initState.
Proof.
  revert ind. induction n as [|n IH]; intros ind Hlo Hhi.
  - reflexivity.
  - destruct (index_lt data ind) as [x Hx]; [lia|].
    simpl. unfold body. rewrite Hx. simpl.
    rewrite sub_nan_r.
    change (PrimFloat.abs PrimFloat.nan) with PrimFloat.nan.
    rewrite !nan_not_gt. simpl.
    apply IH; lia.
Qed.

(** X4: one NaN among the values of a series silences the detector: the
    mean is NaN, no deviation is above a limit, and the result is two empty
    lists, whatever the other values, the multipliers and the boundary
    are. *)
Theorem detect_nan_value (data : list collector.TimeStepData)
    (PeriodEnd : time.Time)
    (outliersMultiplier strongOutliersMultiplier : float)
    (x : collector.TimeStepData) :
  x ∈ data ->
  PrimFloat.is_nan (collector.Value x) = true ->
  (baseline data).1 = PrimFloat.nan /\
  detectOutliers3Sigmas data PeriodEnd outliersMultiplier
    strongOutliersMultiplier = Some ([], []).
Proof.
  intros Hx Hnan. apply is_nan_eq in Hnan.
  assert (Hmean : (baseline data).1 = PrimFloat.nan).
  { unfold baseline. simpl.
    rewrite (sumLoop_has_nan data _ x Hx Hnan). apply div_nan_l. }
  split; [exact Hmean|].
  unfold detectOutliers3Sigmas.
  destruct (baseline data) as [mean sd]. simpl in Hmean. subst mean.
  rewrite loop_nan_mean by lia. reflexivity.
Qed.

(** A series with a huge value that a NaN hides. *)
Lemma detect_nan_value_witness :
  let sample v := {| collector.DateStart := 0; collector.Value := v;
                     collector.Samples := 100 |} in
  (baseline [sample 1%float; sample PrimFloat.nan; sample 1000%float]).1 =
    PrimFloat.nan /\
  detectOutliers3Sigmas
    [sample 1%float; sample PrimFloat.nan; sample 1000%float] 30 2 3 =
  Some ([], []).
Proof.
  intros sample.
  apply (detect_nan_value _ 30 2 3 (sample PrimFloat.nan)).
  - apply list_elem_of_In. simpl. auto.
  - reflexivity.
Defined.

(** ** Strings by index *)

Lemma app_nil_l_string (b : string) : EmptyString +:+ b = b.
Proof. reflexivity. Qed.

Lemma app_cons_string (c : ascii) (a b : string) :
  String c a +:+ b = String c (a +:+ b).
Proof. reflexivity. Qed.

Lemma string_length_app (a b : string) :
  String.length (a +:+ b) = (String.length a + String.length b)%nat.
Proof.
  induction a as [|c a IH]; [reflexivity|].
  rewrite app_cons_string. simpl. rewrite IH. reflexivity.
Qed.

Lemma string_app_assoc (a b c : string) : (a +:+ b) +:+ c = a +:+ (b +:+ c).
Proof.
  induction a as [|x a IH]; [reflexivity|].
  rewrite !app_cons_string, IH. reflexivity.
Qed.

Lemma string_app_nil_r (a : string) : a +:+ EmptyString = a.
Proof.
  induction a as [|x a IH]; [reflexivity|].
  rewrite app_cons_string, IH. reflexivity.
Qed.

Lemma get_app_r (pre s : string) (k : nat) :
  String.get (String.length pre + k) (pre +:+ s) = String.get k s.
Proof.
  induction pre as [|c pre IH]; [reflexivity|].
  rewrite app_cons_string. simpl. exact IH.
Qed.

Lemma substring_app_r (pre s : string) (n : nat) :
  String.substring (String.length pre) n (pre +:+ s) = String.substring 0 n s.
Proof.
  induction pre as [|c pre IH]; [reflexivity|].
  rewrite app_cons_string. simpl. exact IH.
Qed.

Lemma substring_prefix (a b : string) :
  String.substring 0 (String.length a) (a +:+ b) = a.
Proof.
  induction a as [|c a IH].
  - rewrite app_nil_l_string. destruct b; reflexivity.
  - rewrite app_cons_string. simpl. rewrite IH. reflexivity.
Qed.

Lemma substring_0_length (s : string) :
  String.substring 0 (String.length s) s = s.
Proof.
  induction s as [|c s IH]; simpl; [reflexivity|]. rewrite IH. reflexivity.
Qed.

(** A segment splits at any intermediate length. *)
Lemma substring_add (s : string) (i a b : nat) :
  String.substring i (a + b) s =
  String.substring i a s +:+ String.substring (i + a) b s.
Proof.
  revert i a. induction s as [|c s IH]; intros i a.
  - destruct i, a, b; reflexivity.
  - destruct i as [|i].
    + destruct a as [|a]; simpl.
      * reflexivity.
      * rewrite (IH 0%nat a), app_cons_string. reflexivity.
    + simpl. apply IH.
Qed.

Lemma substring_length (s : string) (i n : nat) :
  (i + n <= String.length s)%nat ->
  String.length (String.substring i n s) = n.
Proof.
  revert i n. induction s as [|c s IH]; intros i n Hn; simpl in Hn.
  - destruct i, n; simpl; lia.
  - destruct i as [|i]; simpl.
    + destruct n as [|n]; simpl; [reflexivity|].
      rewrite (IH 0%nat n) by lia. reflexivity.
    + apply IH. lia.
Qed.

Lemma get_Some_lt (s : string) (i : nat) (c : ascii) :
  String.get i s = Some c -> (i < String.length s)%nat.
Proof.
  revert i. induction s as [|x s IH]; intros i; simpl.
  - discriminate.
  - destruct i as [|i]; [lia|]. intros H. apply IH in H. lia.
Qed.

Lemma get_lt_Some (s : string) (i : nat) :
  (i < String.length s)%nat -> exists c, String.get i s = Some c.
Proof.
  revert i. induction s as [|x s IH]; intros i; simpl.
  - lia.
  - destruct i as [|i]; [eauto|]. intros H. apply IH. lia.
Qed.

(** The one-byte segment at [i] is the byte at [i]. *)
Lemma substring_one (s : string) (i : nat) (c : ascii) :
  String.get i s = Some c ->
  String.substring i 1 s = String c EmptyString.
Proof.
  revert i. induction s as [|x s IH]; intros i; simpl.
  - discriminate.
  - destruct i as [|i].
    + intros [= ->]. destruct s; reflexivity.
    + apply IH.
Qed.

Lemma substring_zero (s : string) (i : nat) :
  String.substring i 0 s = EmptyString.
Proof.
  revert i. induction s as [|c s IH]; intros i; destruct i; simpl;
    try reflexivity. apply IH.
Qed.

Lemma substring_two (s : string) (i : nat) (c1 c2 : ascii) :
  String.get i s = Some c1 -> String.get (S i) s = Some c2 ->
  String.substring i 2 s = String c1 (String c2 EmptyString).
Proof.
  intros H1 H2. change 2%nat with (1 + 1)%nat.
  rewrite (substring_add s i 1 1), (substring_one s i c1 H1).
  replace (i + 1)%nat with (S i) by lia.
  rewrite (substring_one s (S i) c2 H2). reflexivity.
Qed.

(** ** Numbers *)

Lemma allDigits_app (a b : string) :
  duration.allDigits (a +:+ b) =
  duration.allDigits a && duration.allDigits b.
Proof.
  induction a as [|c a IH]; [reflexivity|].
  rewrite app_cons_string. simpl. rewrite IH, andb_assoc. reflexivity.
Qed.

Lemma digits_allDigits (n : string) (acc : Z) :
  duration.allDigits n = true -> 0 <= acc ->
  exists v, strconv.digits n acc = Some v /\ 0 <= v.
Proof.
  revert acc. induction n as [|c n IH]; intros acc Hn Hacc; simpl in *.
  - eauto.
  - apply andb_true_iff in Hn. destruct Hn as [Hc Hn]. rewrite Hc.
    apply IH; [exact Hn|].
    unfold strconv.isDigit in Hc. apply andb_true_iff in Hc. lia.
Qed.

(** A digit is not a sign. *)
Lemma isDigit_not_sign (c : ascii) :
  strconv.isDigit c = true -> c <> "+"%char /\ c <> "-"%char.
Proof.
  intros Hc. split; intros ->; vm_compute in Hc; discriminate.
Qed.

(** On a string of digits ParseInt fails only on the empty string and on
    a value beyond the int64 range. *)
Lemma ParseInt_allDigits (n : string) :
  duration.allDigits n = true ->
  strconv.ParseInt n =
  match n with
  | EmptyString => None
  | _ => if duration.number n <? 2 ^ 63 then Some (duration.number n)
         else None
  end.
Proof.
  intros Hn. destruct n as [|c n]; [reflexivity|].
  destruct (digits_allDigits _ 0 Hn ltac:(lia)) as (v & Hv & Hpos).
  simpl in Hn. apply andb_true_iff in Hn. destruct Hn as [Hc _].
  destruct (isDigit_not_sign c Hc) as [Hplus Hminus].
  unfold duration.number. rewrite Hv. simpl default.
  assert (Hbody : strconv.ParseInt (String c n) =
                  v' ← strconv.digits (String c n) 0;
                  if (- 2 ^ 63 <=? v') && (v' <? 2 ^ 63) then Some v'
                  else None).
  { unfold strconv.ParseInt.
    destruct c as [[|] [|] [|] [|] [|] [|] [|] [|]];
      try reflexivity; contradiction. }
  rewrite Hbody, Hv. simpl.
  destruct (Z.leb_spec (- 2 ^ 63) v); [reflexivity|lia].
Qed.

(** ** The digit scan *)

Lemma scanDigits_spec (s : string) (fuel i : nat) :
  (i < String.length s)%nat -> (String.length s - i <= fuel)%nat ->
  (exists j c,
     utils.scanDigits s fuel i = utils.Ret j /\
     (i <= j < String.length s)%nat /\
     duration.allDigits (String.substring i (j - i) s) = true /\
     String.get j s = Some c /\ strconv.isDigit c = false) \/
  utils.scanDigits s fuel i = utils.Err (utils.invalidDuration s).
Proof.
  revert i. induction fuel as [|fuel IH]; intros i Hi Hfuel; [lia|].
  destruct (get_lt_Some s i Hi) as [c Hc].
  cbn [utils.scanDigits]. unfold utils.byteAt. rewrite Hc.
  cbn [mbind utils.outcome_bind].
  destruct (strconv.isDigit c) eqn:Hd.
  - destruct (Nat.eqb_spec (S i) (String.length s)) as [He|Hne];
      [right; reflexivity|].
    destruct (IH (S i) ltac:(lia) ltac:(lia))
      as [(j & c' & Hscan & Hj & Hall & Hget & Hnd)|Herr];
      [left|right; exact Herr].
    exists j, c'. split; [exact Hscan|]. split; [lia|].
    split; [|split; assumption].
    replace (j - i)%nat with (1 + (j - S i))%nat by lia.
    rewrite substring_add, (substring_one s i c Hc), allDigits_app.
    replace (i + 1)%nat with (S i) by lia.
    rewrite Hall. simpl. rewrite Hd. reflexivity.
  - left. exists i, c. split; [reflexivity|]. split; [lia|].
    split; [|split; assumption].
    rewrite Nat.sub_diag, substring_zero. reflexivity.
Qed.

(** ** The unit lookup *)

Lemma unitMap_Some (k : string) (v : Z) :
  utils.unitMap !! k = Some v ->
  (exists u, k = duration.unitName u /\ v = duration.unitValue u) \/
  (k = "ms" /\ v = utils.Millisecond).
Proof.
  unfold utils.unitMap. intros H. apply elem_of_list_to_map_2 in H.
  repeat (apply elem_of_cons in H; destruct H as [H|H];
          [injection H as -> ->|]).
  - left. exists duration.Uns. split; reflexivity.
  - left. exists duration.Uus. split; reflexivity.
  - right. split; reflexivity.
  - left. exists duration.Us. split; reflexivity.
  - left. exists duration.Um. split; reflexivity.
  - left. exists duration.Uh. split; reflexivity.
  - left. exists duration.Ud. split; reflexivity.
  - left. exists duration.Uw. split; reflexivity.
  - apply elem_of_nil in H. contradiction.
Qed.

Lemma unitMap_unitName (u : duration.Unit) :
  utils.unitMap !! duration.unitName u = Some (duration.unitValue u).
Proof. destruct u; vm_compute; reflexivity. Qed.

Lemma lookup2_Some (k : string) (v : Z) :
  utils.unitMap !! k = Some v -> utils.lookup2 utils.unitMap k = (v, true).
Proof. unfold utils.lookup2. intros ->. reflexivity. Qed.

Lemma lookup2_None (k : string) :
  utils.unitMap !! k = None -> utils.lookup2 utils.unitMap k = (0, false).
Proof. unfold utils.lookup2. intros ->. reflexivity. Qed.

Lemma slice_ok (s : string) (lo hi : nat) :
  (lo <= hi <= String.length s)%nat ->
  utils.slice s lo hi = utils.Ret (String.substring lo (hi - lo) s).
Proof.
  intros [H1 H2]. unfold utils.slice.
  destruct (Nat.leb_spec lo hi); [|lia].
  destruct (Nat.leb_spec hi (String.length s)); [|lia]. reflexivity.
Qed.

Lemma substring_beyond (s : string) (i n : nat) :
  (String.length s <= i)%nat -> String.substring i n s = EmptyString.
Proof.
  revert i n. induction s as [|c s IH]; intros i n Hi.
  - destruct i, n; reflexivity.
  - destruct i as [|i]; simpl in *; [lia|]. apply IH. lia.
Qed.

Lemma parseLoop_pass (s : string) (fuel index i : nat) (res : Z) (c : ascii) :
  (index < String.length s)%nat ->
  utils.scanDigits s (String.length s) index = utils.Ret i ->
  (index <= i)%nat ->
  String.get i s = Some c ->
  duration.allDigits (String.substring index (i - index) s) = true ->
  utils.parseLoop s (S fuel) index res =
  unitscan.pass s index i res (utils.parseLoop s fuel).
Proof.
  intros Hindex Hscan Hle Hc Hall.
  pose proof (get_Some_lt _ _ _ Hc) as Hi.
  cbn [utils.parseLoop].
  destruct (Nat.ltb_spec index (String.length s)) as [_|]; [|lia].
  rewrite Hscan. cbn [mbind utils.outcome_bind].
  rewrite (slice_ok s index i) by lia. cbn [mbind utils.outcome_bind].
  rewrite (ParseInt_allDigits _ Hall). unfold unitscan.pass.
  destruct (String.substring index (i - index) s) as [|d n] eqn:Hn;
    [reflexivity|].
  destruct (duration.number (String d n) <? 2 ^ 63); [|reflexivity].
  rewrite (slice_ok s i (i + 1)) by lia. cbn [mbind utils.outcome_bind].
  replace (i + 1 - i)%nat with 1%nat by lia.
  rewrite (substring_one s i c Hc).
  unfold unitscan.unitAt. rewrite (substring_one s i c Hc).
  destruct (utils.unitMap !! String c EmptyString) as [m1|] eqn:H1.
  - rewrite (lookup2_Some _ _ H1). cbn [negb andb mbind utils.outcome_bind].
    destruct (unitMap_Some _ _ H1) as [(u & Hk & ->)|[Hk _]];
      [|discriminate].
    destruct u; simpl in Hk; try discriminate; injection Hk as ->;
      simpl; replace (i + 1)%nat with (S i) by lia; reflexivity.
  - rewrite (lookup2_None _ H1).
    repeat match goal with
           | |- context [String.eqb (String c EmptyString) ?k] =>
               destruct (String.eqb_spec (String c EmptyString) k) as [E|_];
               [rewrite E in H1; vm_compute in H1; discriminate|]
           end.
    cbn [negb andb].
    destruct (Nat.ltb_spec (S i) (String.length s)) as [Hlt|Hge].
    + destruct (get_lt_Some s (S i) Hlt) as [c2 Hc2].
      rewrite (slice_ok s (S i - 1) (S i + 1)) by lia.
      cbn [mbind utils.outcome_bind].
      replace (S i - 1)%nat with i by lia.
      replace (S i + 1 - i)%nat with 2%nat by lia.
      rewrite (substring_two s i c c2 Hc Hc2).
      destruct (utils.unitMap !! String c (String c2 EmptyString))
        as [m2|] eqn:H2.
      * rewrite (lookup2_Some _ _ H2). cbn [negb mbind utils.outcome_bind].
        destruct (unitMap_Some _ _ H2) as [(u & Hk & ->)|[Hk _]].
        -- destruct u; simpl in Hk; try discriminate;
             injection Hk as -> ->; simpl;
             replace (i + 2)%nat with (S (S i)) by lia; reflexivity.
        -- injection Hk as -> ->. vm_compute in H1. discriminate.
      * rewrite (lookup2_None _ H2). cbn [negb mbind utils.outcome_bind].
        repeat match goal with
               | |- context [String.eqb ?k1 ?k] =>
                   destruct (String.eqb_spec k1 k) as [E|_];
                   [rewrite E in H2; vm_compute in H2; discriminate|]
               end.
        reflexivity.
    + cbn [mbind utils.outcome_bind negb].
      change 2%nat with (1 + 1)%nat.
      rewrite (substring_add s i 1 1), (substring_one s i c Hc),
        (substring_beyond s (i + 1) 1) by lia.
      repeat match goal with
             | |- context [String.eqb ?k1 ?k] =>
                 destruct (String.eqb_spec k1 k) as [E|_]; [discriminate|]
             end.
      reflexivity.
Qed.

Lemma substring_length_min (s : string) (i n : nat) :
  String.length (String.substring i n s) = (n `min` (String.length s - i))%nat.
Proof.
  revert i n. induction s as [|c s IH]; intros i n.
  - destruct i, n; simpl; lia.
  - destruct i as [|i]; simpl.
    + destruct n as [|n]; simpl; [reflexivity|].
      rewrite (IH 0%nat n). simpl. lia.
    + apply IH.
Qed.

(** The unit found at [i] is the segment of [s] at [i]. *)
Lemma unitAt_segment (s : string) (i : nat) (u : duration.Unit) :
  unitscan.unitAt s i = Some u ->
  (i + String.length (duration.unitName u) <= String.length s)%nat /\
  String.substring i (String.length (duration.unitName u)) s =
  duration.unitName u.
Proof.
  unfold unitscan.unitAt. intros H.
  assert (Hseg : String.substring i (String.length (duration.unitName u)) s
                 = duration.unitName u).
  { repeat match type of H with
           | (if String.eqb ?k1 ?k then _ else _) = _ =>
               destruct (String.eqb_spec k1 k) as [E|_];
               [injection H as <-; exact E|]
           end.
    discriminate. }
  split; [|exact Hseg].
  pose proof (substring_length_min s i
                (String.length (duration.unitName u))) as Hlen.
  rewrite Hseg in Hlen.
  destruct u; cbn [duration.unitName String.length] in Hlen |- *; lia.
Qed.

(** ** The outer loop *)

(** From any index, with enough passes allowed, the loop either reads the
    rest of the string as a sequence of well-formed pairs and returns
    their sum, or returns the error; it never panics and is never cut
    short. *)
Lemma parseLoop_spec (s : string) (fuel index : nat) (res : Z) :
  (index <= String.length s)%nat ->
  (String.length s - index < fuel)%nat ->
  (exists ps,
     Forall duration.wellFormed ps /\
     String.substring index (String.length s - index) s =
       duration.render ps /\
     utils.parseLoop s fuel index res = utils.Ret (duration.total ps res)) \/
  utils.parseLoop s fuel index res = utils.Err (utils.invalidDuration s).
Proof.
  revert index res.
  induction fuel as [|fuel IH]; intros index res Hindex Hfuel; [lia|].
  destruct (Nat.eq_dec index (String.length s)) as [->|Hne].
  - left. exists []. split; [constructor|].
    rewrite Nat.sub_diag, substring_zero. split; [reflexivity|].
    cbn [utils.parseLoop]. rewrite Nat.ltb_irrefl. reflexivity.
  - assert (Hlt : (index < String.length s)%nat) by lia.
    destruct (scanDigits_spec s (String.length s) index Hlt ltac:(lia))
      as [(i & c & Hscan & Hi & Hall & Hc & _)|Herr].
    + rewrite (parseLoop_pass s fuel index i res c Hlt Hscan
                 ltac:(lia) Hc Hall).
      unfold unitscan.pass.
      destruct (String.substring index (i - index) s) as [|d n] eqn:Hn;
        [right; reflexivity|].
      destruct (Z.ltb_spec (duration.number (String d n)) (2 ^ 63))
        as [Hnum|_]; [|right; reflexivity].
      destruct (unitscan.unitAt s i) as [u|] eqn:Hu;
        [|right; reflexivity].
      destruct (unitAt_segment s i u Hu) as [Hbound Hseg].
      set (i' := (i + String.length (duration.unitName u))%nat) in *.
      destruct (IH i'
                  (utils.wrap64
                     (res + utils.wrap64 (duration.number (String d n) *
                                          duration.unitValue u)))
                  Hbound ltac:(destruct u; simpl in *; lia))
        as [(ps & Hwf & Hrender & Hret)|Herr];
        [left|right; exact Herr].
      exists ((String d n, u) :: ps). split; [|split].
      * constructor; [|exact Hwf].
        repeat split; [discriminate|exact Hall|exact Hnum].
      * replace (String.length s - index)%nat
          with ((i - index) +
                (String.length (duration.unitName u) +
                 (String.length s - i')))%nat by (subst i'; lia).
        rewrite !substring_add, Hn.
        replace (index + (i - index))%nat with i by lia.
        rewrite Hseg. fold i'. rewrite Hrender. reflexivity.
      * exact Hret.
    + right. cbn [utils.parseLoop].
      destruct (Nat.ltb_spec index (String.length s)); [|lia].
      rewrite Herr. reflexivity.
Qed.

(** X5: StrToDuration never panics and its loops are never cut short: for
    every string, of any bytes, it returns a duration or the error
    "time: invalid duration" with the string quoted. *)
Theorem StrToDuration_total (timeStep : string) :
  (exists d, utils.StrToDuration timeStep = utils.Ret d) \/
  utils.StrToDuration timeStep =
    utils.Err (utils.invalidDuration timeStep).
Proof.
  unfold utils.StrToDuration.
  destruct (Nat.eqb_spec (String.length timeStep) 0) as [_|_];
    [right; reflexivity|].
  destruct (parseLoop_spec timeStep (S (String.length timeStep)) 0 0
              ltac:(lia) ltac:(lia)) as [(ps & _ & _ & Hret)|Herr].
  - left. eexists. exact Hret.
  - right. exact Herr.
Qed.

(** X6: StrToDuration returns a duration only for a string that is a
    non-empty sequence of pairs, each a non-empty run of decimal digits
    whose value fits an int64 followed by one of the units ns, us, s, m,
    h, d, w; the duration is then the sum of number times unit in int64
    arithmetic. The unit ms is not among them. *)
Theorem StrToDuration_Ret_inv (timeStep : string) (d : Z) :
  utils.StrToDuration timeStep = utils.Ret d ->
  exists ps,
    ps <> [] /\ Forall duration.wellFormed ps /\
    timeStep = duration.render ps /\ d = duration.total ps 0.
Proof.
  unfold utils.StrToDuration.
  destruct (Nat.eqb_spec (String.length timeStep) 0) as [_|Hlen];
    [discriminate|].
  intros Hret.
  destruct (parseLoop_spec timeStep (S (String.length timeStep)) 0 0
              ltac:(lia) ltac:(lia)) as [(ps & Hwf & Hrender & Hps)|Herr].
  - rewrite Nat.sub_0_r, substring_0_length in Hrender.
    exists ps. repeat split; try assumption.
    + intros ->. simpl in Hrender. subst timeStep. simpl in Hlen. lia.
    + rewrite Hps in Hret. injection Hret as <-. reflexivity.
  - rewrite Herr in Hret. discriminate.
Qed.

Lemma StrToDuration_Ret_inv_witness :
  exists ps,
    ps <> [] /\ Forall duration.wellFormed ps /\
    "1d12h" = duration.render ps /\
    36 * utils.Hour = duration.total ps 0.
Proof.
  apply (StrToDuration_Ret_inv "1d12h" (36 * utils.Hour)).
  vm_compute. reflexivity.
Defined.

(** ** Well-formed pairs are accepted *)

(** The scan over a run of digits that a non-digit follows stops at the
    non-digit. *)
Lemma scanDigits_digits (pre n rest : string) (c : ascii) (fuel : nat) :
  duration.allDigits n = true -> strconv.isDigit c = false ->
  (String.length n < fuel)%nat ->
  utils.scanDigits (pre +:+ n +:+ String c rest) fuel (String.length pre) =
  utils.Ret (String.length pre + String.length n)%nat.
Proof.
  revert pre fuel. induction n as [|d n IH]; intros pre fuel Hn Hc Hfuel;
    (destruct fuel as [|fuel]; [simpl in Hfuel; lia|]);
    cbn [utils.scanDigits]; unfold utils.byteAt.
  - rewrite app_nil_l_string.
    rewrite <- (Nat.add_0_r (String.length pre)) at 1.
    rewrite get_app_r. simpl String.get. cbn [mbind utils.outcome_bind].
    rewrite Hc. simpl. rewrite Nat.add_0_r. reflexivity.
  - simpl in Hn. apply andb_true_iff in Hn. destruct Hn as [Hd Hn].
    rewrite <- (Nat.add_0_r (String.length pre)) at 1.
    rewrite get_app_r, app_cons_string. simpl String.get.
    cbn [mbind utils.outcome_bind]. rewrite Hd.
    assert (Hlen : String.length (pre +:+ String d (n +:+ String c rest)) =
                   (String.length pre +
                    S (String.length n + S (String.length rest)))%nat)
      by (rewrite string_length_app; simpl String.length;
          rewrite string_length_app; reflexivity).
    destruct (Nat.eqb_spec (S (String.length pre))
                (String.length (pre +:+ String d (n +:+ String c rest))))
      as [He|_]; [lia|].
    replace (pre +:+ String d (n +:+ String c rest))
      with ((pre +:+ String d EmptyString) +:+ n +:+ String c rest)
      by (rewrite string_app_assoc; reflexivity).
    replace (S (String.length pre))
      with (String.length (pre +:+ String d EmptyString))
      by (rewrite string_length_app; simpl; lia).
    rewrite (IH (pre +:+ String d EmptyString) fuel Hn Hc)
      by (simpl in Hfuel; lia).
    rewrite string_length_app. simpl. f_equal. lia.
Qed.

(** A unit's name starts with a byte that is not a digit. *)
Lemma unitName_head (u : duration.Unit) :
  exists c rest,
    duration.unitName u = String c rest /\ strconv.isDigit c = false.
Proof. destruct u; eexists; eexists; split; reflexivity. Qed.

Lemma unitAt_app (pre r : string) (u : duration.Unit) :
  unitscan.unitAt (pre +:+ duration.unitName u +:+ r) (String.length pre) =
  Some u.
Proof.
  unfold unitscan.unitAt. rewrite !substring_app_r.
  destruct u; cbn [duration.unitName];
    rewrite !app_cons_string, app_nil_l_string; cbn [String.substring];
    rewrite ?substring_zero; reflexivity.
Qed.

Lemma render_wellFormed_nonempty (ps : list (string * duration.Unit)) :
  ps <> [] -> Forall duration.wellFormed ps ->
  String.length (duration.render ps) <> 0%nat.
Proof.
  destruct ps as [|[n u] ps]; [contradiction|].
  intros _ Hwf. apply Forall_cons in Hwf. destruct Hwf as [(Hn & _) _].
  simpl in Hn. destruct n as [|c n]; [contradiction|].
  cbn [duration.render]. rewrite string_length_app.
  cbn [String.length]. lia.
Qed.

(** From the end of [pre] the loop reads the pairs and adds them up. *)
Lemma parseLoop_render (ps : list (string * duration.Unit))
    (pre : string) (fuel : nat) (res : Z) :
  Forall duration.wellFormed ps ->
  (String.length (duration.render ps) < fuel)%nat ->
  utils.parseLoop (pre +:+ duration.render ps) fuel (String.length pre) res =
  utils.Ret (duration.total ps res).
Proof.
  revert pre fuel res.
  induction ps as [|[n u] ps IH]; intros pre fuel res Hwf Hfuel;
    (destruct fuel as [|fuel]; [lia|]).
  - cbn [utils.parseLoop duration.render duration.total].
    rewrite string_app_nil_r, Nat.ltb_irrefl. reflexivity.
  - apply Forall_cons in Hwf. destruct Hwf as [(Hne & Hall & Hnum) Hwf].
    simpl in Hne, Hall, Hnum.
    cbn [duration.render duration.total] in *.
    destruct (unitName_head u) as (c & rest & Hname & Hc).
    set (s := pre +:+ n +:+ duration.unitName u +:+ duration.render ps).
    set (i := (String.length pre + String.length n)%nat).
    assert (Hs : s = pre +:+ n +:+ String c (rest +:+ duration.render ps))
      by (unfold s; rewrite Hname; reflexivity).
    assert (Hlen : String.length s =
                   (String.length pre + (String.length n +
                    (String.length (duration.unitName u) +
                     String.length (duration.render ps))))%nat)
      by (unfold s; rewrite !string_length_app; reflexivity).
    assert (Hu : (0 < String.length (duration.unitName u))%nat)
      by (rewrite Hname; simpl; lia).
    assert (Hscan : utils.scanDigits s (String.length s) (String.length pre)
                    = utils.Ret i).
    { rewrite Hs at 1. apply scanDigits_digits; [exact Hall|exact Hc|].
      rewrite Hlen. lia. }
    assert (Hget : String.get i s = Some c).
    { rewrite Hs. unfold i. rewrite <- string_app_assoc.
      rewrite <- (Nat.add_0_r (String.length pre + String.length n)).
      rewrite <- string_length_app, get_app_r. reflexivity. }
    assert (Hseg : String.substring (String.length pre)
                     (i - String.length pre) s = n).
    { unfold i, s. replace (String.length pre + String.length n -
                            String.length pre)%nat
        with (String.length n) by lia.
      rewrite substring_app_r. apply substring_prefix. }
    rewrite (parseLoop_pass s fuel (String.length pre) i res c);
      [|rewrite Hlen; lia|exact Hscan|unfold i; lia|exact Hget
       |rewrite Hseg; exact Hall].
    unfold unitscan.pass. rewrite Hseg.
    destruct n as [|d n]; [contradiction|].
    destruct (Z.ltb_spec (duration.number (String d n)) (2 ^ 63));
      [|lia].
    assert (Hs' : s = (pre +:+ String d n) +:+ duration.unitName u +:+
                      duration.render ps)
      by (unfold s; rewrite string_app_assoc; reflexivity).
    assert (Hi : i = String.length (pre +:+ String d n))
      by (unfold i; rewrite string_length_app; reflexivity).
    rewrite Hs' at 1. rewrite Hi at 1. rewrite unitAt_app.
    assert (Hs'' : s = ((pre +:+ String d n) +:+ duration.unitName u) +:+
                       duration.render ps)
      by (rewrite Hs', !string_app_assoc; reflexivity).
    rewrite Hs''.
    replace (i + String.length (duration.unitName u))%nat
      with (String.length ((pre +:+ String d n) +:+ duration.unitName u))
      by (rewrite string_length_app, <- Hi; reflexivity).
    apply IH; [exact Hwf|].
    rewrite !string_length_app in Hfuel. simpl in Hfuel. lia.
Qed.

(** X7: every non-empty sequence of pairs, each a non-empty run of decimal
    digits whose value fits an int64 followed by one of the units ns, us,
    s, m, h, d (24 hours), w (168 hours), is accepted, and the result is
    the sum of number times unit, in int64 arithmetic. *)
Theorem StrToDuration_accepts (ps : list (string * duration.Unit)) :
  ps <> [] -> Forall duration.wellFormed ps ->
  utils.StrToDuration (duration.render ps) =
  utils.Ret (duration.total ps 0).
Proof.
  intros Hne Hwf. unfold utils.StrToDuration.
  pose proof (render_wellFormed_nonempty ps Hne Hwf) as Hlen.
  destruct (Nat.eqb_spec (String.length (duration.render ps)) 0);
    [contradiction|].
  exact (parseLoop_render ps EmptyString
           (S (String.length (duration.render ps))) 0 Hwf ltac:(lia)).
Qed.

Lemma StrToDuration_accepts_witness :
  utils.StrToDuration
    (duration.render [("1", duration.Ud); ("12", duration.Uh);
                      ("30", duration.Um); ("250", duration.Uus)]) =
  utils.Ret
    (duration.total [("1", duration.Ud); ("12", duration.Uh);
                     ("30", duration.Um); ("250", duration.Uus)] 0).
Proof.
  apply StrToDuration_accepts; [discriminate|].
  repeat constructor; simpl; discriminate.
Defined.

(** ** No string that ends in "ms" is accepted *)

(** A suffix of at least two bytes of a string that ends in "ms" ends in
    "ms". *)
Lemma suffix_ms (a b pre : string) :
  a +:+ b = pre +:+ "ms" -> (2 <= String.length b)%nat ->
  exists pre', b = pre' +:+ "ms".
Proof.
  revert pre. induction a as [|x a IH]; intros pre Heq Hb.
  - exists pre. exact Heq.
  - destruct pre as [|y pre].
    + apply (f_equal String.length) in Heq.
      rewrite string_length_app in Heq. simpl in Heq. lia.
    + rewrite !app_cons_string in Heq. injection Heq as _ Heq.
      exact (IH pre Heq Hb).
Qed.

(** A non-empty string of digits ends in a digit. *)
Lemma allDigits_last (n : string) :
  n <> EmptyString -> duration.allDigits n = true ->
  exists n0 d, n = n0 +:+ String d EmptyString /\ strconv.isDigit d = true.
Proof.
  induction n as [|c n IH]; intros Hne Hn; [contradiction|].
  simpl in Hn. apply andb_true_iff in Hn. destruct Hn as [Hc Hn].
  destruct n as [|c' n].
  - exists EmptyString, c. split; [reflexivity|exact Hc].
  - destruct (IH ltac:(discriminate) Hn) as (n0 & d & Heq & Hd).
    exists (String c n0), d. rewrite app_cons_string, <- Heq.
    split; [reflexivity|exact Hd].
Qed.

Lemma render_length (ps : list (string * duration.Unit)) :
  ps <> [] -> Forall duration.wellFormed ps ->
  (2 <= String.length (duration.render ps))%nat.
Proof.
  destruct ps as [|[n u] ps]; [contradiction|].
  intros _ Hwf. apply Forall_cons in Hwf. destruct Hwf as [(Hn & _) _].
  simpl in Hn. destruct n as [|c n]; [contradiction|].
  cbn [duration.render]. rewrite !string_length_app.
  cbn [String.length]. destruct u; cbn [duration.unitName String.length];
    lia.
Qed.

(** The text of well-formed pairs does not end in "ms". *)
Lemma render_not_ms (ps : list (string * duration.Unit)) (pre : string) :
  ps <> [] -> Forall duration.wellFormed ps ->
  duration.render ps <> pre +:+ "ms".
Proof.
  revert pre. induction ps as [|[n u] ps IH]; intros pre Hne Hwf Heq;
    [contradiction|].
  apply Forall_cons in Hwf. destruct Hwf as [(Hn & Hall & _) Hwf].
  simpl in Hn, Hall. cbn [duration.render] in Heq.
  destruct ps as [|p ps].
  - cbn [duration.render] in Heq. rewrite string_app_nil_r in Heq.
    destruct (allDigits_last n Hn Hall) as (n0 & d & -> & Hd).
    rewrite string_app_assoc in Heq.
    destruct (suffix_ms n0 _ pre Heq) as [pre' Hpre].
    + rewrite string_length_app.
      destruct u; cbn [duration.unitName String.length]; lia.
    + rewrite app_cons_string, app_nil_l_string in Hpre.
      destruct pre' as [|y pre'].
      * rewrite app_nil_l_string in Hpre. injection Hpre as -> _.
        vm_compute in Hd. discriminate.
      * rewrite app_cons_string in Hpre. injection Hpre as _ Hu.
        pose proof (f_equal String.length Hu) as Hl.
        rewrite string_length_app in Hl.
        destruct u; cbn [duration.unitName String.length] in Hl; try lia;
          (destruct pre' as [|z pre'];
           [rewrite app_nil_l_string in Hu; discriminate
           |cbn [String.length] in Hl; lia]).
  - rewrite <- string_app_assoc in Heq.
    destruct (suffix_ms _ _ pre Heq) as [pre' Hpre].
    + apply render_length; [discriminate|exact Hwf].
    + exact (IH pre' ltac:(discriminate) Hwf Hpre).
Qed.

(** X8: no string that ends in "ms" is accepted, whatever precedes the
    "ms": the unit "m" is read first, and what follows it must start with
    a digit. *)
Theorem StrToDuration_rejects_ms (pre : string) :
  utils.StrToDuration (pre +:+ "ms") =
  utils.Err (utils.invalidDuration (pre +:+ "ms")).
Proof.
  unfold utils.StrToDuration.
  assert (Hlen : String.length (pre +:+ "ms") <> 0%nat)
    by (rewrite string_length_app; simpl; lia).
  destruct (Nat.eqb_spec (String.length (pre +:+ "ms")) 0) as [|_];
    [contradiction|].
  destruct (parseLoop_spec (pre +:+ "ms")
              (S (String.length (pre +:+ "ms"))) 0 0
              ltac:(lia) ltac:(lia)) as [(ps & Hwf & Hrender & _)|Herr];
    [exfalso|exact Herr].
  rewrite Nat.sub_0_r, substring_0_length in Hrender.
  apply (render_not_ms ps pre); [|exact Hwf|symmetry; exact Hrender].
  intros ->. cbn [duration.render] in Hrender.
  rewrite Hrender in Hlen. simpl in Hlen. lia.
Qed.


(** ** The filter of the collected data *)

(** The three cases of Test_filterData. *)
Example filterData_min_samples :
  (fun r => collector.Attributes r.1) <$>
  collecting.filterData collecting.testMetric
    {| filters.MinVisitorsPerTimeStep := 90;
       filters.AttributesFilterParams := ∅ |} =
  Some ["Total"].
Proof. vm_compute. reflexivity. Qed.

Example filterData_level :
  (fun r => collector.Attributes r.1) <$>
  collecting.filterData collecting.testMetric
    {| filters.MinVisitorsPerTimeStep := 10;
       filters.AttributesFilterParams :=
         {[ "Attribute1" := {| filters.Level := 1; filters.Top := 0 |} ]} |} =
  Some ["Total"; "Attribute1>Sub1"; "Attribute1>Sub2"; "Attribute2>Sub1";
        "Attribute2>Sub2"].
Proof. vm_compute. reflexivity. Qed.

Example filterData_top :
  (fun r => collector.Attributes r.1) <$>
  collecting.filterData collecting.testMetric
    {| filters.MinVisitorsPerTimeStep := 10;
       filters.AttributesFilterParams :=
         {[ "Attribute1" := {| filters.Level := 2; filters.Top := 1 |};
            "Attribute2" := {| filters.Level := 1; filters.Top := 1 |} ]} |} =
  Some ["Total"; "Attribute1>Sub1"; "Attribute1>Sub1>Sub1";
        "Attribute1>Sub2"; "Attribute2>Sub1"].
Proof. vm_compute. reflexivity. Qed.

Lemma Split_head (s : string) (sep : ascii) :
  exists piece pieces, gostrings.Split s sep = piece :: pieces.
Proof.
  induction s as [|c s (piece & pieces & IH)]; simpl.
  - eauto.
  - destruct (Ascii.eqb c sep); [eauto|]. rewrite IH. eauto.
Qed.

Lemma insert_middle (pre rest : list bool) (x : bool) :
  <[length pre := true]> (pre ++ x :: rest) = pre ++ true :: rest.
Proof.
  induction pre as [|y pre IH]; simpl; [reflexivity|].
  rewrite IH. reflexivity.
Qed.

Section FilterLoops.

Variable metricData : collector.MetricData.
Variable collectFilters : filters.CollectFilters.

(** One pass of the 1st loop sets the flag of its index to the outcome of
    the three tests and logs their lines. *)
Lemma check_spec (pre rest : list bool) (logged : list string)
    (attribute : string) :
  collecting.check metricData collectFilters (length pre) attribute
    (pre ++ false :: rest, logged) =
  Some (pre ++ collecting.filtered metricData collectFilters attribute
               :: rest,
        logged ++ filtering.lines metricData collectFilters attribute).
Proof.
  unfold collecting.check, collecting.filtered, filtering.lines.
  destruct (Split_head attribute ">") as (piece & pieces & ->).
  cbn [lookup list_lookup mbind option_bind default from_option id].
  set (params := filters.paramsOf collectFilters piece).
  assert (Hmark : forall x line lg,
             collecting.mark (length pre) line (pre ++ x :: rest, lg) =
             Some (pre ++ true :: rest, lg ++ [line])).
  { intros x line lg. unfold collecting.mark. cbn [fst snd].
    rewrite length_app. cbn [length].
    destruct (Nat.ltb_spec (length pre) (length pre + S (length rest)));
      [|lia].
    rewrite insert_middle. reflexivity. }
  destruct (negb (filters.Level params =? 0) &&
            (filters.Level params <? collecting.GetLevel attribute));
    destruct (negb (filters.Level params =? 0) &&
              (filters.Level params =? collecting.GetLevel attribute) &&
              negb (filters.Top params =? 0) &&
              (filters.Top params <?
               collecting.GetRank metricData attribute));
    destruct (collecting.GetSamplesCount metricData attribute <?
              collecting.minSamples metricData collectFilters);
    rewrite ?Hmark; cbn [mbind option_bind]; rewrite ?Hmark;
    cbn [mbind option_bind]; rewrite ?Hmark;
    cbn [orb app]; rewrite <- ?app_assoc, ?app_nil_r; reflexivity.
Qed.

Lemma checkLoop_spec (attributes : list string) (pre : list bool)
    (logged : list string) :
  collecting.checkLoop metricData collectFilters attributes (length pre)
    (pre ++ replicate (length attributes) false, logged) =
  Some (pre ++ map (collecting.filtered metricData collectFilters)
                 attributes,
        logged ++
        flat_map (filtering.lines metricData collectFilters) attributes).
Proof.
  revert pre logged.
  induction attributes as [|a rest IH]; intros pre logged;
    cbn [collecting.checkLoop length replicate map flat_map].
  - rewrite !app_nil_r. reflexivity.
  - rewrite check_spec. cbn [mbind option_bind].
    replace (S (length pre))
      with (length (pre ++ [collecting.filtered metricData collectFilters a]))
      by (rewrite length_app; simpl; lia).
    replace (pre ++ collecting.filtered metricData collectFilters a
                 :: replicate (length rest) false)
      with ((pre ++ [collecting.filtered metricData collectFilters a]) ++
            replicate (length rest) false)
      by (rewrite <- app_assoc; reflexivity).
    rewrite IH, <- !app_assoc. reflexivity.
Qed.

End FilterLoops.

Lemma kept_snoc (attributes : list string) (flags : list bool)
    (a : string) (flag : bool) :
  length attributes = length flags ->
  filtering.kept (attributes ++ [a]) (flags ++ [flag]) =
  filtering.kept attributes flags ++ (if flag then [] else [a]).
Proof.
  revert flags. induction attributes as [|x attributes IH];
    intros [|f flags] Hlen; simpl in *; try lia.
  - destruct flag; reflexivity.
  - rewrite IH by lia. destruct f; reflexivity.
Qed.

Lemma dropped_snoc (attributes : list string) (flags : list bool)
    (a : string) (flag : bool) :
  length attributes = length flags ->
  filtering.dropped (attributes ++ [a]) (flags ++ [flag]) =
  filtering.dropped attributes flags ++ (if flag then [a] else []).
Proof.
  revert flags. induction attributes as [|x attributes IH];
    intros [|f flags] Hlen; simpl in *; try lia.
  - destruct flag; reflexivity.
  - rewrite IH by lia. destruct f; reflexivity.
Qed.

Lemma kept_map (test : string -> bool) (attributes : list string) :
  filtering.kept attributes (map test attributes) =
  List.filter (fun a => negb (test a)) attributes.
Proof.
  induction attributes as [|a rest IH]; simpl; [reflexivity|].
  rewrite IH. destruct (test a); reflexivity.
Qed.

Lemma dropped_map (test : string -> bool) (attributes : list string) :
  filtering.dropped attributes (map test attributes) =
  List.filter test attributes.
Proof.
  induction attributes as [|a rest IH]; simpl; [reflexivity|].
  rewrite IH. destruct (test a); reflexivity.
Qed.

(** The 2nd loop, run down from index [n], leaves the unflagged attributes
    below [n] in their order, and deletes the data of the flagged ones. *)
Lemma removeLoop_spec (attributes : list string) (flags : list bool)
    (n : nat) (suffix : list string)
    (data : gmap string (list collector.TimeStepData)) :
  length flags = length attributes -> (n <= length attributes)%nat ->
  exists data',
    collecting.removeLoop flags n (take n attributes ++ suffix, data) =
      Some (filtering.kept (take n attributes) (take n flags) ++ suffix,
            data') /\
    forall k,
      data' !! k =
      if bool_decide
           (k ∈ filtering.dropped (take n attributes) (take n flags))
      then None else data !! k.
Proof.
  intros Hlen. revert suffix data.
  induction n as [|ind IH]; intros suffix data Hn.
  - exists data. split; [reflexivity|]. intros k.
    rewrite !take_0. cbn [filtering.dropped].
    rewrite bool_decide_eq_false_2 by apply not_elem_of_nil. reflexivity.
  - destruct (lookup_lt_is_Some_2 attributes ind ltac:(lia)) as [a Ha].
    destruct (lookup_lt_is_Some_2 flags ind ltac:(lia)) as [flag Hflag].
    rewrite (take_S_r attributes ind a Ha), (take_S_r flags ind flag Hflag).
    assert (Htake : length (take ind attributes) = ind)
      by (rewrite length_take; lia).
    assert (Htakef : length (take ind flags) = ind)
      by (rewrite length_take; lia).
    rewrite kept_snoc, dropped_snoc by lia.
    cbn [collecting.removeLoop]. unfold collecting.remove.
    rewrite Hflag. cbn [mbind option_bind fst snd].
    destruct flag.
    + assert (Hget : ((take ind attributes ++ [a]) ++ suffix) !! ind
                     = Some a).
      { rewrite <- app_assoc, lookup_app_r by lia.
        rewrite Htake, Nat.sub_diag. reflexivity. }
      rewrite Hget. cbn [mbind option_bind].
      assert (Hrest : (if (ind =? length ((take ind attributes ++ [a]) ++
                                          suffix) - 1)%nat
                       then Some (take ind ((take ind attributes ++ [a]) ++
                                            suffix), delete a data)
                       else Some (take ind ((take ind attributes ++ [a]) ++
                                            suffix) ++
                                  drop (ind + 1)
                                    ((take ind attributes ++ [a]) ++ suffix),
                                  delete a data)) =
                      Some (take ind attributes ++ suffix, delete a data)).
      { assert (HT : take ind ((take ind attributes ++ [a]) ++ suffix) =
                     take ind attributes)
          by (rewrite <- app_assoc; apply take_app_length'; lia).
        assert (HD : drop (ind + 1) ((take ind attributes ++ [a]) ++ suffix)
                     = suffix)
          by (apply drop_app_length'; rewrite length_app; simpl; lia).
        rewrite HT, HD, !length_app, Htake. cbn [length].
        destruct (Nat.eqb_spec ind (ind + 1 + length suffix - 1)) as [He|_];
          [|reflexivity].
        destruct suffix; [rewrite app_nil_r; reflexivity|simpl in He; lia]. }
      rewrite Hrest. cbn [mbind option_bind].
      destruct (IH suffix (delete a data) ltac:(lia)) as (data' & Hloop & Hd).
      exists data'. rewrite Hloop, app_nil_r. split; [reflexivity|].
      intros k. rewrite Hd.
      destruct (decide (k = a)) as [->|Hne].
      * rewrite lookup_delete_eq.
        rewrite (bool_decide_eq_true_2 (a ∈ _ ++ [a]))
          by (apply elem_of_app; right; apply list_elem_of_singleton;
              reflexivity).
        destruct (bool_decide _); reflexivity.
      * rewrite lookup_delete_ne by congruence.
        apply (f_equal (fun b : bool => if b then None else data !! k)).
        apply bool_decide_ext. rewrite elem_of_app, list_elem_of_singleton.
        tauto.
    + replace ((take ind attributes ++ [a]) ++ suffix)
        with (take ind attributes ++ a :: suffix)
        by (rewrite <- app_assoc; reflexivity).
      destruct (IH (a :: suffix) data ltac:(lia)) as (data' & Hloop & Hd).
      exists data'. cbn [mbind option_bind].
      rewrite Hloop, <- app_assoc, app_nil_r.
      split; [reflexivity|exact Hd].
Qed.

(** filterData as its two loops leave it. *)
Lemma filterData_spec (metricData : collector.MetricData)
    (collectFilters : filters.CollectFilters) :
  exists data,
    collecting.filterData metricData collectFilters =
      Some ({| collector.Metric := collector.Metric metricData;
               collector.Unit := collector.Unit metricData;
               collector.Attributes :=
                 filtering.kept (collector.Attributes metricData)
                   (map (collecting.filtered metricData collectFilters)
                      (collector.Attributes metricData));
               collector.AttributeData := data |},
            flat_map (filtering.lines metricData collectFilters)
              (collector.Attributes metricData)) /\
    forall k,
      data !! k =
      if bool_decide
           (k ∈ filtering.dropped (collector.Attributes metricData)
                  (map (collecting.filtered metricData collectFilters)
                     (collector.Attributes metricData)))
      then None else collector.AttributeData metricData !! k.
Proof.
  unfold collecting.filterData.
  pose proof (checkLoop_spec metricData collectFilters
                (collector.Attributes metricData) [] []) as Hcheck.
  cbn [length app] in Hcheck. rewrite Hcheck. cbn [mbind option_bind].
  set (attributes := collector.Attributes metricData) in *.
  set (flags := map (collecting.filtered metricData collectFilters)
                  attributes).
  destruct (removeLoop_spec attributes flags (length attributes) []
              (collector.AttributeData metricData))
    as (data & Hloop & Hdata).
  - unfold flags. rewrite length_map. reflexivity.
  - lia.
  - rewrite firstn_all, app_nil_r in Hloop.
    replace (take (length attributes) flags) with flags in Hloop, Hdata
      by (symmetry; apply take_ge; unfold flags; rewrite length_map; lia).
    rewrite firstn_all in Hdata. rewrite app_nil_r in Hloop.
    rewrite Hloop. cbn [mbind option_bind].
    exists data. split; [reflexivity|exact Hdata].
Qed.

Lemma elem_of_filter_bool (test : string -> bool) (l : list string)
    (k : string) :
  k ∈ List.filter test l <-> k ∈ l /\ test k = true.
Proof. rewrite !list_elem_of_In. apply filter_In. Qed.

Lemma filter_bool_sublist (test : string -> bool) (l : list string) :
  sublist (List.filter test l) l.
Proof.
  induction l as [|a l IH]; simpl.
  - constructor.
  - destruct (test a); [apply sublist_skip|apply sublist_cons]; exact IH.
Qed.

(** X9: filterData never panics; it returns the metric with the same name
    and unit, the attributes for which none of its three tests (level
    above the limit, rank beyond the top, samples below the minimum) holds,
    in their original order, and the data map with exactly the keys of the
    removed attributes deleted; it logs the lines of the tests that held,
    attribute by attribute. *)
Theorem filterData_result (metricData : collector.MetricData)
    (collectFilters : filters.CollectFilters) :
  exists data,
    collecting.filterData metricData collectFilters =
      Some ({| collector.Metric := collector.Metric metricData;
               collector.Unit := collector.Unit metricData;
               collector.Attributes :=
                 List.filter
                   (fun a =>
                      negb (collecting.filtered metricData collectFilters a))
                   (collector.Attributes metricData);
               collector.AttributeData := data |},
            flat_map (filtering.lines metricData collectFilters)
              (collector.Attributes metricData)) /\
    forall k,
      data !! k =
      if bool_decide (k ∈ collector.Attributes metricData) &&
         collecting.filtered metricData collectFilters k
      then None else collector.AttributeData metricData !! k.
Proof.
  destruct (filterData_spec metricData collectFilters)
    as (data & Hres & Hdata).
  exists data. rewrite Hres, kept_map. split; [reflexivity|].
  intros k. rewrite Hdata, dropped_map.
  destruct (collecting.filtered metricData collectFilters k) eqn:Hk.
  - rewrite andb_true_r.
    rewrite (bool_decide_ext
               (k ∈ List.filter
                      (collecting.filtered metricData collectFilters)
                      (collector.Attributes metricData))
               (k ∈ collector.Attributes metricData));
      [reflexivity|].
    rewrite elem_of_filter_bool. tauto.
  - rewrite andb_false_r, bool_decide_eq_false_2; [reflexivity|].
    rewrite elem_of_filter_bool. intros [_ H]. congruence.
Qed.

(** X10: the attribute list and the data map stay consistent: the
    attributes that filterData returns are a sublist of the attributes it
    was given, each of them keeps the data it had, every given attribute
    that is not returned has no data left, and the data of keys that are
    not in the attribute list is not touched. *)
Theorem filterData_consistent (metricData : collector.MetricData)
    (collectFilters : filters.CollectFilters) :
  exists filteredData logged,
    collecting.filterData metricData collectFilters =
      Some (filteredData, logged) /\
    sublist (collector.Attributes filteredData)
      (collector.Attributes metricData) /\
    (forall a,
       a ∈ collector.Attributes filteredData ->
       collector.AttributeData filteredData !! a =
       collector.AttributeData metricData !! a) /\
    (forall a,
       a ∈ collector.Attributes metricData ->
       a ∉ collector.Attributes filteredData ->
       collector.AttributeData filteredData !! a = None) /\
    (forall k,
       k ∉ collector.Attributes metricData ->
       collector.AttributeData filteredData !! k =
       collector.AttributeData metricData !! k).
Proof.
  destruct (filterData_spec metricData collectFilters)
    as (data & Hres & Hdata).
  rewrite kept_map in Hres. rewrite dropped_map in Hdata.
  eexists. eexists. split; [exact Hres|]. cbn [collector.Attributes
    collector.AttributeData].
  split; [|split; [|split]].
  - apply filter_bool_sublist.
  - intros a Ha. apply elem_of_filter_bool in Ha. destruct Ha as [_ Ha].
    rewrite Hdata, bool_decide_eq_false_2; [reflexivity|].
    rewrite elem_of_filter_bool. intros [_ H].
    rewrite H in Ha. discriminate.
  - intros a Ha Hnot. rewrite Hdata, bool_decide_eq_true_2; [reflexivity|].
    apply elem_of_filter_bool. split; [exact Ha|].
    destruct (collecting.filtered metricData collectFilters a) eqn:Hf;
      [reflexivity|].
    exfalso. apply Hnot. apply elem_of_filter_bool.
    rewrite Hf. split; [exact Ha|reflexivity].
  - intros k Hk. rewrite Hdata, bool_decide_eq_false_2; [reflexivity|].
    rewrite elem_of_filter_bool. tauto.
Qed.

Lemma kept_all_false (test : string -> bool) (l : list string) :
  (forall a, a ∈ l -> test a = false) ->
  List.filter (fun a => negb (test a)) l = l /\
  List.filter test l = [].
Proof.
  induction l as [|a l IH]; intros Hall; simpl; [split; reflexivity|].
  rewrite (Hall a) by (apply list_elem_of_here). simpl.
  destruct IH as [-> ->]; [|split; reflexivity].
  intros b Hb. apply Hall. apply list_elem_of_further. exact Hb.
Qed.

Lemma flat_map_all_nil (f : string -> list string) (l : list string) :
  (forall a, a ∈ l -> f a = []) -> flat_map f l = [].
Proof.
  induction l as [|a l IH]; intros Hall; simpl; [reflexivity|].
  rewrite (Hall a) by apply list_elem_of_here. simpl.
  apply IH. intros b Hb. apply Hall. apply list_elem_of_further. exact Hb.
Qed.

(** X11: with no minimum (0 visitors per time step) and no attribute
    filter configured, filterData returns the metric data unchanged and
    logs nothing, provided no attribute has a negative samples count. *)
Theorem filterData_no_filter (metricData : collector.MetricData)
    (collectFilters : filters.CollectFilters) :
  filters.MinVisitorsPerTimeStep collectFilters = 0 ->
  filters.AttributesFilterParams collectFilters = ∅ ->
  (forall a,
     a ∈ collector.Attributes metricData ->
     0 <= collecting.GetSamplesCount metricData a) ->
  collecting.filterData metricData collectFilters = Some (metricData, []).
Proof.
  intros Hmin Hparams Hsamples.
  assert (Hzero : collecting.minSamples metricData collectFilters = 0)
    by (unfold collecting.minSamples; rewrite Hmin; reflexivity).
  assert (Hfalse : forall a,
             a ∈ collector.Attributes metricData ->
             collecting.filtered metricData collectFilters a = false /\
             filtering.lines metricData collectFilters a = []).
  { intros a Ha. unfold collecting.filtered, filtering.lines,
      filters.paramsOf.
    rewrite Hparams, lookup_empty, Hzero. cbn [default from_option id
      filters.Level filters.Top]. simpl.
    destruct (Z.ltb_spec (collecting.GetSamplesCount metricData a) 0)
      as [Hlt|_]; [|split; reflexivity].
    pose proof (Hsamples a Ha). lia. }
  destruct (filterData_spec metricData collectFilters)
    as (data & Hres & Hdata).
  rewrite kept_map in Hres. rewrite dropped_map in Hdata.
  destruct (kept_all_false (collecting.filtered metricData collectFilters)
              (collector.Attributes metricData)
              (fun a Ha => proj1 (Hfalse a Ha))) as [Hkept Hdropped].
  rewrite Hkept in Hres. rewrite Hdropped in Hdata.
  assert (Hlog : flat_map (filtering.lines metricData collectFilters)
                   (collector.Attributes metricData) = []).
  { apply flat_map_all_nil. intros a Ha. exact (proj2 (Hfalse a Ha)). }
  assert (Heq : data = collector.AttributeData metricData).
  { apply map_eq. intros k. rewrite Hdata.
    rewrite bool_decide_eq_false_2 by apply not_elem_of_nil. reflexivity. }
  rewrite Hres, Hlog, Heq. destruct metricData. reflexivity.
Qed.

Lemma filterData_no_filter_witness :
  collecting.filterData collecting.testMetric
    {| filters.MinVisitorsPerTimeStep := 0;
       filters.AttributesFilterParams := ∅ |} =
  Some (collecting.testMetric, []).
Proof.
  apply filterData_no_filter; [reflexivity|reflexivity|].
  intros a Ha. simpl in Ha.
  repeat (apply elem_of_cons in Ha; destruct Ha as [->|Ha];
          [vm_compute; discriminate|]).
  apply elem_of_nil in Ha. contradiction.
Defined.

(** ** The time steps of the generated series *)

Lemma grid_snoc (dateStart : time.Time) (stepDuration : Z) (n : nat) :
  generator.grid dateStart stepDuration (S n) =
  generator.grid dateStart stepDuration n ++
  [generator.newTimeStepData (dateStart + Z.of_nat n * stepDuration)].
Proof.
  unfold generator.grid. rewrite seq_S, map_app. reflexivity.
Qed.







(** X13: with a step that is zero or negative and a start before the end,
    the loop of allocMasterData never ends: however many tests of its
    condition it is allowed, it has not returned. *)
Theorem allocMasterData_no_progress (fuel : nat)
    (metricData : collector.MetricData) (path : string)
    (dateStart dateEnd : time.Time) (stepDuration : Z) :
  stepDuration <= 0 -> dateStart < dateEnd ->
  generator.allocMasterData fuel metricData path dateStart dateEnd
    stepDuration = None.
Proof.
  intros Hstep Hlt. unfold generator.allocMasterData.
  assert (Hloop : forall newData dateStep,
             dateStep < dateEnd ->
             generator.timeSteps fuel dateStep dateEnd stepDuration newData
             = None).
  { induction fuel as [|fuel' IH]; intros newData dateStep Hd;
      cbn [generator.timeSteps]; [reflexivity|].
    destruct (Z.ltb_spec dateStep dateEnd); [|lia].
    apply IH. lia. }
  rewrite Hloop by exact Hlt. reflexivity.
Qed.

Lemma allocMasterData_no_progress_witness :
  generator.allocMasterData 1000
    {| collector.Metric := "Revenue"; collector.Unit := "Total Orders (EUR)";
       collector.Attributes := []; collector.AttributeData := ∅ |}
    "Total" 0 (24 * utils.Hour) 0 = None.
Proof.
  apply allocMasterData_no_progress; [lia|reflexivity].
Defined.

(** ** The attribute tree of the generator *)

Lemma node_induction (P : generator.sampleCreationAttributeNode -> Prop) :
  (forall name weight subs,
     Forall P subs -> P (generator.Node name weight subs)) ->
  forall node, P node.
Proof.
  intros Hnode. fix IH 1. intros [name weight subs]. apply Hnode.
  induction subs as [|a subs IHsubs]; constructor; [apply IH|exact IHsubs].
Qed.





(** ** The silent detector *)

(** Over samples that are all classified NORMAL the machine stays in its
    start state. *)
Lemma run_all_normal (data : list collector.TimeStepData)
    (mean strongLimit weakLimit : float) (n : nat) (i : Z) :
  (forall j, i <= j < i + Z.of_nat n ->
             spec.classAt data mean strongLimit weakLimit j = spec.NORMAL) ->
  spec.run data mean strongLimit weakLimit n i spec.start = spec.start.
Proof.
  revert i. induction n as [|n IH]; intros i Hall; cbn [spec.run];
    [reflexivity|].
  unfold spec.step at 1. rewrite (Hall i) by lia. cbn.
  apply IH. intros j Hj. apply Hall. lia.
Qed.

(** X15: detectOutliers3Sigmas returns no warning and no alarm exactly when
    no sample of the series is classified as an outlier: one outlier
    sample, wherever it stands, is enough for a period to be returned, and
    periods are never returned for a series of normal samples. *)
Theorem detect_empty_iff_no_outlier (data : list collector.TimeStepData)
    (PeriodEnd : time.Time)
    (outliersMultiplier strongOutliersMultiplier : float) :
  let mean := (baseline data).1 in
  let strongLimit := (strongOutliersMultiplier * (baseline data).2)%float in
  let weakLimit := (outliersMultiplier * (baseline data).2)%float in
  detectOutliers3Sigmas data PeriodEnd outliersMultiplier
    strongOutliersMultiplier = Some ([], []) <->
  (forall i x,
     index data i = Some x ->
     spec.classify mean strongLimit weakLimit (collector.Value x) =
     spec.NORMAL).
Proof.
  intros mean strongLimit weakLimit.
  rewrite detect_run. fold mean strongLimit weakLimit. split.
  - intros Hres i x Hx.
    destruct (spec.classify mean strongLimit weakLimit (collector.Value x))
      eqn:Hc; [reflexivity| |]; exfalso.
    all: pose proof (index_Some _ _ _ Hx) as Hi.
    all: assert (Hclass : spec.classAt data mean strongLimit weakLimit i = _)
           by (unfold spec.classAt; rewrite Hx; exact Hc).
    all: destruct (finish_covers data mean strongLimit weakLimit PeriodEnd i
                     _ Hi Hclass ltac:(discriminate)) as (p & Hp & _).
    all: injection Hres as Hres; rewrite Hres in Hp; cbn in Hp.
    all: apply elem_of_nil in Hp; exact Hp.
  - intros Hall. rewrite run_all_normal; [reflexivity|].
    intros j Hj. unfold spec.classAt.
    destruct (index data j) as [x|] eqn:Hx; [|reflexivity].
    cbn. apply (Hall j x Hx).
Qed.

(** ** Ranks *)

(** The order of the names, [<] on Go strings. *)
Lemma ltb_le (a b : string) :
  String.ltb a b = true <-> String.le a b /\ a <> b.
Proof.
  unfold String.le, String.leb, String.ltb. split.
  - intros H. destruct (String.compare a b) eqn:Hc; try discriminate.
    split; [exact I|]. intros ->.
    pose proof (String.compare_antisym b b) as Ha. rewrite Hc in Ha.
    discriminate.
  - intros [Hle Hne]. destruct (String.compare a b) eqn:Hc.
    + apply String.compare_eq_iff in Hc. contradiction.
    + reflexivity.
    + destruct Hle.
Qed.

Lemma ltb_irrefl (a : string) : String.ltb a a = false.
Proof.
  destruct (String.ltb a a) eqn:H; [|reflexivity].
  apply ltb_le in H. destruct H as [_ H]. contradiction.
Qed.

Lemma ltb_trans (a b c : string) :
  String.ltb a b = true -> String.ltb b c = true -> String.ltb a c = true.
Proof.
  rewrite !ltb_le. intros [Hab Hne] [Hbc _]. split.
  - etrans; eassumption.
  - intros ->. apply Hne. apply (anti_symm String.le); assumption.
Qed.

Lemma ltb_total (a b : string) :
  a <> b -> String.ltb a b = true \/ String.ltb b a = true.
Proof.
  intros Hne. rewrite !ltb_le.
  destruct (total String.le a b); [left|right]; split; congruence.
Qed.

Lemma before_irrefl (metricData : collector.MetricData) (a : string) :
  ranking.before metricData a a = false.
Proof.
  unfold ranking.before. rewrite Z.ltb_irrefl, ltb_irrefl, andb_false_r.
  reflexivity.
Qed.

Lemma before_trans (metricData : collector.MetricData) (a b c : string) :
  ranking.before metricData a b = true ->
  ranking.before metricData b c = true ->
  ranking.before metricData a c = true.
Proof.
  unfold ranking.before. intros Hab Hbc.
  apply orb_true_iff in Hab. apply orb_true_iff in Hbc.
  apply orb_true_iff.
  destruct Hab as [Hab|Hab], Hbc as [Hbc|Hbc];
    rewrite ?andb_true_iff, ?Z.ltb_lt, ?Z.eqb_eq in *.
  - left. lia.
  - left. lia.
  - left. lia.
  - right. split; [lia|].
    apply (ltb_trans a b c); [apply Hab|apply Hbc].
Qed.

Lemma before_total (metricData : collector.MetricData) (a b : string) :
  a <> b ->
  ranking.before metricData a b = true \/
  ranking.before metricData b a = true.
Proof.
  intros Hne. unfold ranking.before.
  rewrite !orb_true_iff, !andb_true_iff, !Z.ltb_lt, !Z.eqb_eq.
  destruct (Z.lt_trichotomy (collecting.GetSamplesCount metricData a)
              (collecting.GetSamplesCount metricData b)) as [H|[H|H]].
  - right. left. exact H.
  - destruct (ltb_total a b Hne) as [Hlt|Hlt]; [left|right]; right;
      (split; [lia|exact Hlt]).
  - left. left. exact H.
Qed.

(** Splitting and joining. *)
Lemma Split_nonempty (s : string) (sep : ascii) :
  gostrings.Split s sep <> [].
Proof.
  destruct s as [|c rest]; simpl; [discriminate|].
  destruct (Ascii.eqb c sep); [discriminate|].
  destruct (gostrings.Split rest sep); discriminate.
Qed.

Lemma Join_Split (s : string) (sep : ascii) :
  gostrings.Join (gostrings.Split s sep) (String sep EmptyString) = s.
Proof.
  induction s as [|c rest IH]; [reflexivity|].
  cbn [gostrings.Split]. destruct (Ascii.eqb_spec c sep) as [->|Hne].
  - pose proof (Split_nonempty rest sep) as Hn.
    destruct (gostrings.Split rest sep) as [|p ps]; [contradiction|].
    cbn [gostrings.Join]. cbn [gostrings.Join] in IH. rewrite IH.
    reflexivity.
  - pose proof (Split_nonempty rest sep) as Hn.
    destruct (gostrings.Split rest sep) as [|p ps]; [contradiction|].
    destruct ps as [|q qs]; cbn [gostrings.Join] in *.
    + rewrite IH. reflexivity.
    + rewrite app_cons_string, IH. reflexivity.
Qed.

Lemma Join_snoc (parts : list string) (last sep : string) :
  gostrings.Join (parts ++ [last]) sep =
  match parts with
  | [] => last
  | _ => gostrings.Join parts sep +:+ sep +:+ last
  end.
Proof.
  induction parts as [|p ps IH]; [reflexivity|].
  destruct ps as [|q qs]; [reflexivity|].
  change ((p :: q :: qs) ++ [last]) with (p :: ((q :: qs) ++ [last])).
  change (gostrings.Join (p :: (q :: qs) ++ [last]) sep)
    with (p +:+ sep +:+ gostrings.Join ((q :: qs) ++ [last]) sep).
  rewrite IH.
  change (gostrings.Join (p :: q :: qs) sep)
    with (p +:+ sep +:+ gostrings.Join (q :: qs) sep).
  rewrite !string_app_assoc. reflexivity.
Qed.

Lemma prefix_app (p r : string) : String.prefix p (p +:+ r) = true.
Proof.
  induction p as [|c p IH]; [destruct r; reflexivity|].
  rewrite app_cons_string. cbn [String.prefix].
  destruct (ascii_dec c c); [exact IH|contradiction].
Qed.

(** An attribute starts with the path of its parent and, unless it is
    empty, is longer. *)
Lemma parentPath_spec (attribute : string) :
  exists rest,
    attribute = collecting.parentPath attribute +:+ rest /\
    (attribute <> EmptyString -> rest <> EmptyString).
Proof.
  unfold collecting.parentPath.
  pose proof (Join_Split attribute ">") as HJ.
  pose proof (Split_nonempty attribute ">") as Hn.
  destruct (gostrings.Split attribute ">") as [|p ps _] using rev_ind;
    [contradiction|].
  rewrite length_app. cbn [length].
  replace (0 <? length ps + 1)%nat with true
    by (symmetry; apply Nat.ltb_lt; lia).
  replace (length ps + 1 - 1)%nat with (length ps) by lia.
  rewrite take_app_length.
  rewrite Join_snoc in HJ.
  destruct ps as [|q qs].
  - exists attribute. cbn [gostrings.Join]. rewrite app_nil_l_string.
    split; [reflexivity|auto].
  - exists (">" +:+ p). split; [symmetry; exact HJ|].
    intros _. rewrite app_cons_string. discriminate.
Qed.

Lemma parentPath_prefix (attribute : string) :
  gostrings.HasPrefix attribute (collecting.parentPath attribute) = true.
Proof.
  destruct (parentPath_spec attribute) as (rest & Heq & _).
  unfold gostrings.HasPrefix. rewrite Heq at 2. apply prefix_app.
Qed.

Lemma parentPath_neq (attribute : string) :
  attribute <> EmptyString -> attribute <> collecting.parentPath attribute.
Proof.
  intros Hne Heq.
  destruct (parentPath_spec attribute) as (rest & Hsplit & Hrest).
  specialize (Hrest Hne).
  apply (f_equal String.length) in Hsplit.
  rewrite string_length_app, <- Heq in Hsplit.
  destruct rest; [contradiction|]. simpl in Hsplit. lia.
Qed.

(** The rank is one more than the number of attributes that count against
    the attribute. *)
Lemma GetRank_count (metricData : collector.MetricData) (attribute : string) :
  collecting.GetRank metricData attribute =
  1 + Z.of_nat
        (length (List.filter (collecting.outranks metricData attribute)
                   (collector.Attributes metricData))).
Proof.
  unfold collecting.GetRank.
  enough (H : forall l rank,
             fold_left
               (fun rank compareAttribute =>
                  if collecting.outranks metricData attribute
                       compareAttribute
                  then rank + 1 else rank) l rank =
             rank + Z.of_nat
                      (length
                         (List.filter
                            (collecting.outranks metricData attribute) l)))
    by apply H.
  induction l as [|c l IH]; intros rank; cbn [fold_left List.filter];
    [simpl; lia|].
  rewrite IH.
  destruct (collecting.outranks metricData attribute c); cbn [length]; lia.
Qed.

Lemma filter_length_le (f g : string -> bool) (l : list string) :
  (forall c, c ∈ l -> f c = true -> g c = true) ->
  (length (List.filter f l) <= length (List.filter g l))%nat.
Proof.
  induction l as [|c l IH]; intros Himp; cbn [List.filter]; [lia|].
  assert (IH' : (length (List.filter f l) <= length (List.filter g l))%nat)
    by (apply IH; intros d Hd; apply Himp; apply list_elem_of_further;
        exact Hd).
  pose proof (Himp c ltac:(apply list_elem_of_here)) as Hc.
  destruct (f c), (g c); cbn [length];
    first [lia|specialize (Hc eq_refl); discriminate].
Qed.

Lemma filter_length_lt (f g : string -> bool) (l : list string) (x : string) :
  (forall c, c ∈ l -> f c = true -> g c = true) ->
  x ∈ l -> f x = false -> g x = true ->
  (length (List.filter f l) < length (List.filter g l))%nat.
Proof.
  induction l as [|c l IH]; intros Himp Hx Hf Hg;
    [apply elem_of_nil in Hx; contradiction|].
  cbn [List.filter].
  assert (Himp' : forall d, d ∈ l -> f d = true -> g d = true)
    by (intros d Hd; apply Himp; apply list_elem_of_further; exact Hd).
  pose proof (filter_length_le f g l Himp') as Hle.
  pose proof (Himp c ltac:(apply list_elem_of_here)) as Hc.
  apply elem_of_cons in Hx. destruct Hx as [->|Hx].
  - rewrite Hf, Hg. cbn [length]. lia.
  - specialize (IH Himp' Hx Hf Hg).
    destruct (f c), (g c); cbn [length];
      first [lia|specialize (Hc eq_refl); discriminate].
Qed.

Lemma filter_all (l : list string) :
  List.filter (fun _ : string => true) l = l.
Proof.
  induction l as [|c l IH]; [reflexivity|].
  cbn [List.filter]. rewrite IH. reflexivity.
Qed.

(** Of two listed siblings, the one that comes before has the smaller
    rank. *)
Lemma GetRank_before (metricData : collector.MetricData) (a b : string) :
  a ∈ collector.Attributes metricData ->
  a <> EmptyString ->
  collecting.parentPath a = collecting.parentPath b ->
  ranking.before metricData a b = true ->
  collecting.GetRank metricData a < collecting.GetRank metricData b.
Proof.
  intros Ha Hne Hparent Hab. rewrite !GetRank_count.
  assert (Hneq : a <> b)
    by (intros ->; rewrite before_irrefl in Hab; discriminate).
  enough (length (List.filter (collecting.outranks metricData a)
                    (collector.Attributes metricData)) <
          length (List.filter (collecting.outranks metricData b)
                    (collector.Attributes metricData)))%nat by lia.
  apply (filter_length_lt _ _ _ a); [|exact Ha| |].
  - intros c _. unfold collecting.outranks. rewrite <- Hparent.
    fold (ranking.before metricData c a). fold (ranking.before metricData c b).
    rewrite !andb_true_iff, !negb_true_iff, !String.eqb_neq.
    intros [[[Hca Hcp] Hpre] Hbef].
    pose proof (before_trans metricData c a b Hbef Hab) as Hcb.
    split; [split; [split|]|]; auto.
    intros ->. rewrite before_irrefl in Hcb. discriminate.
  - unfold collecting.outranks. rewrite String.eqb_refl. reflexivity.
  - unfold collecting.outranks. rewrite <- Hparent.
    fold (ranking.before metricData a b).
    rewrite !andb_true_iff, !negb_true_iff, !String.eqb_neq.
    split; [split; [split|]|]; auto.
    + apply parentPath_neq. exact Hne.
    + apply parentPath_prefix.
Qed.

(** X16: GetRank orders the listed siblings strictly. Two different
    attributes of the list that have the same parent path and are not
    empty never get the same rank: the one with more samples, or with as
    many samples and the smaller name, gets the smaller rank. Every rank of
    a listed attribute lies between 1 and the number of attributes. *)
Theorem GetRank_siblings_distinct (metricData : collector.MetricData)
    (a b : string) :
  a ∈ collector.Attributes metricData ->
  b ∈ collector.Attributes metricData ->
  a <> EmptyString -> b <> EmptyString -> a <> b ->
  collecting.parentPath a = collecting.parentPath b ->
  collecting.GetRank metricData a <> collecting.GetRank metricData b /\
  (collecting.GetRank metricData a < collecting.GetRank metricData b <->
   ranking.before metricData a b = true) /\
  1 <= collecting.GetRank metricData a <=
    Z.of_nat (length (collector.Attributes metricData)).
Proof.
  intros Ha Hb Hna Hnb Hne Hparent.
  assert (Hlt : collecting.GetRank metricData a <
                collecting.GetRank metricData b <->
                ranking.before metricData a b = true).
  { split.
    - intros Hrank.
      destruct (before_total metricData a b Hne) as [H|H]; [exact H|].
      pose proof (GetRank_before metricData b a Hb Hnb (eq_sym Hparent) H).
      lia.
    - apply GetRank_before; assumption. }
  split; [|split; [exact Hlt|]].
  - destruct (before_total metricData a b Hne) as [H|H].
    + apply Hlt in H. lia.
    + pose proof (GetRank_before metricData b a Hb Hnb (eq_sym Hparent) H).
      lia.
  - rewrite GetRank_count.
    pose proof (filter_length_lt (collecting.outranks metricData a)
                  (fun _ => true) (collector.Attributes metricData) a
                  (fun _ _ _ => eq_refl) Ha) as Hcount.
    assert (Hself : collecting.outranks metricData a a = false)
      by (unfold collecting.outranks; rewrite String.eqb_refl; reflexivity).
    specialize (Hcount Hself eq_refl).
    rewrite filter_all in Hcount. lia.
Qed.

(** Two sub-values of "Attribute1" in the metric of Test_filterData. *)
Lemma GetRank_siblings_distinct_witness :
  collecting.GetRank collecting.testMetric "Attribute1>Sub1" <>
  collecting.GetRank collecting.testMetric "Attribute1>Sub2" /\
  (collecting.GetRank collecting.testMetric "Attribute1>Sub1" <
   collecting.GetRank collecting.testMetric "Attribute1>Sub2" <->
   ranking.before collecting.testMetric "Attribute1>Sub1" "Attribute1>Sub2"
   = true) /\
  1 <= collecting.GetRank collecting.testMetric "Attribute1>Sub1" <=
    Z.of_nat (length (collector.Attributes collecting.testMetric)).
Proof.
  apply (GetRank_siblings_distinct collecting.testMetric "Attribute1>Sub1"
           "Attribute1>Sub2").
  - apply list_elem_of_In. vm_compute. tauto.
  - apply list_elem_of_In. vm_compute. tauto.
  - discriminate.
  - discriminate.
  - discriminate.
  - reflexivity.
Defined.

(** ** The split of the samples *)

Lemma wrap64_congr (a b : Z) :
  a mod 2 ^ 64 = b mod 2 ^ 64 -> utils.wrap64 a = utils.wrap64 b.
Proof.
  intros H. unfold utils.wrap64.
  rewrite <- (Zplus_mod_idemp_l a), <- (Zplus_mod_idemp_l b), H.
  reflexivity.
Qed.

Lemma wrap64_mod (a : Z) : utils.wrap64 a mod 2 ^ 64 = a mod 2 ^ 64.
Proof.
  unfold utils.wrap64.
  rewrite Zminus_mod_idemp_l.
  f_equal. lia.
Qed.

Lemma wrap64_add_l (a b : Z) :
  utils.wrap64 (utils.wrap64 a + b) = utils.wrap64 (a + b).
Proof.
  apply wrap64_congr.
  rewrite <- Zplus_mod_idemp_l, wrap64_mod, Zplus_mod_idemp_l. reflexivity.
Qed.

Lemma inside_cons (s : memory.slice) (l : list memory.slice) (a : nat) :
  simulation.inside (s :: l) a <->
  (memory.base s <= a < memory.base s + memory.len s)%nat \/
  simulation.inside l a.
Proof.
  unfold simulation.inside. split.
  - intros (t & Ht & Ha). apply elem_of_cons in Ht. destruct Ht as [->|Ht].
    + left. exact Ha.
    + right. exists t. split; assumption.
  - intros [Ha|(t & Ht & Ha)].
    + exists s. split; [apply list_elem_of_here|exact Ha].
    + exists t. split; [apply list_elem_of_further; exact Ht|exact Ha].
Qed.

Lemma inside_app (l1 l2 : list memory.slice) (a : nat) :
  simulation.inside (l1 ++ l2) a <->
  simulation.inside l1 a \/ simulation.inside l2 a.
Proof.
  unfold simulation.inside. split.
  - intros (t & Ht & Ha). apply elem_of_app in Ht.
    destruct Ht as [Ht|Ht]; [left|right]; exists t; split; assumption.
  - intros [(t & Ht & Ha)|(t & Ht & Ha)]; exists t;
      (split; [apply elem_of_app; auto|exact Ha]).
Qed.

Lemma inside_nil (a : nat) : ~ simulation.inside [] a.
Proof. intros (t & Ht & _). apply elem_of_nil in Ht. exact Ht. Qed.

Lemma slices_disjoint_spec (s t : memory.slice) (a : nat) :
  memory.disjoint s t = true ->
  (memory.base s <= a < memory.base s + memory.len s)%nat ->
  (memory.base t <= a < memory.base t + memory.len t)%nat -> False.
Proof.
  unfold memory.disjoint.
  rewrite !orb_true_iff, !Nat.eqb_eq, !Nat.leb_le. lia.
Qed.

Lemma separate_cons (s : memory.slice) (l : list memory.slice) :
  memory.separate (s :: l) = true ->
  memory.separate l = true /\
  forall a,
    (memory.base s <= a < memory.base s + memory.len s)%nat ->
    ~ simulation.inside l a.
Proof.
  cbn [memory.separate]. rewrite andb_true_iff. intros [Hall Hsep].
  split; [exact Hsep|]. intros a Ha (t & Ht & Hat).
  rewrite forallb_forall in Hall.
  apply (slices_disjoint_spec s t a); [|exact Ha|exact Hat].
  apply Hall. apply list_elem_of_In. exact Ht.
Qed.

Lemma separate_app (l1 l2 : list memory.slice) :
  memory.separate (l1 ++ l2) = true ->
  memory.separate l1 = true /\ memory.separate l2 = true /\
  forall a, simulation.inside l1 a -> simulation.inside l2 a -> False.
Proof.
  induction l1 as [|s l1 IH]; intros Hsep.
  - split; [reflexivity|]. split; [exact Hsep|].
    intros a Ha. destruct (inside_nil a Ha).
  - change ((s :: l1) ++ l2) with (s :: (l1 ++ l2)) in Hsep.
    pose proof (separate_cons _ _ Hsep) as [Hrest Hs].
    cbn [memory.separate] in Hsep. apply andb_true_iff in Hsep.
    destruct Hsep as [Hall _]. rewrite forallb_app in Hall.
    apply andb_true_iff in Hall. destruct Hall as [Hall1 _].
    destruct (IH Hrest) as (H1 & H2 & Hcross).
    split; [cbn [memory.separate]; rewrite Hall1, H1; reflexivity|].
    split; [exact H2|].
    intros a Ha1 Ha2. apply inside_cons in Ha1. destruct Ha1 as [Ha1|Ha1].
    + apply (Hs a Ha1). apply inside_app. right. exact Ha2.
    + exact (Hcross a Ha1 Ha2).
Qed.

Lemma separate_sublist (l1 l2 : list memory.slice) :
  sublist l1 l2 -> memory.separate l2 = true -> memory.separate l1 = true.
Proof.
  induction 1 as [|s l1 l2 Hsub IH|s l1 l2 Hsub IH]; intros Hsep.
  - reflexivity.
  - cbn [memory.separate] in *. apply andb_true_iff in Hsep.
    destruct Hsep as [Hall Hsep]. rewrite IH by exact Hsep.
    rewrite andb_true_r. rewrite forallb_forall in *.
    intros t Ht. apply Hall. apply list_elem_of_In.
    apply (elem_of_sublist l1 l2 t); [|exact Hsub].
    apply list_elem_of_In. exact Ht.
  - cbn [memory.separate] in Hsep. apply andb_true_iff in Hsep.
    apply IH. apply Hsep.
Qed.

Lemma inside_sublist (l1 l2 : list memory.slice) (a : nat) :
  sublist l1 l2 -> simulation.inside l1 a -> simulation.inside l2 a.
Proof.
  intros Hsub (t & Ht & Ha). exists t. split; [|exact Ha].
  exact (elem_of_sublist l1 l2 t Ht Hsub).
Qed.

Lemma read_ok (h : memory.heap) (s : memory.slice) (i : nat) :
  (i < memory.len s)%nat ->
  memory.read h s i = Some (h (memory.base s + i)%nat).
Proof.
  intros Hi. unfold memory.read.
  destruct (Nat.ltb_spec i (memory.len s)); [reflexivity|lia].
Qed.

Lemma writeSamples_ok (h : memory.heap) (s : memory.slice) (i : nat)
    (v : Z) :
  (i < memory.len s)%nat ->
  memory.writeSamples h s i v =
  Some (fun a =>
          if (a =? memory.base s + i)%nat
          then {| collector.DateStart := collector.DateStart (h a);
                  collector.Value := collector.Value (h a);
                  collector.Samples := v |}
          else h a).
Proof.
  intros Hi. unfold memory.writeSamples.
  destruct (Nat.ltb_spec i (memory.len s)); [reflexivity|lia].
Qed.

Lemma separate_cross (l : list memory.slice) (s t : memory.slice)
    (i j : nat) :
  memory.separate l = true -> s ∈ l -> t ∈ l ->
  (i < memory.len s)%nat -> (j < memory.len t)%nat -> i <> j ->
  (memory.base s + i)%nat <> (memory.base t + j)%nat.
Proof.
  induction l as [|x l IH]; intros Hsep Hs Ht Hi Hj Hij.
  - apply elem_of_nil in Hs. contradiction.
  - pose proof (separate_cons _ _ Hsep) as [Hrest Hx].
    apply elem_of_cons in Hs. apply elem_of_cons in Ht.
    destruct Hs as [->|Hs], Ht as [->|Ht].
    + lia.
    + intros Heq. apply (Hx (memory.base x + i)%nat); [lia|].
      exists t. split; [exact Ht|lia].
    + intros Heq. apply (Hx (memory.base x + j)%nat); [lia|].
      exists s. split; [exact Hs|lia].
    + apply IH; assumption.
Qed.

Lemma separate_NoDup (l : list memory.slice) (step : nat) :
  memory.separate l = true ->
  (forall s, s ∈ l -> (step < memory.len s)%nat) ->
  NoDup (map (fun s => (memory.base s + step)%nat) l).
Proof.
  induction l as [|x l IH]; intros Hsep Hlen; cbn [map]; [constructor|].
  pose proof (separate_cons _ _ Hsep) as [Hrest Hx].
  pose proof (Hlen x ltac:(apply list_elem_of_here)) as Hxl.
  constructor.
  - intros Hin. apply list_elem_of_fmap in Hin.
    destruct Hin as (t & Heq & Ht).
    apply (Hx (memory.base x + step)%nat); [lia|].
    exists t. split; [exact Ht|].
    pose proof (Hlen t ltac:(apply list_elem_of_further; exact Ht)). lia.
  - apply IH; [exact Hrest|].
    intros s Hs. apply Hlen. apply list_elem_of_further. exact Hs.
Qed.

Section Split.

Variable Float64 : nat -> float.
Variable roundInt : float -> Z.
Variable metricData : simulation.MetricData.

#[local] Abbreviation sliceOf := (simulation.sliceOf metricData).
#[local] Abbreviation addressOf := (simulation.addressOf metricData).
#[local] Abbreviation sameTimes := simulation.sameTimes.
#[local] Abbreviation blocks := (simulation.blocks metricData).
#[local] Abbreviation deep := (simulation.deep metricData).
#[local] Abbreviation children := (simulation.children metricData).
#[local] Abbreviation splits :=
  (simulation.splits Float64 roundInt metricData).

Lemma levelSum_app (h : memory.heap)
    (l1 l2 : list generator.sampleCreationAttributeNode) (path : string)
    (step : nat) :
  simulation.levelSum h metricData (l1 ++ l2) path step =
  simulation.levelSum h metricData l1 path step +
  simulation.levelSum h metricData l2 path step.
Proof.
  unfold simulation.levelSum. induction l1 as [|c l1 IH]; cbn [foldr app].
  - lia.
  - rewrite IH. lia.
Qed.

Lemma levelSum_ext (h h' : memory.heap)
    (subs : list generator.sampleCreationAttributeNode) (path : string)
    (step : nat) :
  (forall c, c ∈ subs ->
             h' (addressOf path step c) = h (addressOf path step c)) ->
  simulation.levelSum h' metricData subs path step =
  simulation.levelSum h metricData subs path step.
Proof.
  unfold simulation.levelSum.
  induction subs as [|c subs IH]; intros Hsame; cbn [foldr]; [reflexivity|].
  rewrite IH
    by (intros d Hd; apply Hsame; apply list_elem_of_further; exact Hd).
  pose proof (Hsame c ltac:(apply list_elem_of_here)) as Hc.
  unfold simulation.addressOf, simulation.sliceOf in Hc. rewrite Hc.
  reflexivity.
Qed.

Lemma shares_spec (subs : list generator.sampleCreationAttributeNode)
    (total : float) (masterData : memory.slice) (path : string) (step : nat)
    (remain : Z) (st : simulation.state) :
  (step < memory.len masterData)%nat ->
  (forall c, c ∈ subs -> (step < memory.len (sliceOf path c))%nat) ->
  NoDup (map (addressOf path step) subs) ->
  (memory.base masterData + step)%nat ∉ map (addressOf path step) subs ->
  exists remain' st',
    simulation.shares Float64 roundInt metricData subs total masterData path
      step remain st = Some (remain', st') /\
    simulation.drawn st' = (simulation.drawn st + length subs)%nat /\
    (forall a, a ∉ map (addressOf path step) subs ->
               simulation.cells st' a = simulation.cells st a) /\
    sameTimes (simulation.cells st) (simulation.cells st') /\
    utils.wrap64
      (remain' +
       simulation.levelSum (simulation.cells st') metricData subs path step)
    = utils.wrap64 remain.
Proof.
  intros Hstep. revert remain st.
  induction subs as [|c subs IH]; intros remain st Hlen Hnodup Hmaster.
  - exists remain, st. cbn [simulation.shares length map].
    split; [reflexivity|]. split; [lia|]. split; [reflexivity|].
    split; [intros a; split; reflexivity|].
    unfold simulation.levelSum. cbn [foldr]. f_equal. lia.
  - cbn [simulation.shares]. fold (sliceOf path c).
    pose proof (Hlen c ltac:(apply list_elem_of_here)) as Hc.
    rewrite (read_ok _ masterData step Hstep). cbn [mbind option_bind].
    rewrite (writeSamples_ok _ (sliceOf path c) step _ Hc).
    cbn [mbind option_bind].
    rewrite (read_ok _ (sliceOf path c) step Hc). cbn [mbind option_bind].
    rewrite Nat.eqb_refl. cbn [collector.Samples].
    cbn [map] in Hnodup, Hmaster. apply NoDup_cons in Hnodup.
    destruct Hnodup as [Hfresh Hnodup].
    apply not_elem_of_cons in Hmaster. destruct Hmaster as [Hmc Hmaster].
    set (h := fun a : nat => _).
    set (r := utils.wrap64 _).
    destruct (IH r {| simulation.cells := h;
                      simulation.drawn := S (simulation.drawn st) |})
      as (remain' & st' & Hrun & Hdrawn & Hframe & Htimes & Hsum).
    { intros d Hd. apply Hlen. apply list_elem_of_further. exact Hd. }
    { exact Hnodup. }
    { exact Hmaster. }
    exists remain', st'. split; [exact Hrun|].
    cbn [simulation.drawn simulation.cells] in *.
    split; [cbn [length]; lia|]. split; [|split].
    + intros a Ha. cbn [map] in Ha. apply not_elem_of_cons in Ha.
      destruct Ha as [Hac Ha]. rewrite (Hframe a Ha). subst h. cbn beta.
      unfold simulation.addressOf in Hac. apply Nat.eqb_neq in Hac. rewrite Hac.
      reflexivity.
    + intros a. destruct (Htimes a) as [Hd Hv]. rewrite Hd, Hv.
      subst h. cbn beta.
      destruct (a =? memory.base (sliceOf path c) + step)%nat;
        split; reflexivity.
    + unfold simulation.levelSum in *. cbn [foldr].
      fold (sliceOf path c).
      rewrite (Hframe (memory.base (sliceOf path c) + step)%nat)
        by exact Hfresh.
      subst h r. cbn beta in *.
      rewrite Nat.eqb_refl. cbn [collector.Samples].
      apply wrap64_congr. apply (f_equal (fun x => x mod 2 ^ 64)) in Hsum.
      rewrite !wrap64_mod in Hsum.
      match goal with
      | |- (remain' + (?v + ?s)) mod _ = _ =>
          replace (remain' + (v + s)) with ((remain' + s) + v) by lia;
          rewrite <- Zplus_mod_idemp_l, Hsum, Zplus_mod_idemp_l;
          f_equal; lia
      end.
Qed.

Lemma splitStep_spec (subs : list generator.sampleCreationAttributeNode)
    (total : float) (masterData : memory.slice) (path : string)
    (st : simulation.state) (step : nat) :
  subs <> [] ->
  (step < memory.len masterData)%nat ->
  (forall c, c ∈ subs -> (step < memory.len (sliceOf path c))%nat) ->
  NoDup (map (addressOf path step) subs) ->
  (memory.base masterData + step)%nat ∉ map (addressOf path step) subs ->
  exists st',
    simulation.splitStep Float64 roundInt metricData subs total masterData
      path st step = Some st' /\
    (forall a, a ∉ map (addressOf path step) subs ->
               simulation.cells st' a = simulation.cells st a) /\
    sameTimes (simulation.cells st) (simulation.cells st') /\
    utils.wrap64
      (simulation.levelSum (simulation.cells st') metricData subs path step)
    = utils.wrap64
        (collector.Samples
           (simulation.cells st (memory.base masterData + step)%nat)).
Proof.
  intros Hsubs Hstep Hlen Hnodup Hmaster.
  destruct subs as [|lastc init _] using rev_ind; [contradiction|].
  clear Hsubs. unfold simulation.splitStep.
  rewrite (read_ok _ masterData step Hstep). cbn [mbind option_bind].
  rewrite length_app. cbn [length].
  replace (length init + 1 - 1)%nat with (length init) by lia.
  rewrite take_app_length, last_snoc.
  rewrite map_app in Hnodup, Hmaster. cbn [map] in Hnodup, Hmaster.
  apply NoDup_app in Hnodup. destruct Hnodup as (Hnodup & Hfresh & _).
  apply not_elem_of_app in Hmaster. destruct Hmaster as [Hmaster Hml].
  destruct (shares_spec init total masterData path step
              (collector.Samples
                 (simulation.cells st (memory.base masterData + step)%nat))
              st Hstep)
    as (remain & st1 & Hrun & _ & Hframe & Htimes & Hsum).
  { intros c Hc. apply Hlen. apply elem_of_app. left. exact Hc. }
  { exact Hnodup. }
  { exact Hmaster. }
  rewrite Hrun. cbn [mbind option_bind].
  fold (sliceOf path lastc).
  pose proof (Hlen lastc ltac:(apply elem_of_app; right;
                               apply list_elem_of_here)) as Hl.
  rewrite (writeSamples_ok _ (sliceOf path lastc) step _ Hl).
  cbn [mbind option_bind]. eexists. split; [reflexivity|].
  cbn [simulation.cells]. split; [|split].
  - intros a Ha. rewrite map_app in Ha. apply not_elem_of_app in Ha.
    destruct Ha as [Ha Hal]. cbn [map] in Hal.
    apply not_elem_of_cons in Hal. destruct Hal as [Hal _].
    unfold simulation.addressOf in Hal. apply Nat.eqb_neq in Hal. rewrite Hal.
    apply Hframe. exact Ha.
  - intros a. destruct (Htimes a) as [Hd Hv].
    destruct (a =? memory.base (sliceOf path lastc) + step)%nat;
      cbn [collector.DateStart collector.Value]; split; assumption.
  - rewrite levelSum_app.
    rewrite (levelSum_ext (simulation.cells st1)).
    + unfold simulation.levelSum at 2. cbn [foldr].
      fold (sliceOf path lastc). rewrite Nat.eqb_refl.
      cbn [collector.Samples]. rewrite <- Hsum. f_equal. lia.
    + intros c Hc.
      assert (Hne : addressOf path step c <> addressOf path step lastc).
      { intros Heq. apply (Hfresh (addressOf path step c)).
        - apply list_elem_of_fmap. exists c. split; [reflexivity|exact Hc].
        - rewrite Heq. apply list_elem_of_here. }
      unfold simulation.addressOf at 2 in Hne. apply Nat.eqb_neq in Hne.
      rewrite Hne. reflexivity.
Qed.

Lemma steps_spec (subs : list generator.sampleCreationAttributeNode)
    (total : float) (masterData : memory.slice) (path : string) :
  subs <> [] ->
  memory.separate (masterData :: map (sliceOf path) subs) = true ->
  (forall c, c ∈ subs ->
             memory.len (sliceOf path c) = memory.len masterData) ->
  forall (n k : nat) (st : simulation.state),
    (k + n <= memory.len masterData)%nat ->
    exists st',
      forRange
        (simulation.splitStep Float64 roundInt metricData subs total
           masterData path)
        (seq k n) st = Some st' /\
      (forall a,
         ~ (exists c step,
              c ∈ subs /\ (k <= step < k + n)%nat /\
              a = addressOf path step c) ->
         simulation.cells st' a = simulation.cells st a) /\
      sameTimes (simulation.cells st) (simulation.cells st') /\
      (forall step,
         (k <= step < k + n)%nat ->
         utils.wrap64
           (simulation.levelSum (simulation.cells st') metricData subs path
              step)
         = utils.wrap64
             (collector.Samples
                (simulation.cells st (memory.base masterData + step)%nat))).
Proof.
  intros Hsubs Hsep Hlen.
  pose proof (separate_cons _ _ Hsep) as [Hsubsep Hmaster].
  induction n as [|n IH]; intros k st Hk; cbn [seq forRange].
  - exists st. split; [reflexivity|]. split; [reflexivity|].
    split; [intros a; split; reflexivity|]. intros step Hs. lia.
  - destruct (splitStep_spec subs total masterData path st k Hsubs)
      as (st1 & Hrun & Hframe1 & Htimes1 & Hsum1).
    { lia. }
    { intros c Hc. rewrite (Hlen c Hc). lia. }
    { unfold simulation.addressOf. rewrite <- (map_map (sliceOf path)
        (fun s => (memory.base s + k)%nat)).
      apply separate_NoDup; [exact Hsubsep|].
      intros s Hs. apply list_elem_of_fmap in Hs.
      destruct Hs as (c & -> & Hc). rewrite (Hlen c Hc). lia. }
    { intros Hin. apply list_elem_of_fmap in Hin.
      destruct Hin as (c & Heq & Hc).
      apply (Hmaster (memory.base masterData + k)%nat); [lia|].
      exists (sliceOf path c). split.
      - apply list_elem_of_fmap. exists c. split; [reflexivity|exact Hc].
      - unfold simulation.addressOf in Heq. rewrite (Hlen c Hc). lia. }
    rewrite Hrun. cbn [mbind option_bind].
    destruct (IH (S k) st1 ltac:(lia))
      as (st' & Hrest & Hframe & Htimes & Hsum).
    exists st'. split; [exact Hrest|]. split; [|split].
    + intros a Ha. rewrite Hframe, Hframe1; [reflexivity| |].
      * intros Hin. apply list_elem_of_fmap in Hin.
        destruct Hin as (c & -> & Hc). apply Ha. exists c, k.
        split; [exact Hc|]. split; [lia|reflexivity].
      * intros (c & step & Hc & Hs & ->). apply Ha. exists c, step.
        split; [exact Hc|]. split; [lia|reflexivity].
    + intros a. destruct (Htimes1 a) as [Hd1 Hv1].
      destruct (Htimes a) as [Hd Hv]. split; congruence.
    + intros step Hs.
      assert (Hm1 : simulation.cells st1 (memory.base masterData + step)%nat
                    = simulation.cells st (memory.base masterData + step)%nat).
      { apply Hframe1. intros Hin. apply list_elem_of_fmap in Hin.
        destruct Hin as (c & Heq & Hc).
        apply (Hmaster (memory.base masterData + step)%nat); [lia|].
        exists (sliceOf path c). split.
        - apply list_elem_of_fmap. exists c. split; [reflexivity|exact Hc].
        - unfold simulation.addressOf in Heq. rewrite (Hlen c Hc). lia. }
      destruct (decide (step = k)) as [->|Hne].
      * rewrite <- Hsum1. f_equal. apply levelSum_ext.
        intros c Hc. apply Hframe.
        intros (c' & step' & Hc' & Hs' & Heq).
        unfold simulation.addressOf in Heq.
        revert Heq.
        apply (separate_cross (map (sliceOf path) subs)); try assumption.
        -- apply list_elem_of_fmap. exists c. split; [reflexivity|exact Hc].
        -- apply list_elem_of_fmap. exists c'.
           split; [reflexivity|exact Hc'].
        -- rewrite (Hlen c Hc). lia.
        -- rewrite (Hlen c' Hc'). lia.
        -- lia.
      * rewrite (Hsum step ltac:(lia)), Hm1. reflexivity.
Qed.

Lemma level_spec (subs : list generator.sampleCreationAttributeNode)
    (total : float) (masterData : memory.slice) (path : string)
    (st : simulation.state) :
  subs <> [] ->
  memory.separate (masterData :: map (sliceOf path) subs) = true ->
  (forall c, c ∈ subs ->
             memory.len (sliceOf path c) = memory.len masterData) ->
  exists st',
    forRange
      (simulation.splitStep Float64 roundInt metricData subs total
         masterData path)
      (seq 0 (memory.len masterData)) st = Some st' /\
    (forall a, ~ simulation.inside (map (sliceOf path) subs) a ->
               simulation.cells st' a = simulation.cells st a) /\
    sameTimes (simulation.cells st) (simulation.cells st') /\
    simulation.level (simulation.cells st') metricData subs masterData path.
Proof.
  intros Hsubs Hsep Hlen.
  pose proof (separate_cons _ _ Hsep) as [Hsubsep Hmaster].
  destruct (steps_spec subs total masterData path Hsubs Hsep Hlen
              (memory.len masterData) 0 st ltac:(lia))
    as (st' & Hrun & Hframe & Htimes & Hsum).
  assert (Hin : forall a, ~ simulation.inside (map (sliceOf path) subs) a ->
                          simulation.cells st' a = simulation.cells st a).
  { intros a Ha. apply Hframe. intros (c & step & Hc & Hs & ->).
    apply Ha. exists (sliceOf path c). split.
    - apply list_elem_of_fmap. exists c. split; [reflexivity|exact Hc].
    - unfold simulation.addressOf. rewrite (Hlen c Hc). lia. }
  exists st'. split; [exact Hrun|]. split; [exact Hin|].
  split; [exact Htimes|].
  intros step Hs. rewrite (Hsum step ltac:(lia)). f_equal. f_equal.
  symmetry. apply Hin. apply Hmaster. lia.
Qed.

Lemma slices_node (name : string) (weight : float)
    (subs : list generator.sampleCreationAttributeNode) (path : string) :
  simulation.slices metricData (generator.Node name weight subs) path =
  blocks path subs.
Proof.
  unfold simulation.slices, simulation.blocks. cbn [generator.paths].
  induction subs as [|c subs IH]; [reflexivity|].
  cbn [flat_map]. rewrite map_app. cbn [map]. rewrite IH. reflexivity.
Qed.

Lemma sublist_directs (path : string)
    (subs : list generator.sampleCreationAttributeNode) :
  sublist (map (sliceOf path) subs) (blocks path subs).
Proof.
  induction subs as [|c subs IH]; [constructor|].
  cbn [map simulation.blocks flat_map]. apply sublist_skip.
  apply sublist_inserts_l. exact IH.
Qed.

Lemma sublist_deep (path : string)
    (subs : list generator.sampleCreationAttributeNode) :
  sublist (deep path subs) (blocks path subs).
Proof.
  induction subs as [|c subs IH]; [constructor|].
  cbn [simulation.deep simulation.blocks flat_map]. apply sublist_cons.
  apply sublist_app; [reflexivity|exact IH].
Qed.

Lemma directs_deep (path : string)
    (subs : list generator.sampleCreationAttributeNode) (a : nat) :
  memory.separate (blocks path subs) = true ->
  simulation.inside (map (sliceOf path) subs) a ->
  simulation.inside (deep path subs) a -> False.
Proof.
  induction subs as [|c subs IH]; intros Hsep Hd Hp.
  - destruct (inside_nil a Hd).
  - cbn [simulation.blocks flat_map] in Hsep. fold (blocks path subs) in Hsep.
    change (memory.separate
              (sliceOf path c
               :: (simulation.slices metricData c
                     (generator.subPath path (generator.name c)) ++
                   blocks path subs)) = true) in Hsep.
    pose proof (separate_cons _ _ Hsep) as [Hrest Hc].
    pose proof (separate_app _ _ Hrest) as (_ & Hsubs & Hcross).
    cbn [map] in Hd. apply inside_cons in Hd.
    cbn [simulation.deep flat_map] in Hp. fold (deep path subs) in Hp.
    apply inside_app in Hp.
    destruct Hd as [Hd|Hd], Hp as [Hp|Hp].
    + apply (Hc a Hd). apply inside_app. left. exact Hp.
    + apply (Hc a Hd). apply inside_app. right.
      apply (inside_sublist _ _ a (sublist_deep path subs)). exact Hp.
    + apply (Hcross a Hp).
      apply (inside_sublist _ _ a (sublist_directs path subs)). exact Hd.
    + exact (IH Hsubs Hd Hp).
Qed.

Lemma level_frame (h h' : memory.heap)
    (subs : list generator.sampleCreationAttributeNode)
    (masterData : memory.slice) (path : string) :
  (forall c, c ∈ subs ->
             memory.len (sliceOf path c) = memory.len masterData) ->
  (forall a, simulation.inside (masterData :: map (sliceOf path) subs) a ->
             h' a = h a) ->
  simulation.level h metricData subs masterData path ->
  simulation.level h' metricData subs masterData path.
Proof.
  intros Hlen Hsame Hlevel step Hstep.
  rewrite (levelSum_ext h h').
  - rewrite Hsame; [apply Hlevel; exact Hstep|].
    apply inside_cons. left. lia.
  - intros c Hc. apply Hsame. apply inside_cons. right.
    exists (sliceOf path c). split.
    + apply list_elem_of_fmap. exists c. split; [reflexivity|exact Hc].
    + unfold simulation.addressOf. rewrite (Hlen c Hc). lia.
Qed.

Lemma conserved_node (h : memory.heap) (name : string) (weight : float)
    (subs : list generator.sampleCreationAttributeNode)
    (masterData : memory.slice) (path : string) :
  simulation.conserved h metricData (generator.Node name weight subs)
    masterData path =
  (simulation.level h metricData subs masterData path /\
   children h path subs).
Proof. reflexivity. Qed.

Lemma elem_of_blocks_head (path : string)
    (c : generator.sampleCreationAttributeNode)
    (subs : list generator.sampleCreationAttributeNode) :
  c ∈ subs -> sliceOf path c ∈ blocks path subs.
Proof.
  intros Hc.
  apply (elem_of_sublist (map (sliceOf path) subs));
    [|apply sublist_directs].
  apply list_elem_of_fmap. exists c. split; [reflexivity|exact Hc].
Qed.

Lemma conserved_frame (h h' : memory.heap)
    (node : generator.sampleCreationAttributeNode) :
  forall (masterData : memory.slice) (path : string),
    (forall s, s ∈ simulation.slices metricData node path ->
               memory.len s = memory.len masterData) ->
    (forall a,
       simulation.inside
         (masterData :: simulation.slices metricData node path) a ->
       h' a = h a) ->
    simulation.conserved h metricData node masterData path ->
    simulation.conserved h' metricData node masterData path.
Proof.
  induction node as [name weight subs IH] using node_induction.
  intros masterData path Hlen Hsame. rewrite !conserved_node.
  rewrite slices_node in Hlen, Hsame. intros [Hlevel Hchildren]. split.
  - apply (level_frame h h'); [| |exact Hlevel].
    + intros c Hc. apply Hlen. apply elem_of_blocks_head. exact Hc.
    + intros a Ha. apply Hsame. apply inside_cons in Ha. apply inside_cons.
      destruct Ha as [Ha|Ha]; [left; exact Ha|right].
      apply (inside_sublist _ _ a (sublist_directs path subs)). exact Ha.
  - assert (Hsame' : forall a, simulation.inside (blocks path subs) a ->
                               h' a = h a)
      by (intros a Ha; apply Hsame; apply inside_cons; right; exact Ha).
    clear Hsame Hlevel.
    induction IH as [|c subs Hc _ IHsubs]; [exact I|].
    cbn [simulation.children foldr] in Hchildren |- *.
    destruct Hchildren as [Hfirst Hrest].
    cbn [simulation.blocks flat_map] in Hlen, Hsame'.
    fold (blocks path subs) in Hlen, Hsame'.
    split.
    + intros Hne. apply Hc; [| |exact (Hfirst Hne)].
      * intros s Hs. rewrite (Hlen s), <- (Hlen (sliceOf path c)).
        -- reflexivity.
        -- apply list_elem_of_here.
        -- apply list_elem_of_further. apply elem_of_app. left. exact Hs.
      * intros a Ha. apply Hsame'.
        change (simulation.inside
                  ((sliceOf path c
                    :: simulation.slices metricData c
                         (generator.subPath path (generator.name c))) ++
                   blocks path subs) a).
        apply inside_app. left. exact Ha.
    + apply IHsubs; [|exact Hrest|].
      * intros s Hs. apply Hlen. apply list_elem_of_further.
        apply elem_of_app. right. exact Hs.
      * intros a Ha. apply Hsame'.
        change (simulation.inside
                  ((sliceOf path c
                    :: simulation.slices metricData c
                         (generator.subPath path (generator.name c))) ++
                   blocks path subs) a).
        apply inside_app. right. exact Ha.
Qed.

Lemma recur_spec (path : string) (n : nat)
    (subs : list generator.sampleCreationAttributeNode) :
  Forall splits subs ->
  forall st,
    memory.separate (blocks path subs) = true ->
    (forall s, s ∈ blocks path subs -> memory.len s = n) ->
    exists st',
      forRange
        (fun '(metricData, st) subAttribute =>
           if (0 <? length (generator.subAttributes subAttribute))%nat then
             simulation.splitSamples Float64 roundInt metricData
               subAttribute
               (simulation.attributeData metricData
                  (generator.subPath path (generator.name subAttribute)))
               (generator.subPath path (generator.name subAttribute)) st
           else Some (metricData, st))
        subs (metricData, st) = Some (metricData, st') /\
      children (simulation.cells st') path subs /\
      (forall a, ~ simulation.inside (deep path subs) a ->
                 simulation.cells st' a = simulation.cells st a) /\
      sameTimes (simulation.cells st) (simulation.cells st').
Proof.
  induction 1 as [|c subs Hc _ IH]; intros st Hsep Hlen.
  - exists st. cbn [forRange]. split; [reflexivity|].
    split; [exact I|]. split; [reflexivity|]. intros a. split; reflexivity.
  - cbn [simulation.blocks flat_map] in Hsep, Hlen.
    fold (blocks path subs) in Hsep, Hlen.
    change (memory.separate
              ((sliceOf path c
                :: simulation.slices metricData c
                     (generator.subPath path (generator.name c))) ++
               blocks path subs) = true) in Hsep.
    pose proof (separate_app _ _ Hsep) as (Hsepc & Hsepsubs & Hcross).
    assert (Hlenc : forall s,
               s ∈ simulation.slices metricData c
                     (generator.subPath path (generator.name c)) ->
               memory.len s = memory.len (sliceOf path c)).
    { intros s Hs. rewrite (Hlen s), (Hlen (sliceOf path c)).
      - reflexivity.
      - apply list_elem_of_here.
      - apply list_elem_of_further. apply elem_of_app. left. exact Hs. }
    assert (Hfirst : exists st1,
               (if (0 <? length (generator.subAttributes c))%nat then
                  simulation.splitSamples Float64 roundInt metricData c
                    (simulation.attributeData metricData
                       (generator.subPath path (generator.name c)))
                    (generator.subPath path (generator.name c)) st
                else Some (metricData, st)) = Some (metricData, st1) /\
               (generator.subAttributes c <> [] ->
                simulation.conserved (simulation.cells st1) metricData c
                  (sliceOf path c)
                  (generator.subPath path (generator.name c))) /\
               (forall a,
                  ~ simulation.inside
                      (simulation.slices metricData c
                         (generator.subPath path (generator.name c))) a ->
                  simulation.cells st1 a = simulation.cells st a) /\
               sameTimes (simulation.cells st) (simulation.cells st1)).
    { destruct (generator.subAttributes c) as [|d ds] eqn:Hsubs.
      - exists st. cbn [length Nat.ltb Nat.leb]. split; [reflexivity|].
        split; [intros Hne; contradiction|]. split; [reflexivity|].
        intros a. split; reflexivity.
      - cbn [length]. replace (0 <? S (length ds))%nat with true
          by (symmetry; apply Nat.ltb_lt; lia).
        destruct (Hc (sliceOf path c)
                    (generator.subPath path (generator.name c)) st)
          as (st1 & Hrun & Hcons & Hframe & Htimes).
        + rewrite Hsubs. discriminate.
        + exact Hsepc.
        + exact Hlenc.
        + exists st1. split; [exact Hrun|]. split; [intros _; exact Hcons|].
          split; [exact Hframe|exact Htimes]. }
    destruct Hfirst as (st1 & Hrun1 & Hcons1 & Hframe1 & Htimes1).
    destruct (IH st1 Hsepsubs) as (st' & Hrun & Hchildren & Hframe & Htimes).
    { intros s Hs. apply Hlen. apply list_elem_of_further.
      apply elem_of_app. right. exact Hs. }
    exists st'. cbn [forRange]. rewrite Hrun1. cbn [mbind option_bind].
    split; [exact Hrun|]. split; [|split].
    + cbn [simulation.children foldr]. split; [|exact Hchildren].
      intros Hne.
      apply (conserved_frame (simulation.cells st1)); [exact Hlenc| |].
      * intros a Ha. apply Hframe. intros Hdeep.
        apply (Hcross a Ha).
        apply (inside_sublist _ _ a (sublist_deep path subs)). exact Hdeep.
      * exact (Hcons1 Hne).
    + intros a Ha. cbn [simulation.deep flat_map] in Ha.
      fold (deep path subs) in Ha.
      rewrite Hframe, Hframe1; [reflexivity| |].
      * intros Hin. apply Ha. apply inside_app. left. exact Hin.
      * intros Hin. apply Ha. apply inside_app. right. exact Hin.
    + intros a. destruct (Htimes1 a), (Htimes a). split; congruence.
Qed.

End Split.

Lemma forRange_panic {A S : Type} (f : S -> A -> option S) (l : list A)
    (x : A) (s : S) :
  x ∈ l -> (forall s', f s' x = None) -> forRange f l s = None.
Proof.
  revert s. induction l as [|y l IH]; intros s Hx Hf.
  - apply elem_of_nil in Hx. contradiction.
  - cbn [forRange]. apply elem_of_cons in Hx. destruct Hx as [<-|Hx].
    + rewrite Hf. reflexivity.
    + destruct (f s y) as [s'|]; [|reflexivity].
      cbn [mbind option_bind]. apply IH; assumption.
Qed.

Lemma read_short (h : memory.heap) (s : memory.slice) (i : nat) :
  (memory.len s <= i)%nat -> memory.read h s i = None.
Proof.
  intros Hi. unfold memory.read.
  destruct (Nat.ltb_spec i (memory.len s)); [lia|reflexivity].
Qed.

Lemma writeSamples_short (h : memory.heap) (s : memory.slice) (i : nat)
    (v : Z) :
  (memory.len s <= i)%nat -> memory.writeSamples h s i v = None.
Proof.
  intros Hi. unfold memory.writeSamples.
  destruct (Nat.ltb_spec i (memory.len s)); [lia|reflexivity].
Qed.

Lemma shares_short (Float64 : nat -> float) (roundInt : float -> Z)
    (metricData : simulation.MetricData)
    (subs : list generator.sampleCreationAttributeNode) (total : float)
    (masterData : memory.slice) (path : string) (step : nat)
    (c : generator.sampleCreationAttributeNode) :
  c ∈ subs ->
  (memory.len (simulation.sliceOf metricData path c) <= step)%nat ->
  forall remain st,
    simulation.shares Float64 roundInt metricData subs total masterData path
      step remain st = None.
Proof.
  intros Hc Hshort.
  induction subs as [|d subs IH]; intros remain st.
  - apply elem_of_nil in Hc. contradiction.
  - cbn [simulation.shares].
    destruct (memory.read (simulation.cells st) masterData step)
      as [master|]; [|reflexivity].
    cbn [mbind option_bind].
    apply elem_of_cons in Hc. destruct Hc as [<-|Hc].
    + fold (simulation.sliceOf metricData path c).
      rewrite writeSamples_short by exact Hshort. reflexivity.
    + destruct (memory.writeSamples _ _ _ _) as [h|]; [|reflexivity].
      cbn [mbind option_bind].
      destruct (memory.read h _ step) as [written|]; [|reflexivity].
      cbn [mbind option_bind]. apply IH. exact Hc.
Qed.

Lemma splitStep_short (Float64 : nat -> float) (roundInt : float -> Z)
    (metricData : simulation.MetricData)
    (subs : list generator.sampleCreationAttributeNode) (total : float)
    (masterData : memory.slice) (path : string) (step : nat)
    (c : generator.sampleCreationAttributeNode) :
  c ∈ subs ->
  (memory.len (simulation.sliceOf metricData path c) <= step)%nat ->
  forall st,
    simulation.splitStep Float64 roundInt metricData subs total masterData
      path st step = None.
Proof.
  intros Hc Hshort st. unfold simulation.splitStep.
  destruct (memory.read (simulation.cells st) masterData step)
    as [master|]; [|reflexivity].
  cbn [mbind option_bind].
  destruct subs as [|lastc init _] using rev_ind;
    [apply elem_of_nil in Hc; contradiction|].
  rewrite length_app. cbn [length].
  replace (length init + 1 - 1)%nat with (length init) by lia.
  rewrite take_app_length, last_snoc.
  apply elem_of_app in Hc. destruct Hc as [Hc|Hc].
  - rewrite (shares_short _ _ _ init total masterData path step c Hc Hshort).
    reflexivity.
  - apply list_elem_of_singleton in Hc. subst lastc.
    destruct (simulation.shares _ _ _ _ _ _ _ _ _ _) as [[remain st1]|];
      [|reflexivity].
    cbn [mbind option_bind].
    fold (simulation.sliceOf metricData path c).
    rewrite writeSamples_short by exact Hshort. reflexivity.
Qed.

(** X17: splitSamples conserves the samples. When the node has
    sub-attributes and the slices of the attributes of its tree are as long
    as [masterData] and share no element with each other nor with
    [masterData], splitSamples returns the metric data it was given, never
    panics, and afterwards, at every attribute of the tree that has
    sub-attributes and at every time step, the samples of the
    sub-attributes add up (as 64-bit integers) to the samples of the
    attribute, [masterData] for the node itself, whatever the random
    generators return and whatever the rounding gives. It writes the
    Samples fields of those slices only: every other element of the
    memory, and every DateStart and Value, is unchanged. *)
Theorem splitSamples_conserves (Float64 : nat -> float)
    (roundInt : float -> Z) (metricData : simulation.MetricData)
    (node : generator.sampleCreationAttributeNode)
    (masterData : memory.slice) (path : string) (st : simulation.state) :
  generator.subAttributes node <> [] ->
  memory.separate
    (masterData :: simulation.slices metricData node path) = true ->
  (forall s, s ∈ simulation.slices metricData node path ->
             memory.len s = memory.len masterData) ->
  exists st',
    simulation.splitSamples Float64 roundInt metricData node masterData path
      st = Some (metricData, st') /\
    simulation.conserved (simulation.cells st') metricData node masterData
      path /\
    (forall a,
       ~ simulation.inside (simulation.slices metricData node path) a ->
       simulation.cells st' a = simulation.cells st a) /\
    simulation.sameTimes (simulation.cells st) (simulation.cells st').
Proof.
  revert masterData path st.
  induction node as [name weight subs IH] using node_induction.
  intros masterData path st Hsubs Hsep Hlen.
  cbn [generator.subAttributes] in Hsubs.
  rewrite slices_node in Hsep, Hlen |- *.
  pose proof (separate_cons _ _ Hsep) as [Hblocks Hmaster].
  assert (Hlend : forall c, c ∈ subs ->
                    memory.len (simulation.sliceOf metricData path c) =
                    memory.len masterData)
    by (intros c Hc; apply Hlen; apply elem_of_blocks_head; exact Hc).
  destruct (level_spec Float64 roundInt metricData subs
              (simulation.totalWeight subs) masterData path st Hsubs)
    as (st1 & Hrun1 & Hframe1 & Htimes1 & Hlevel1).
  { apply (separate_sublist _
             (masterData :: simulation.blocks metricData path subs));
      [|exact Hsep].
    apply sublist_skip. apply sublist_directs. }
  { exact Hlend. }
  destruct (recur_spec Float64 roundInt metricData path
              (memory.len masterData) subs IH st1 Hblocks Hlen)
    as (st' & Hrun & Hchildren & Hframe & Htimes).
  exists st'. split; [|split; [|split]].
  - cbn [simulation.splitSamples]. rewrite Hrun1. cbn [mbind option_bind].
    exact Hrun.
  - rewrite conserved_node. split; [|exact Hchildren].
    apply (level_frame metricData (simulation.cells st1));
      [exact Hlend| |exact Hlevel1].
    intros a Ha. apply Hframe. intros Hdeep.
    apply inside_cons in Ha. destruct Ha as [Ha|Ha].
    + apply (Hmaster a Ha).
      apply (inside_sublist _ _ a (sublist_deep metricData path subs)).
      exact Hdeep.
    + exact (directs_deep metricData path subs a Hblocks Ha Hdeep).
  - intros a Ha. rewrite Hframe, Hframe1; [reflexivity| |].
    + intros Hin. apply Ha.
      apply (inside_sublist _ _ a (sublist_directs metricData path subs)).
      exact Hin.
    + intros Hin. apply Ha.
      apply (inside_sublist _ _ a (sublist_deep metricData path subs)).
      exact Hin.
  - intros a. destruct (Htimes1 a), (Htimes a). split; congruence.
Qed.

(** Two time steps and a generator that always returns 0.5. *)
Lemma splitSamples_conserves_witness :
  exists st',
    simulation.splitSamples (fun _ => 0.5%float) (fun _ => 7) simdata.metric
      simdata.browser (simulation.attributeData simdata.metric "Total")
      "Browser" simdata.initial = Some (simdata.metric, st') /\
    simulation.conserved (simulation.cells st') simdata.metric
      simdata.browser (simulation.attributeData simdata.metric "Total")
      "Browser" /\
    (forall a,
       ~ simulation.inside
           (simulation.slices simdata.metric simdata.browser "Browser") a ->
       simulation.cells st' a = simulation.cells simdata.initial a) /\
    simulation.sameTimes (simulation.cells simdata.initial)
      (simulation.cells st').
Proof.
  apply (splitSamples_conserves (fun _ => 0.5%float) (fun _ => 7)
           simdata.metric simdata.browser
           (simulation.attributeData simdata.metric "Total") "Browser"
           simdata.initial).
  - discriminate.
  - reflexivity.
  - intros s Hs. apply list_elem_of_In in Hs. vm_compute in Hs.
    repeat (destruct Hs as [<-|Hs]; [reflexivity|]). contradiction.
Defined.

(** X18: a node without sub-attributes makes splitSamples panic as soon as
    [masterData] has a time step: the last sub-attribute is read at index
    -1. (generateData calls splitSamples for every main attribute of the
    tree, with or without sub-attributes.) *)
Theorem splitSamples_no_subattributes (Float64 : nat -> float)
    (roundInt : float -> Z) (metricData : simulation.MetricData)
    (node : generator.sampleCreationAttributeNode)
    (masterData : memory.slice) (path : string) (st : simulation.state) :
  generator.subAttributes node = [] ->
  (0 < memory.len masterData)%nat ->
  simulation.splitSamples Float64 roundInt metricData node masterData path st
  = None.
Proof.
  intros Hsubs Hlen. destruct node as [name weight subs].
  cbn [generator.subAttributes] in Hsubs. subst subs.
  cbn [simulation.splitSamples].
  rewrite (forRange_panic _ _ 0%nat); [reflexivity| |].
  - apply elem_of_seq. lia.
  - intros st'. unfold simulation.splitStep.
    destruct (memory.read _ _ _); reflexivity.
Qed.

(** The leaf "Edge". *)
Lemma splitSamples_no_subattributes_witness :
  simulation.splitSamples (fun _ => 0.5%float) (fun _ => 7) simdata.metric
    (generator.Node "Edge" 20 [])
    (simulation.attributeData simdata.metric "Browser>Edge") "Browser>Edge"
    simdata.initial = None.
Proof.
  apply (splitSamples_no_subattributes (fun _ => 0.5%float) (fun _ => 7)
           simdata.metric (generator.Node "Edge" 20 [])
           (simulation.attributeData simdata.metric "Browser>Edge")
           "Browser>Edge" simdata.initial).
  - reflexivity.
  - vm_compute. lia.
Defined.

(** X19: splitSamples panics when the slice of one of the sub-attributes
    of the node is shorter than [masterData], in particular when the path
    of the sub-attribute is not a key of AttributeData, as before
    allocAttributesData has run: the slice is indexed out of range. *)
Theorem splitSamples_short_slice (Float64 : nat -> float)
    (roundInt : float -> Z) (metricData : simulation.MetricData)
    (node : generator.sampleCreationAttributeNode)
    (masterData : memory.slice) (path : string) (st : simulation.state)
    (subAttribute : generator.sampleCreationAttributeNode) :
  subAttribute ∈ generator.subAttributes node ->
  (memory.len
     (simulation.attributeData metricData
        (generator.subPath path (generator.name subAttribute))) <
   memory.len masterData)%nat ->
  simulation.splitSamples Float64 roundInt metricData node masterData path st
  = None.
Proof.
  intros Hsub Hshort. destruct node as [name weight subs].
  cbn [generator.subAttributes] in Hsub.
  cbn [simulation.splitSamples].
  rewrite (forRange_panic _ _
             (memory.len
                (simulation.attributeData metricData
                   (generator.subPath path (generator.name subAttribute)))));
    [reflexivity| |].
  - apply elem_of_seq. lia.
  - intros st'.
    apply (splitStep_short _ _ _ subs _ masterData path _ subAttribute Hsub).
    unfold simulation.sliceOf. lia.
Qed.

(** No attribute of the layout starts with "Device". *)
Lemma splitSamples_short_slice_witness :
  simulation.splitSamples (fun _ => 0.5%float) (fun _ => 7) simdata.metric
    simdata.browser (simulation.attributeData simdata.metric "Total")
    "Device" simdata.initial = None.
Proof.
  apply (splitSamples_short_slice (fun _ => 0.5%float) (fun _ => 7)
           simdata.metric simdata.browser
           (simulation.attributeData simdata.metric "Total") "Device"
           simdata.initial
           (generator.Node "Chrome" 50
              [ generator.Node "v1" 5 []; generator.Node "v2" 15 [];
                generator.Node "v3" 80 [] ])).
  - apply list_elem_of_here.
  - vm_compute. lia.
Defined.
